(** * Session tracking of the hub package: [Session] and [SessionFlusher]

    A shallow embedding of [packages/hub/src/session.ts] together with the
    types of [packages/types/src/session.ts], and the properties of the two
    classes that the specification states. The later parts add the interval
    timer of the flusher, [init] and the session wrapper of
    [packages/node/src/sdk.ts] and the transport of
    [packages/node/src/transports/https.ts], with further properties of the
    code.

    Conventions of the embedding.
    - A JavaScript number that the code uses as a time value, a counter or a
      duration is an integer of [Z]; the model covers the integers that a
      double represents exactly and does not cover [NaN] and the infinities.
    - An optional field of a TypeScript interface is an [option]; a field
      that the code itself tests with [typeof] against several types (the
      [did] of a session and the user fields it is derived from) is a
      dynamic value of [JsPrim].
    - The clock, the time zone, the id generator, the hub (client options and
      request session of the scope), the logger and the promise jobs are the
      fields of a [World] that every method threads through; a method is a
      computation over a [Heap] holding its [this] object and the world, and
      completes normally or throws. *)

From Stdlib Require Import ZArith List String Ascii Bool Lia Permutation Sorted.
From Stdlib Require Import DecimalString.
Import ListNotations.
Open Scope string_scope.
Open Scope Z_scope.

(* ===================================================================== *)
(** * JavaScript values and coercions used by the code                    *)
(* ===================================================================== *)

(** Dynamic primitive values. *)
Inductive JsPrim : Type :=
| PUndefined
| PNull
| PBool (b : bool)
| PNum (n : Z)
| PStr (s : string).

(** [ToBoolean] on a string: only the empty string is falsy. *)
Definition truthyString (s : string) : bool :=
  match s with
  | EmptyString => false
  | String _ _ => true
  end.

(** [ToBoolean] on an optional string ([undefined] is falsy). *)
Definition truthyOptString (o : option string) : bool :=
  match o with
  | Some s => truthyString s
  | None => false
  end.

(** [ToBoolean] on an optional number: [undefined] and [0] are falsy. *)
Definition truthyOptNum (o : option Z) : bool :=
  match o with
  | Some n => negb (n =? 0)
  | None => false
  end.

(** [ToBoolean] on a dynamic primitive. *)
Definition truthy (v : JsPrim) : bool :=
  match v with
  | PUndefined => false
  | PNull => false
  | PBool b => b
  | PNum n => negb (n =? 0)
  | PStr s => truthyString s
  end.

(** [a || b]: the left operand when it is truthy, else the right one. *)
Definition jsOr (a b : JsPrim) : JsPrim := if truthy a then a else b.

(** The double nearest to the integer [x >= 0], with ties to the even
    significand of 53 bits: [x] itself up to 2^53. Beyond the largest
    double the language has [Infinity], which the model does not cover. *)
Definition roundToDouble (x : Z) : Z :=
  let e := Z.log2 x - 52 in
  if e <=? 0 then x
  else
    let q := Z.shiftr x e in
    let r := x - Z.shiftl q e in
    let half := Z.shiftl 1 (e - 1) in
    Z.shiftl (if (half <? r) || ((r =? half) && Z.odd q) then q + 1 else q) e.

(** The digits [s] and the exponent [e] of [Number::toString] for the
    double [m >= 1]: [s * 10^e] reads back as [m], [s] has as few digits as
    possible, and of two such [s] the one nearer to [m] is taken, the even
    one when they are as near. The search goes down from an exponent [e]
    at which [10^e] is beyond [m]; at each exponent only the two multiples
    of [10^e] around [m] can read back as [m]. *)
Fixpoint shortestDigits (fuel : nat) (e : Z) (m : Z) : Z * Z :=
  match fuel with
  | O => (m, 0)
  | S fuel' =>
      let p := 10 ^ e in
      let lo := m / p in
      let hi := lo + 1 in
      let okLo := (0 <? lo) && (roundToDouble (lo * p) =? m) in
      let okHi := roundToDouble (hi * p) =? m in
      if okLo && okHi then
        if m - lo * p <? hi * p - m then (lo, e)
        else if hi * p - m <? m - lo * p then (hi, e)
        else if Z.even lo then (lo, e) else (hi, e)
      else if okLo then (lo, e)
      else if okHi then (hi, e)
      else shortestDigits fuel' (e - 1) m
  end.

Fixpoint zeros (n : nat) : string :=
  match n with
  | O => EmptyString
  | S n' => String "0" (zeros n')
  end.

(** [Number::toString] on a positive integer [m]: with [k] digits in [s]
    and [n = k + e], the digits followed by [e] zeros when [n <= 21], and
    else the first digit, a point before the others when there are others,
    [e+] and the decimal numeral of [n - 1]. *)
Definition positiveToString (m : Z) : string :=
  let start := Z.log2 m / 3 + 1 in
  let (s, e) := shortestDigits (S (Z.to_nat start)) start m in
  let digits := NilZero.string_of_int (Z.to_int s) in
  let n := Z.of_nat (String.length digits) + e in
  if n <=? 21 then digits ++ zeros (Z.to_nat e)
  else
    match digits with
    | String d EmptyString =>
        String d ("e+" ++ NilZero.string_of_int (Z.to_int (n - 1)))
    | String d rest =>
        String d ("." ++ rest ++ "e+" ++ NilZero.string_of_int (Z.to_int (n - 1)))
    | EmptyString => EmptyString
    end.

(** [Number::toString] on an integer that is a double: the decimal
    numeral up to 2^53 in absolute value, the shortest digits that read back
    as the number beyond, in exponent notation from 10^21 on. *)
Definition NumberToString (n : Z) : string :=
  if n =? 0 then "0"
  else if n <? 0 then "-" ++ positiveToString (- n)
  else positiveToString n.

(** [ToString], as a template literal applies it. *)
Definition ToString (v : JsPrim) : string :=
  match v with
  | PUndefined => "undefined"
  | PNull => "null"
  | PBool true => "true"
  | PBool false => "false"
  | PNum n => NumberToString n
  | PStr s => s
  end.

(** The [typeof v === 'number' || typeof v === 'string'] test. *)
Definition isNumberOrString (v : JsPrim) : bool :=
  match v with
  | PNum _ | PStr _ => true
  | _ => false
  end.

(** [w] digits of [n] in base [base], most significant first. *)
Fixpoint digitsOf (base : Z) (w : nat) (n : Z) (acc : string) : string :=
  match w with
  | O => acc
  | S w' =>
      let d := Z.to_nat (n mod base) in
      let c := if Nat.ltb d 10 then ascii_of_nat (48 + d) else ascii_of_nat (87 + d) in
      digitsOf base w' (n / base) (String c acc)
  end.

(* ===================================================================== *)
(** * The [Date] built-in, as far as the code uses it                     *)
(* ===================================================================== *)

(** The functions on time values follow their definitions in ECMA-262
    ([Day], [HourFromTime], [MakeTime], [MakeDate], ...). The local time
    zone is a constant offset [tza] in milliseconds. A result is not clipped
    to the range of [Date] where it is computed: a time value beyond the
    range shows when it is formatted, where [toISOString] throws. *)
Module JSDate.

Definition msPerSecond : Z := 1000.
Definition msPerMinute : Z := 60000.
Definition msPerHour : Z := 3600000.
Definition msPerDay : Z := 86400000.

(** A time value is valid between -8.64e15 and 8.64e15 milliseconds. *)
Definition maxTime : Z := 8640000000000000.

Definition validTime (t : Z) : bool := (- maxTime <=? t) && (t <=? maxTime).

Definition Day (t : Z) : Z := t / msPerDay.
Definition TimeWithinDay (t : Z) : Z := t mod msPerDay.
Definition HourFromTime (t : Z) : Z := (t / msPerHour) mod 24.
Definition MinFromTime (t : Z) : Z := (t / msPerMinute) mod 60.
Definition SecFromTime (t : Z) : Z := (t / msPerSecond) mod 60.
Definition msFromTime (t : Z) : Z := t mod msPerSecond.

Definition MakeTime (hour min sec ms : Z) : Z :=
  hour * msPerHour + min * msPerMinute + sec * msPerSecond + ms.

Definition MakeDate (day time : Z) : Z := day * msPerDay + time.

(** The time zone of the host, as the language sees it: the offset of
    local time from UTC, in milliseconds, at a time value ([LocalTZA(t,
    true)]) and at a local time ([LocalTZA(t, false)]). In a zone with
    daylight saving time the offset depends on the time; a local time that
    the clocks show twice, or never, gets the offset from before the
    change. *)
Record TimeZone : Type := {
  offsetAtUTC : Z -> Z;
  offsetAtLocal : Z -> Z
}.

(** A zone that is always [tza] milliseconds from UTC. *)
Definition fixedZone (tza : Z) : TimeZone :=
  {| offsetAtUTC := fun _ => tza; offsetAtLocal := fun _ => tza |}.

(** Local time and back. *)
Definition LocalTime (tz : TimeZone) (t : Z) : Z := t + offsetAtUTC tz t.
Definition UTC (tz : TimeZone) (t : Z) : Z := t - offsetAtLocal tz t.

(** [d.setMinutes(min, sec, ms)] on a date of time value [tv]: the hour of
    the local day is kept, the three smaller fields are replaced. *)
Definition setMinutes (tz : TimeZone) (tv min sec ms : Z) : Z :=
  let t := LocalTime tz tv in
  UTC tz (MakeDate (Day t) (MakeTime (HourFromTime t) min sec ms)).

(** [d.setSeconds(sec, ms)]: hour and minute are kept. *)
Definition setSeconds (tz : TimeZone) (tv sec ms : Z) : Z :=
  let t := LocalTime tz tv in
  UTC tz (MakeDate (Day t) (MakeTime (HourFromTime t) (MinFromTime t) sec ms)).

(** Year, month (1 to 12) and day of the month of a day number counted
    from 1970-01-01, in the proleptic Gregorian calendar. *)
Definition civilFromDays (days : Z) : Z * Z * Z :=
  let z := days + 719468 in
  let era := z / 146097 in
  let doe := z - era * 146097 in
  let yoe := (doe - doe / 1460 + doe / 36524 - doe / 146096) / 365 in
  let doy := doe - (365 * yoe + yoe / 4 - yoe / 100) in
  let mp := (5 * doy + 2) / 153 in
  let d := doy - (153 * mp + 2) / 5 + 1 in
  let m := if mp <? 10 then mp + 3 else mp - 9 in
  let y := yoe + era * 400 + (if m <=? 2 then 1 else 0) in
  (y, m, d).

Definition YearFromTime (t : Z) : Z := fst (fst (civilFromDays (Day t))).
Definition MonthFromTime (t : Z) : Z := snd (fst (civilFromDays (Day t))).
Definition DateFromTime (t : Z) : Z := snd (civilFromDays (Day t)).

(** Four digits for the years 0 to 9999, a sign and six digits otherwise. *)
Definition yearString (y : Z) : string :=
  if (0 <=? y) && (y <=? 9999) then digitsOf 10 4 y EmptyString
  else ((if y <? 0 then "-" else "+") ++ digitsOf 10 6 (Z.abs y) EmptyString).

Definition isoFormat (t : Z) : string :=
  yearString (YearFromTime t) ++ "-" ++ digitsOf 10 2 (MonthFromTime t) EmptyString
    ++ "-" ++ digitsOf 10 2 (DateFromTime t) EmptyString
    ++ "T" ++ digitsOf 10 2 (HourFromTime t) EmptyString
    ++ ":" ++ digitsOf 10 2 (MinFromTime t) EmptyString
    ++ ":" ++ digitsOf 10 2 (SecFromTime t) EmptyString
    ++ "." ++ digitsOf 10 3 (msFromTime t) EmptyString ++ "Z".

(** [new Date(t).toISOString()]: [None] stands for the [RangeError] that
    an invalid date raises. *)
Definition toISOString (t : Z) : option string :=
  if validTime t then Some (isoFormat t) else None.

End JSDate.

(* ===================================================================== *)
(** * Computations: state, and normal or abrupt completion                *)
(* ===================================================================== *)

(** What a [throw] carries. *)
Inductive JsError : Type :=
| RangeError (msg : string)
| Thrown (e : string).

Inductive Completion (A : Type) : Type :=
| Normal (a : A)
| Throw (e : JsError).

Arguments Normal {A} a.
Arguments Throw {A} e.

(** A computation over a state [St]: it ends with a value or an exception,
    and the mutations made before an exception stay. *)
Definition M (St A : Type) : Type := St -> Completion A * St.

Definition ret {St A : Type} (a : A) : M St A := fun s => (Normal a, s).

Definition bind {St A B : Type} (m : M St A) (k : A -> M St B) : M St B :=
  fun s =>
    match m s with
    | (Normal a, s') => k a s'
    | (Throw e, s') => (Throw e, s')
    end.

Definition throw {St A : Type} (e : JsError) : M St A := fun s => (Throw e, s).

Definition gets {St A : Type} (f : St -> A) : M St A := fun s => (Normal (f s), s).

Definition modify {St : Type} (f : St -> St) : M St unit := fun s => (Normal tt, f s).

Definition when {St : Type} (b : bool) (m : M St unit) : M St unit :=
  if b then m else ret tt.

Declare Scope js_scope.
Delimit Scope js_scope with js.
Notation "x <- m ;; k" := (bind m (fun x => k))
  (at level 61, m at next level, right associativity) : js_scope.
Notation "m ;; k" := (bind m (fun _ => k))
  (at level 61, right associativity) : js_scope.
Open Scope js_scope.

(* ===================================================================== *)
(** * Types of [packages/types/src/session.ts]                            *)
(* ===================================================================== *)

Inductive SessionStatus : Type := Ok | Exited | Crashed | Abnormal.

Inductive SessionMode : Type := Application | Request.

(** The string of each enum member. *)
Definition statusString (s : SessionStatus) : string :=
  match s with
  | Ok => "ok"
  | Exited => "exited"
  | Crashed => "crashed"
  | Abnormal => "abnormal"
  end.

Definition modeString (m : SessionMode) : string :=
  match m with
  | Application => "application"
  | Request => "request"
  end.

Definition SessionStatus_eqb (a b : SessionStatus) : bool :=
  match a, b with
  | Ok, Ok | Exited, Exited | Crashed, Crashed | Abnormal, Abnormal => true
  | _, _ => false
  end.

(** The fields of [User] that [Session.update] reads. *)
Record User : Type := {
  id : JsPrim;
  email : JsPrim;
  username : JsPrim;
  ip_address : option string
}.

Record SessionContext : Type := {
  c_sid : option string;
  c_did : JsPrim;
  c_init : option bool;
  c_timestamp : option Z;
  c_started : option Z;
  c_duration : option Z;
  c_status : option SessionStatus;
  c_release : option string;
  c_environment : option string;
  c_userAgent : option string;
  c_ipAddress : option string;
  c_errors : option Z;
  c_user : option User;
  c_sessionMode : option SessionMode
}.

(** The context [{}]. *)
Definition emptyContext : SessionContext :=
  {| c_sid := None; c_did := PUndefined; c_init := None; c_timestamp := None;
     c_started := None; c_duration := None; c_status := None; c_release := None;
     c_environment := None; c_userAgent := None; c_ipAddress := None;
     c_errors := None; c_user := None; c_sessionMode := None |}.

(** The context [{ status }]. *)
Definition statusContext (st : SessionStatus) : SessionContext :=
  {| c_sid := None; c_did := PUndefined; c_init := None; c_timestamp := None;
     c_started := None; c_duration := None; c_status := Some st; c_release := None;
     c_environment := None; c_userAgent := None; c_ipAddress := None;
     c_errors := None; c_user := None; c_sessionMode := None |}.

Record AggregationCounts : Type := {
  ac_started : option string;
  ac_errored : option Z;
  ac_exited : option Z;
  ac_crashed : option Z;
  ac_abnormal : option Z
}.

(** The object [{}] that a new bucket starts from. *)
Definition emptyCounts : AggregationCounts :=
  {| ac_started := None; ac_errored := None; ac_exited := None;
     ac_crashed := None; ac_abnormal := None |}.

Definition set_ac_started (v : option string) (r : AggregationCounts) : AggregationCounts :=
  {| ac_started := v; ac_errored := ac_errored r; ac_exited := ac_exited r;
     ac_crashed := ac_crashed r; ac_abnormal := ac_abnormal r |}.

Definition set_ac_errored (v : option Z) (r : AggregationCounts) : AggregationCounts :=
  {| ac_started := ac_started r; ac_errored := v; ac_exited := ac_exited r;
     ac_crashed := ac_crashed r; ac_abnormal := ac_abnormal r |}.

Definition set_ac_exited (v : option Z) (r : AggregationCounts) : AggregationCounts :=
  {| ac_started := ac_started r; ac_errored := ac_errored r; ac_exited := v;
     ac_crashed := ac_crashed r; ac_abnormal := ac_abnormal r |}.

(** [{ environment?, release? }], the [attrs] of a payload. *)
Record SessionAttrs : Type := {
  attrs_release : option string;
  attrs_environment : option string
}.

(** An entry of [aggregates] is what indexing the table returned: a bucket,
    or [undefined] ([None]) for a key with no property. *)
Record AggregatedSessions : Type := {
  attrs : option SessionAttrs;
  aggregates : list (option AggregationCounts)
}.

(* ===================================================================== *)
(** * The environment of the two classes                                  *)
(* ===================================================================== *)

(** The options of the active client that the flusher reads. *)
Record Options : Type := {
  opt_release : option string;
  opt_environment : option string
}.

(** The request session held by the scope; the flusher reads its status and
    writes [undefined] into it. *)
Record RequestSession : Type := {
  rs_status : option string
}.

(** The state a promise ends in. *)
Inductive PromiseState : Type :=
| Fulfilled
| Rejected (reason : string)
| Pending.

(** What calling a method of the transport does: it returns a promise, or it
    throws before returning one (as [HTTPSTransport.sendSession] does when
    it has no module). *)
Inductive CallResult : Type :=
| Returns (p : PromiseState)
| Throws (e : string).

(** The [Transport] given to the flusher; [sendSessions] is an optional
    method of the interface. *)
Record Transport : Type := {
  transport_sendSessions : option (AggregatedSessions -> CallResult)
}.

(** What the outside observes. *)
Inductive Event : Type :=
| LoggerWarn (msg : string)
| LoggerError (msg : string)
| TransportSendSessions (payload : AggregatedSessions).

Record World : Type := {
  (** the successive readings of the system clock and how many were taken *)
  clock : nat -> Z;
  ticks : nat;
  (** the time zone of the host *)
  LocalTZA : JSDate.TimeZone;
  (** the randomness behind [uuid4] and how many ids were drawn *)
  entropy : nat -> N;
  draws : nat;
  (** [getCurrentHub().getClient()], with its options *)
  client : option Options;
  (** [getCurrentHub().getScope()], with its request session *)
  scope : option (option RequestSession);
  (** logger lines and transport calls, oldest first *)
  output : list Event;
  (** promises on which [then(null, onRejected)] was registered by
      [sendSessions], whose handler has not run yet *)
  jobs : list PromiseState
}.

Definition set_ticks (v : nat) (w : World) : World :=
  {| clock := clock w; ticks := v; LocalTZA := LocalTZA w; entropy := entropy w;
     draws := draws w; client := client w; scope := scope w; output := output w;
     jobs := jobs w |}.

Definition set_draws (v : nat) (w : World) : World :=
  {| clock := clock w; ticks := ticks w; LocalTZA := LocalTZA w; entropy := entropy w;
     draws := v; client := client w; scope := scope w; output := output w;
     jobs := jobs w |}.

Definition set_scope (v : option (option RequestSession)) (w : World) : World :=
  {| clock := clock w; ticks := ticks w; LocalTZA := LocalTZA w; entropy := entropy w;
     draws := draws w; client := client w; scope := v; output := output w;
     jobs := jobs w |}.

Definition set_output (v : list Event) (w : World) : World :=
  {| clock := clock w; ticks := ticks w; LocalTZA := LocalTZA w; entropy := entropy w;
     draws := draws w; client := client w; scope := scope w; output := v;
     jobs := jobs w |}.

Definition set_jobs (v : list PromiseState) (w : World) : World :=
  {| clock := clock w; ticks := ticks w; LocalTZA := LocalTZA w; entropy := entropy w;
     draws := draws w; client := client w; scope := scope w; output := output w;
     jobs := v |}.

(** [Date.now()], and the time value of [new Date()]: the next reading. *)
Definition readClock (w : World) : Z * World :=
  (clock w (ticks w), set_ticks (S (ticks w)) w).

(** Modelled from the spec: [uuid4] of the utils package is not among the
    sources; the spec calls a fresh session id "a 32-character unique id".
    The id is the next value of the world's entropy written with 32
    hexadecimal digits. *)
Definition uuid4_of (seed : N) : string := digitsOf 16 32 (Z.of_N seed) EmptyString.

Definition drawUuid (w : World) : string * World :=
  (uuid4_of (entropy w (draws w)), set_draws (S (draws w)) w).

(** The heap of a method call: the receiver and the world. *)
Record Heap (T : Type) : Type := mkHeap {
  this : T;
  world : World
}.

Arguments mkHeap {T} this world.
Arguments this {T} h.
Arguments world {T} h.

Section HeapOps.
Context {T : Type}.

Definition getThis {A : Type} (f : T -> A) : M (Heap T) A :=
  gets (fun h => f (this h)).

Definition setThis (f : T -> T) : M (Heap T) unit :=
  modify (fun h => mkHeap (f (this h)) (world h)).

Definition getWorld {A : Type} (f : World -> A) : M (Heap T) A :=
  gets (fun h => f (world h)).

Definition setWorld (f : World -> World) : M (Heap T) unit :=
  modify (fun h => mkHeap (this h) (f (world h))).

Definition liftW {A : Type} (f : World -> A * World) : M (Heap T) A :=
  fun h => let (a, w) := f (world h) in (Normal a, mkHeap (this h) w).

Definition Date_now : M (Heap T) Z := liftW readClock.

Definition uuid4 : M (Heap T) string := liftW drawUuid.

Definition emit (e : Event) : M (Heap T) unit :=
  setWorld (fun w => set_output (output w ++ [e])%list w).

Definition logger_warn (msg : string) : M (Heap T) unit := emit (LoggerWarn msg).

Definition logger_error (msg : string) : M (Heap T) unit := emit (LoggerError msg).

End HeapOps.

(* ===================================================================== *)
(** * [class Session]                                                     *)
(* ===================================================================== *)

(** The fields, in the order of their declaration. *)
Record Session : Type := {
  userAgent : option string;
  errors : Z;
  release : option string;
  sid : string;
  did : JsPrim;
  timestamp : Z;
  started : Z;
  duration : Z;
  status : SessionStatus;
  sessionMode : SessionMode;
  environment : option string;
  ipAddress : option string;
  init : bool
}.

Definition set_userAgent (v : option string) (r : Session) : Session :=
  {| userAgent := v; errors := errors r; release := release r; sid := sid r;
     did := did r; timestamp := timestamp r; started := started r;
     duration := duration r; status := status r; sessionMode := sessionMode r;
     environment := environment r; ipAddress := ipAddress r; init := init r |}.

Definition set_errors (v : Z) (r : Session) : Session :=
  {| userAgent := userAgent r; errors := v; release := release r; sid := sid r;
     did := did r; timestamp := timestamp r; started := started r;
     duration := duration r; status := status r; sessionMode := sessionMode r;
     environment := environment r; ipAddress := ipAddress r; init := init r |}.

Definition set_release (v : option string) (r : Session) : Session :=
  {| userAgent := userAgent r; errors := errors r; release := v; sid := sid r;
     did := did r; timestamp := timestamp r; started := started r;
     duration := duration r; status := status r; sessionMode := sessionMode r;
     environment := environment r; ipAddress := ipAddress r; init := init r |}.

Definition set_sid (v : string) (r : Session) : Session :=
  {| userAgent := userAgent r; errors := errors r; release := release r; sid := v;
     did := did r; timestamp := timestamp r; started := started r;
     duration := duration r; status := status r; sessionMode := sessionMode r;
     environment := environment r; ipAddress := ipAddress r; init := init r |}.

Definition set_did (v : JsPrim) (r : Session) : Session :=
  {| userAgent := userAgent r; errors := errors r; release := release r; sid := sid r;
     did := v; timestamp := timestamp r; started := started r; duration := duration r;
     status := status r; sessionMode := sessionMode r; environment := environment r;
     ipAddress := ipAddress r; init := init r |}.

Definition set_timestamp (v : Z) (r : Session) : Session :=
  {| userAgent := userAgent r; errors := errors r; release := release r; sid := sid r;
     did := did r; timestamp := v; started := started r; duration := duration r;
     status := status r; sessionMode := sessionMode r; environment := environment r;
     ipAddress := ipAddress r; init := init r |}.

Definition set_started (v : Z) (r : Session) : Session :=
  {| userAgent := userAgent r; errors := errors r; release := release r; sid := sid r;
     did := did r; timestamp := timestamp r; started := v; duration := duration r;
     status := status r; sessionMode := sessionMode r; environment := environment r;
     ipAddress := ipAddress r; init := init r |}.

Definition set_duration (v : Z) (r : Session) : Session :=
  {| userAgent := userAgent r; errors := errors r; release := release r; sid := sid r;
     did := did r; timestamp := timestamp r; started := started r; duration := v;
     status := status r; sessionMode := sessionMode r; environment := environment r;
     ipAddress := ipAddress r; init := init r |}.

Definition set_status (v : SessionStatus) (r : Session) : Session :=
  {| userAgent := userAgent r; errors := errors r; release := release r; sid := sid r;
     did := did r; timestamp := timestamp r; started := started r;
     duration := duration r; status := v; sessionMode := sessionMode r;
     environment := environment r; ipAddress := ipAddress r; init := init r |}.

Definition set_sessionMode (v : SessionMode) (r : Session) : Session :=
  {| userAgent := userAgent r; errors := errors r; release := release r; sid := sid r;
     did := did r; timestamp := timestamp r; started := started r;
     duration := duration r; status := status r; sessionMode := v;
     environment := environment r; ipAddress := ipAddress r; init := init r |}.

Definition set_environment (v : option string) (r : Session) : Session :=
  {| userAgent := userAgent r; errors := errors r; release := release r; sid := sid r;
     did := did r; timestamp := timestamp r; started := started r;
     duration := duration r; status := status r; sessionMode := sessionMode r;
     environment := v; ipAddress := ipAddress r; init := init r |}.

Definition set_ipAddress (v : option string) (r : Session) : Session :=
  {| userAgent := userAgent r; errors := errors r; release := release r; sid := sid r;
     did := did r; timestamp := timestamp r; started := started r;
     duration := duration r; status := status r; sessionMode := sessionMode r;
     environment := environment r; ipAddress := v; init := init r |}.

Definition set_init (v : bool) (r : Session) : Session :=
  {| userAgent := userAgent r; errors := errors r; release := release r; sid := sid r;
     did := did r; timestamp := timestamp r; started := started r;
     duration := duration r; status := status r; sessionMode := sessionMode r;
     environment := environment r; ipAddress := ipAddress r; init := v |}.

(** JSON-like values, for the object that [toJSON] returns. *)
#[warnings="-register-all"]
Inductive JsValue : Type :=
| JUndefined
| JBool (b : bool)
| JNum (n : Z)
| JStr (s : string)
| JObject (props : list (string * JsValue)).

(** Modelled from the spec: [dropUndefinedKeys] of the utils package is not
    among the sources; by the spec, "all undefined-valued keys [are] dropped
    recursively (including within the nested attrs object)". A key whose
    value is [undefined] is left out, the other values are treated in turn,
    and a value that is not an object is returned as it is. *)
Fixpoint dropUndefinedKeys (v : JsValue) : JsValue :=
  match v with
  | JObject props =>
      JObject
        ((fix go (ps : list (string * JsValue)) : list (string * JsValue) :=
            match ps with
            | [] => []
            | (k, JUndefined) :: rest => go rest
            | (k, x) :: rest => (k, dropUndefinedKeys x) :: go rest
            end) props)
  | _ => v
  end.

(** The value of an own property, [None] when the object has no such key. *)
Fixpoint lookupProp (k : string) (props : list (string * JsValue)) : option JsValue :=
  match props with
  | [] => None
  | (k', v) :: rest => if String.eqb k k' then Some v else lookupProp k rest
  end.

Definition getProp (k : string) (v : JsValue) : option JsValue :=
  match v with
  | JObject props => lookupProp k props
  | _ => None
  end.

(** An optional string as the value of a property. *)
Definition ofOptString (o : option string) : JsValue :=
  match o with
  | Some s => JStr s
  | None => JUndefined
  end.

Module Session.

(** The field initializers of the class, run in the order of declaration:
    [sid = uuid4()], then [timestamp = Date.now()], then
    [started = Date.now()]. *)
Definition fieldInitializers (w : World) : Session * World :=
  let (sid0, w1) := drawUuid w in
  let (timestamp0, w2) := readClock w1 in
  let (started0, w3) := readClock w2 in
  ({| userAgent := None; errors := 0; release := None; sid := sid0;
      did := PUndefined; timestamp := timestamp0; started := started0;
      duration := 0; status := Ok; sessionMode := Application;
      environment := None; ipAddress := None; init := true |}, w3).

(** [update(context: SessionContext = {}): void] *)
Definition update (context : SessionContext) : M (Heap Session) unit :=
  match c_user context with
  | Some user =>
      when (truthyOptString (ip_address user))
        (setThis (set_ipAddress (ip_address user))) ;;
      when (negb (truthy (c_did context)))
        (setThis (set_did (jsOr (jsOr (id user) (email user)) (username user))))
  | None => ret tt
  end ;;
  now <- (if truthyOptNum (c_timestamp context)
          then ret (match c_timestamp context with Some t => t | None => 0 end)
          else Date_now) ;;
  setThis (set_timestamp now) ;;
  match c_sid context with
  | Some s =>
      when (truthyString s)
        (if Nat.eqb (String.length s) 32
         then setThis (set_sid s)
         else (fresh <- uuid4 ;; setThis (set_sid fresh)))
  | None => ret tt
  end ;;
  match c_init context with
  | Some b => setThis (set_init b)
  | None => ret tt
  end ;;
  when (truthy (c_did context))
    (setThis (set_did (PStr (ToString (c_did context))))) ;;
  match c_started context with
  | Some n => setThis (set_started n)
  | None => ret tt
  end ;;
  match c_duration context with
  | Some n => setThis (set_duration n)
  | None => setThis (fun s => set_duration (timestamp s - started s) s)
  end ;;
  when (truthyOptString (c_release context))
    (setThis (set_release (c_release context))) ;;
  when (truthyOptString (c_environment context))
    (setThis (set_environment (c_environment context))) ;;
  when (truthyOptString (c_ipAddress context))
    (setThis (set_ipAddress (c_ipAddress context))) ;;
  when (truthyOptString (c_userAgent context))
    (setThis (set_userAgent (c_userAgent context))) ;;
  match c_errors context with
  | Some n => setThis (set_errors n)
  | None => ret tt
  end ;;
  match c_status context with
  | Some st => setThis (set_status st)
  | None => ret tt
  end ;;
  match c_sessionMode context with
  | Some m => setThis (set_sessionMode m)
  | None => ret tt
  end.

(** [constructor(context?)]: the initializers, then [update(context)] when
    a context is given. *)
Definition new (context : option SessionContext) (w : World)
  : Completion unit * Heap Session :=
  let (s, w') := fieldInitializers w in
  match context with
  | Some c => update c (mkHeap s w')
  | None => (Normal tt, mkHeap s w')
  end.

(** [close(status?)]; every member of the enum is a non-empty string, so a
    given status is truthy. *)
Definition close (st : option SessionStatus) : M (Heap Session) unit :=
  match st with
  | Some st' => update (statusContext st')
  | None =>
      cur <- getThis status ;;
      if SessionStatus_eqb cur Ok
      then update (statusContext Exited)
      else update emptyContext
  end.

(** [toJSON()]. The two [toISOString] calls throw on an invalid date. *)
Definition toJSON (s : Session) : Completion JsValue :=
  match JSDate.toISOString (started s) with
  | None => Throw (RangeError "Invalid time value")
  | Some startedIso =>
      match JSDate.toISOString (timestamp s) with
      | None => Throw (RangeError "Invalid time value")
      | Some timestampIso =>
          Normal
            (dropUndefinedKeys
               (JObject
                  [ ("sid", JStr (sid s));
                    ("init", JBool (init s));
                    ("started", JStr startedIso);
                    ("timestamp", JStr timestampIso);
                    ("status", JStr (statusString (status s)));
                    ("session_mode", JStr (modeString (sessionMode s)));
                    ("errors", JNum (errors s));
                    ("did", if isNumberOrString (did s)
                            then JStr (ToString (did s)) else JUndefined);
                    ("duration", JNum (duration s));
                    ("attrs",
                      dropUndefinedKeys
                        (JObject
                           [ ("release", ofOptString (release s));
                             ("environment", ofOptString (environment s));
                             ("ip_address", ofOptString (ipAddress s));
                             ("user_agent", ofOptString (userAgent s)) ])) ]))
      end
  end.

End Session.

(* ===================================================================== *)
(** * Objects used as tables with number keys                             *)
(* ===================================================================== *)

(** [{ [key: number]: V }]. A number key [k] that is a time value, an
    integer of at most 8640000000000000 in absolute value, names the
    property whose key is the decimal numeral of [k], and [parseInt] of that
    numeral is [k] again, so the properties are kept under their numbers. The list holds the own
    properties in the order of their creation; [Object.keys] enumerates
    them as ECMA-262 orders the own property keys of an ordinary object. *)
Module JsObject.

Definition t (V : Type) : Type := list (Z * V).

Definition empty {V : Type} : t V := [].

(** [o[k]] *)
Fixpoint get {V : Type} (k : Z) (o : t V) : option V :=
  match o with
  | [] => None
  | (k', v) :: rest => if k =? k' then Some v else get k rest
  end.

(** [o[k] = v]: an existing property keeps its place, a new one is
    created last. *)
Fixpoint set {V : Type} (k : Z) (v : V) (o : t V) : t V :=
  match o with
  | [] => [(k, v)]
  | (k', v') :: rest =>
      if k =? k' then (k, v) :: rest else (k', v') :: set k v rest
  end.

(** A write through a reference to the object stored at [k]. *)
Definition alter {V : Type} (f : V -> V) (k : Z) (o : t V) : t V :=
  match get k o with
  | Some v => set k (f v) o
  | None => o
  end.

(** A key is an array index when it is an integer from 0 to 2^32 - 2. *)
Definition isArrayIndex (k : Z) : bool := (0 <=? k) && (k <? 2 ^ 32 - 1).

Fixpoint insertAsc {V : Type} (e : Z * V) (l : list (Z * V)) : list (Z * V) :=
  match l with
  | [] => [e]
  | e' :: rest =>
      if fst e <=? fst e' then e :: l else e' :: insertAsc e rest
  end.

Definition sortAsc {V : Type} (l : list (Z * V)) : list (Z * V) :=
  fold_right insertAsc [] l.

(** The own properties in the order in which the language enumerates
    them: the array indices in ascending order, then the other keys in the
    order of their creation. *)
Definition ownProperties {V : Type} (o : t V) : list (Z * V) :=
  (sortAsc (filter (fun e => isArrayIndex (fst e)) o)
     ++ filter (fun e => negb (isArrayIndex (fst e))) o)%list.

(** [Object.keys(o)] *)
Definition keys {V : Type} (o : t V) : list Z := map fst (ownProperties o).

End JsObject.

(* ===================================================================== *)
(** * [class SessionFlusher]                                              *)
(* ===================================================================== *)

(** The fields that the methods read and write. The interval timer that
    the constructor arms and [close] clears is kept beside them, in
    [Scheduled] further down. *)
Record SessionFlusher : Type := {
  _pendingAggregates : JsObject.t AggregationCounts;
  _sessionAttrs : option SessionAttrs;
  _transport : Transport;
  flushTimeout : Z
}.

Definition set_pendingAggregates (v : JsObject.t AggregationCounts) (f : SessionFlusher)
  : SessionFlusher :=
  {| _pendingAggregates := v; _sessionAttrs := _sessionAttrs f;
     _transport := _transport f; flushTimeout := flushTimeout f |}.

Definition set_sessionAttrs (v : option SessionAttrs) (f : SessionFlusher)
  : SessionFlusher :=
  {| _pendingAggregates := _pendingAggregates f; _sessionAttrs := v;
     _transport := _transport f; flushTimeout := flushTimeout f |}.

(** [c !== undefined ? c + 1 : 1] *)
Definition increment (c : option Z) : option Z :=
  match c with
  | Some n => Some (n + 1)
  | None => Some 1
  end.

(** The handler given to [then]: [reason => logger.error(...)], run when the
    promise is rejected. One turn of the job queue runs the handlers of the
    promises that are settled and keeps the pending ones. *)
Fixpoint runJobs (ps : list PromiseState) (w : World) : World :=
  match ps with
  | [] => set_jobs [] w
  | Fulfilled :: rest => runJobs rest w
  | Rejected reason :: rest =>
      runJobs rest
        (set_output
           (output w ++ [LoggerError ("Error while sending session: " ++ reason)])%list w)
  | Pending :: rest =>
      let w' := runJobs rest w in set_jobs (Pending :: jobs w') w'
  end.

Definition eventLoopTurn (w : World) : World := runJobs (jobs w) w.

Module SessionFlusher.

(** The state the constructor leaves the fields in. *)
Definition new (transport : Transport) (timeout : Z) : SessionFlusher :=
  {| _pendingAggregates := JsObject.empty; _sessionAttrs := None;
     _transport := transport; flushTimeout := timeout |}.

(** [sendSessions(aggregatedSession)] *)
Definition sendSessions (aggregatedSession : AggregatedSessions)
  : M (Heap SessionFlusher) unit :=
  transport <- getThis _transport ;;
  match transport_sendSessions transport with
  | None =>
      logger_warn
        "Dropping session because custom transport doesn't implement sendSession"
  | Some send =>
      emit (TransportSendSessions aggregatedSession) ;;
      match send aggregatedSession with
      | Throws e => throw (Thrown e)
      | Returns promise => setWorld (fun w => set_jobs (jobs w ++ [promise])%list w)
      end
  end.

(** [flush()] *)
Definition flush : M (Heap SessionFlusher) unit :=
  pending <- getThis _pendingAggregates ;;
  if Nat.eqb (List.length (JsObject.keys pending)) 0 then ret tt
  else
    let aggregates :=
      map (fun key => JsObject.get key pending) (JsObject.keys pending) in
    setThis (set_pendingAggregates JsObject.empty) ;;
    sessionAttrs <- getThis _sessionAttrs ;;
    let aggregatedSessions :=
      {| attrs := sessionAttrs; aggregates := aggregates |} in
    setThis (set_sessionAttrs None) ;;
    sendSessions aggregatedSessions.

(** The key that [incrementSessionCount] computes from the reading [now]
    of the clock: [new Date().setMinutes(0, 0, 0)]. *)
Definition sessionStartedTrunc (tz : JSDate.TimeZone) (now : Z) : Z :=
  JSDate.setMinutes tz now 0 0 0.

(** [incrementSessionCount()]. [aggregationCounts] is a reference to the
    object stored in the table, so the writes to it are writes to the
    entry of the table. *)
Definition incrementSessionCount : M (Heap SessionFlusher) unit :=
  sessionAttrs <- getThis _sessionAttrs ;;
  when (match sessionAttrs with Some _ => false | None => true end)
    (client <- getWorld client ;;
     let options :=
       match client with
       | Some o => o
       | None => {| opt_release := None; opt_environment := None |}
       end in
     setThis (set_sessionAttrs
                (Some {| attrs_release := opt_release options;
                         attrs_environment := opt_environment options |}))) ;;
  now <- Date_now ;;
  tz <- getWorld LocalTZA ;;
  let key := sessionStartedTrunc tz now in
  setThis (fun f =>
    set_pendingAggregates
      (JsObject.set key
         (match JsObject.get key (_pendingAggregates f) with
          | Some bucket => bucket
          | None => emptyCounts
          end)
         (_pendingAggregates f)) f) ;;
  bucket <- getThis (fun f => JsObject.get key (_pendingAggregates f)) ;;
  when (negb (truthyOptString
                (match bucket with Some b => ac_started b | None => None end)))
    (match JSDate.toISOString key with
     | Some iso =>
         setThis (fun f =>
           set_pendingAggregates
             (JsObject.alter (set_ac_started (Some iso)) key (_pendingAggregates f)) f)
     | None => throw (RangeError "Invalid time value")
     end) ;;
  requestSession <- getWorld (fun w =>
    match scope w with
    | Some rs => rs
    | None => None
    end) ;;
  match requestSession with
  | Some rs =>
      (if match rs_status rs with
          | Some s => String.eqb s "errored"
          | None => false
          end
       then
         setThis (fun f =>
           set_pendingAggregates
             (JsObject.alter (fun b => set_ac_errored (increment (ac_errored b)) b)
                key (_pendingAggregates f)) f)
       else
         setThis (fun f =>
           set_pendingAggregates
             (JsObject.alter (fun b => set_ac_exited (increment (ac_exited b)) b)
                key (_pendingAggregates f)) f)) ;;
      setWorld (set_scope (Some (Some {| rs_status := None |})))
  | None => ret tt
  end.

End SessionFlusher.

(* ===================================================================== *)
(** * The vocabulary of the statements                                    *)
(* ===================================================================== *)

(** ** Specifications of computations *)

(** [m] run from [s] completes normally, with a value and in a state that
    [Q] holds of. *)
Definition wp {St A : Type} (m : M St A) (Q : A -> St -> Prop) (s : St) : Prop :=
  match m s with
  | (Normal a, s') => Q a s'
  | (Throw _, _) => False
  end.

(** Total correctness: from a state of [P], [m] returns and [Q] holds. *)
Definition triple {St A : Type} (P : St -> Prop) (m : M St A) (Q : A -> St -> Prop)
  : Prop :=
  forall s, P s -> wp m Q s.

(** ** Sessions *)

(** The time that [update] stores: [context.timestamp || Date.now()]. *)
Definition effectiveTimestamp (context : SessionContext) (h0 : Heap Session) : Z :=
  match c_timestamp context with
  | Some t => if t =? 0 then clock (world h0) (ticks (world h0)) else t
  | None => clock (world h0) (ticks (world h0))
  end.

(** Whether [update] reaches the call of [uuid4]. *)
Definition regeneratesSid (context : SessionContext) : bool :=
  match c_sid context with
  | Some s => truthyString s && negb (Nat.eqb (String.length s) 32)
  | None => false
  end.

(** The session that [close()] leaves when it only refreshes the times. *)
Definition refreshed (now : Z) (s : Session) : Session :=
  set_duration (now - started s) (set_timestamp now s).

(** A world and a session to instantiate the statements with: the clock
    starts at 2021-03-16T08:17:42.123Z and advances by a millisecond at each
    reading, local time is UTC. *)
Definition sampleWorld : World :=
  {| clock := fun n => Z.of_nat n + 1615882662123; ticks := 0;
     LocalTZA := JSDate.fixedZone 0;
     entropy := fun n => (N.of_nat n + 48879)%N; draws := 0;
     client := Some {| opt_release := Some "1.0.0"; opt_environment := Some "production" |};
     scope := Some (Some {| rs_status := Some "errored" |});
     output := []; jobs := [] |}.

Definition sampleHeap : Heap Session := snd (Session.new None sampleWorld).

(** A sequence of [update] calls on one session. *)
Fixpoint updates (contexts : list SessionContext) : M (Heap Session) unit :=
  match contexts with
  | [] => ret tt
  | c :: rest => Session.update c ;; updates rest
  end.

(** The calls that change a session. *)
Inductive Op : Type :=
| OpUpdate (context : SessionContext)
| OpClose (st : option SessionStatus).

Definition runOp (o : Op) : M (Heap Session) unit :=
  match o with
  | OpUpdate context => Session.update context
  | OpClose st => Session.close st
  end.

Fixpoint runOps (ops : list Op) : M (Heap Session) unit :=
  match ops with
  | [] => ret tt
  | o :: rest => runOp o ;; runOps rest
  end.

(** The sessions that the constructor and the methods produce; between two
    calls the rest of the program may change the world. *)
Inductive reachable : Heap Session -> Prop :=
| reach_new (context : option SessionContext) (w : World) r h :
    Session.new context w = (r, h) -> reachable h
| reach_op (o : Op) (h : Heap Session) r h' :
    reachable h -> runOp o h = (r, h') -> reachable h'
| reach_world (s : Session) (w w' : World) :
    reachable (mkHeap s w) -> reachable (mkHeap s w').

(** The context [{ sid: '0123456789abcdef0123456789abcdef' }], a [sid] of
    32 characters. *)
Definition wellFormedSidContext : SessionContext :=
  {| c_sid := Some "0123456789abcdef0123456789abcdef"; c_did := PUndefined;
     c_init := None; c_timestamp := None; c_started := None; c_duration := None;
     c_status := None; c_release := None; c_environment := None;
     c_userAgent := None; c_ipAddress := None; c_errors := None; c_user := None;
     c_sessionMode := None |}.

(** The context [{ sid: 'abc' }], a [sid] of three characters. *)
Definition shortSidContext : SessionContext :=
  {| c_sid := Some "abc"; c_did := PUndefined; c_init := None; c_timestamp := None;
     c_started := None; c_duration := None; c_status := None; c_release := None;
     c_environment := None; c_userAgent := None; c_ipAddress := None;
     c_errors := None; c_user := None; c_sessionMode := None |}.

(** The context [{ sid: '' }]. *)
Definition emptySidContext : SessionContext :=
  {| c_sid := Some EmptyString; c_did := PUndefined; c_init := None; c_timestamp := None;
     c_started := None; c_duration := None; c_status := None; c_release := None;
     c_environment := None; c_userAgent := None; c_ipAddress := None;
     c_errors := None; c_user := None; c_sessionMode := None |}.

(** The context [{ user }]. *)
Definition userContext (user : User) : SessionContext :=
  {| c_sid := None; c_did := PUndefined; c_init := None; c_timestamp := None;
     c_started := None; c_duration := None; c_status := None; c_release := None;
     c_environment := None; c_userAgent := None; c_ipAddress := None;
     c_errors := None; c_user := Some user; c_sessionMode := None |}.

(** The user [{ username: '' }]. *)
Definition unnamedUser : User :=
  {| id := PUndefined; email := PUndefined; username := PStr EmptyString;
     ip_address := None |}.

(** The context [{ did: 'user-1' }], and a session updated with it. *)
Definition didContext : SessionContext :=
  {| c_sid := None; c_did := PStr "user-1"; c_init := None; c_timestamp := None;
     c_started := None; c_duration := None; c_status := None; c_release := None;
     c_environment := None; c_userAgent := None; c_ipAddress := None;
     c_errors := None; c_user := None; c_sessionMode := None |}.

Definition identifiedHeap : Heap Session := snd (Session.update didContext sampleHeap).

(** The clock never moves backwards. *)
Definition monotoneClock (w : World) : Prop :=
  forall i j : nat, (i <= j)%nat -> clock w i <= clock w j.

(** The context [{ duration: -5 }]. *)
Definition negativeDurationContext : SessionContext :=
  {| c_sid := None; c_did := PUndefined; c_init := None; c_timestamp := None;
     c_started := None; c_duration := Some (-5); c_status := None; c_release := None;
     c_environment := None; c_userAgent := None; c_ipAddress := None;
     c_errors := None; c_user := None; c_sessionMode := None |}.

(** The context [{ started: 1615882670000 }], a start eight seconds after
    the first reading of the sample clock. *)
Definition laterStartContext : SessionContext :=
  {| c_sid := None; c_did := PUndefined; c_init := None; c_timestamp := None;
     c_started := Some 1615882670000; c_duration := None; c_status := None;
     c_release := None; c_environment := None; c_userAgent := None;
     c_ipAddress := None; c_errors := None; c_user := None; c_sessionMode := None |}.

(** The context [{ timestamp: 1615882000000 }], a timestamp eleven minutes
    before the first reading of the sample clock. *)
Definition earlierTimestampContext : SessionContext :=
  {| c_sid := None; c_did := PUndefined; c_init := None;
     c_timestamp := Some 1615882000000; c_started := None; c_duration := None;
     c_status := None; c_release := None; c_environment := None;
     c_userAgent := None; c_ipAddress := None; c_errors := None; c_user := None;
     c_sessionMode := None |}.

(** The context [{ started: 1615882000000 }], a start eleven minutes before
    the first reading of the sample clock. *)
Definition earlierStartContext : SessionContext :=
  {| c_sid := None; c_did := PUndefined; c_init := None; c_timestamp := None;
     c_started := Some 1615882000000; c_duration := None; c_status := None;
     c_release := None; c_environment := None; c_userAgent := None;
     c_ipAddress := None; c_errors := None; c_user := None; c_sessionMode := None |}.

(** The context [{ timestamp: 1615882700000 }], a timestamp after the
    readings of the sample clock. *)
Definition laterTimestampContext : SessionContext :=
  {| c_sid := None; c_did := PUndefined; c_init := None;
     c_timestamp := Some 1615882700000; c_started := None; c_duration := None;
     c_status := None; c_release := None; c_environment := None;
     c_userAgent := None; c_ipAddress := None; c_errors := None; c_user := None;
     c_sessionMode := None |}.

(** The session that the field initializers make in the world [w], before
    the constructor looks at its context. *)
Definition freshHeap (w : World) : Heap Session := snd (Session.new None w).

(** What the amended claim asks of a context given to the session of [h]:
    a [started] that it supplies is not later than the next reading of the
    clock; a [duration] that it supplies is not negative; and when it
    supplies no [duration], a truthy [timestamp] that it supplies is not
    earlier than the [started] that the session then has, the one of the
    context or else the one it had. *)
Definition inTime (context : SessionContext) (h : Heap Session) : bool :=
  match c_started context with
  | Some s => s <=? clock (world h) (ticks (world h))
  | None => true
  end
  && match c_duration context with
     | Some d => 0 <=? d
     | None =>
         match c_timestamp context with
         | Some t =>
             if t =? 0 then true
             else match c_started context with
                  | Some s => s
                  | None => started (this h)
                  end <=? t
         | None => true
         end
     end.

Definition opInTime (o : Op) (h : Heap Session) : bool :=
  match o with
  | OpUpdate context => inTime context h
  | OpClose _ => true
  end.

(** Every call of the sequence [ops], made one after the other from [h],
    is given such a context. *)
Fixpoint opsInTime (ops : list Op) (h : Heap Session) : Prop :=
  match ops with
  | [] => True
  | o :: rest => opInTime o h = true /\ opsInTime rest (snd (runOp o h))
  end.

(** A context that supplies no [started] and no truthy [timestamp], and no
    negative [duration]. *)
Definition keepsTime (context : SessionContext) : bool :=
  match c_started context with Some _ => false | None => true end
  && negb (truthyOptNum (c_timestamp context))
  && match c_duration context with Some d => 0 <=? d | None => true end.

Definition opKeepsTime (o : Op) : bool :=
  match o with
  | OpUpdate context => keepsTime context
  | OpClose _ => true
  end.

(** The session started no later than any reading of the clock of [w] that
    is still to come, and its duration is not negative. *)
Definition timely (w : World) (h : Heap Session) : Prop :=
  clock (world h) = clock w
  /\ (forall j : nat, (ticks (world h) <= j)%nat -> started (this h) <= clock w j)
  /\ 0 <= duration (this h).

(** Whether some key of [v], at any depth, has the value [undefined]. *)
Fixpoint hasUndefinedKey (v : JsValue) : bool :=
  match v with
  | JObject props =>
      (fix any (ps : list (string * JsValue)) : bool :=
         match ps with
         | [] => false
         | (k, x) :: rest =>
             match x with
             | JUndefined => true
             | _ => hasUndefinedKey x
             end || any rest
         end) props
  | _ => false
  end.

(** ** Flushers *)

(** The key of the call: the truncated reading of the clock. *)
Definition currentKey (h : Heap SessionFlusher) : Z :=
  SessionFlusher.sessionStartedTrunc (LocalTZA (world h))
    (clock (world h) (ticks (world h))).

(** The bucket found under the key, or the new one. *)
Definition bucketBefore (h : Heap SessionFlusher) : AggregationCounts :=
  match JsObject.get (currentKey h) (_pendingAggregates (this h)) with
  | Some bucket => bucket
  | None => emptyCounts
  end.

(** [(client && client.getOptions()) || {}] *)
Definition clientOptions (h : Heap SessionFlusher) : Options :=
  match client (world h) with
  | Some o => o
  | None => {| opt_release := None; opt_environment := None |}
  end.

(** [_sessionAttrs] after the call. *)
Definition attrsAfter (h : Heap SessionFlusher) : option SessionAttrs :=
  match _sessionAttrs (this h) with
  | Some a => Some a
  | None =>
      Some {| attrs_release := opt_release (clientOptions h);
              attrs_environment := opt_environment (clientOptions h) |}
  end.

(** The bucket once [started] is set. *)
Definition stamped (h : Heap SessionFlusher) : AggregationCounts :=
  if truthyOptString (ac_started (bucketBefore h)) then bucketBefore h
  else set_ac_started (Some (JSDate.isoFormat (currentKey h))) (bucketBefore h).

(** The bucket once the request session [rs] is counted. *)
Definition counted (h : Heap SessionFlusher) (rs : RequestSession)
  : AggregationCounts :=
  if match rs_status rs with
     | Some s => String.eqb s "errored"
     | None => false
     end
  then set_ac_errored (increment (ac_errored (stamped h))) (stamped h)
  else set_ac_exited (increment (ac_exited (stamped h))) (stamped h).

(** [getCurrentHub().getScope()?.getRequestSession()] *)
Definition requestSessionOf (h : Heap SessionFlusher) : option RequestSession :=
  match scope (world h) with
  | Some rs => rs
  | None => None
  end.

(** The key as the specification words it: the reading of the clock "with
    only its seconds and milliseconds zeroed", which is what
    [setSeconds(0, 0)] returns. *)
Definition minuteKey (tz : JSDate.TimeZone) (now : Z) : Z :=
  JSDate.setSeconds tz now 0 0.

(** A transport whose [sendSessions] returns a promise that is fulfilled. *)
Definition sampleTransport : Transport :=
  {| transport_sendSessions := Some (fun _ => Returns Fulfilled) |}.

Definition sampleFlusher : Heap SessionFlusher :=
  mkHeap (SessionFlusher.new sampleTransport 10) sampleWorld.

(** What the handlers of the promises write when they run. *)
Fixpoint rejectionLogs (ps : list PromiseState) : list Event :=
  match ps with
  | [] => []
  | Rejected reason :: rest =>
      LoggerError ("Error while sending session: " ++ reason) :: rejectionLogs rest
  | _ :: rest => rejectionLogs rest
  end.

(** A transport whose [sendSessions] throws, as [HTTPSTransport.sendSession]
    does when it has no module. *)
Definition throwingTransport : Transport :=
  {| transport_sendSessions :=
       Some (fun _ => Throws "No module available in HTTPSTransport") |}.

Definition emptyPayload : AggregatedSessions :=
  {| attrs := None; aggregates := [] |}.

(** The payload that [flush] builds from the fields of the flusher. *)
Definition flushPayload (f : SessionFlusher) : AggregatedSessions :=
  {| attrs := _sessionAttrs f;
     aggregates :=
       map (fun e => Some (snd e)) (JsObject.ownProperties (_pendingAggregates f)) |}.

(** The fields once [flush] has emptied them. *)
Definition flushed (f : SessionFlusher) : SessionFlusher :=
  set_sessionAttrs None (set_pendingAggregates JsObject.empty f).

(** The flushers that the constructor and the methods produce; between two
    calls the rest of the program may change the world. *)
Inductive flusherReachable : Heap SessionFlusher -> Prop :=
| freach_new (transport : Transport) (timeout : Z) (w : World) :
    flusherReachable (mkHeap (SessionFlusher.new transport timeout) w)
| freach_increment (h : Heap SessionFlusher) :
    flusherReachable h ->
    flusherReachable (snd (SessionFlusher.incrementSessionCount h))
| freach_flush (h : Heap SessionFlusher) :
    flusherReachable h -> flusherReachable (snd (SessionFlusher.flush h))
| freach_send (payload : AggregatedSessions) (h : Heap SessionFlusher) :
    flusherReachable h ->
    flusherReachable (snd (SessionFlusher.sendSessions payload h))
| freach_world (f : SessionFlusher) (w w' : World) :
    flusherReachable (mkHeap f w) -> flusherReachable (mkHeap f w').

(** A world whose clock reads 1970-01-01T00:29:59.999Z and then
    00:30:00.000Z, in a time zone five and a half hours ahead of UTC. *)
Definition halfHourWorld : World :=
  {| clock := fun n => Z.of_nat n + 1799999; ticks := 0;
     LocalTZA := JSDate.fixedZone 19800000;
     entropy := fun n => N.of_nat n; draws := 0;
     client := Some {| opt_release := Some "1.0.0"; opt_environment := None |};
     scope := Some (Some {| rs_status := Some "errored" |});
     output := []; jobs := [] |}.

(** A new flusher after two calls of [incrementSessionCount] in that
    world. *)
Definition twoBuckets : Heap SessionFlusher :=
  snd (SessionFlusher.incrementSessionCount
         (snd (SessionFlusher.incrementSessionCount
                 (mkHeap (SessionFlusher.new sampleTransport 10) halfHourWorld)))).

(** ** Sessions: the other fields *)

(** The [ipAddress] that [update] leaves: [context.ipAddress] when truthy,
    else [context.user.ip_address] when truthy, else the one it had. *)
Definition ipAddressAfter (context : SessionContext) (s : Session) : option string :=
  if truthyOptString (c_ipAddress context) then c_ipAddress context
  else match c_user context with
       | Some user =>
           if truthyOptString (ip_address user) then ip_address user
           else ipAddress s
       | None => ipAddress s
       end.

(** A truthy optional string of the context, else the value of the field. *)
Definition orKeep (given current : option string) : option string :=
  if truthyOptString given then given else current.

(** The context [{ status }] is [statusContext]; the context
    [{ errors: 0, started: 0, duration: 0, timestamp: 0, init: false }]. *)
Definition zeroContext : SessionContext :=
  {| c_sid := None; c_did := PUndefined; c_init := Some false;
     c_timestamp := Some 0; c_started := Some 0; c_duration := Some 0;
     c_status := None; c_release := None; c_environment := None;
     c_userAgent := None; c_ipAddress := None; c_errors := Some 0;
     c_user := None; c_sessionMode := None |}.


(** The context [{ did: 1e21 }]. *)
Definition largeDidContext : SessionContext :=
  {| c_sid := None; c_did := PNum 1000000000000000000000; c_init := None;
     c_timestamp := None; c_started := None; c_duration := None;
     c_status := None; c_release := None; c_environment := None;
     c_userAgent := None; c_ipAddress := None; c_errors := None; c_user := None;
     c_sessionMode := None |}.

(** The user [{ id: 'id-7', email: 'a@b.c', username: 'ann',
    ip_address: '10.0.0.1' }]. *)
Definition namedUser : User :=
  {| id := PStr "id-7"; email := PStr "a@b.c"; username := PStr "ann";
     ip_address := Some "10.0.0.1" |}.

(** The context [{ did: 42, ipAddress: '192.168.0.1', timestamp:
    1615882700000, user }] with that user. *)
Definition didAndUserContext : SessionContext :=
  {| c_sid := None; c_did := PNum 42; c_init := None;
     c_timestamp := Some 1615882700000; c_started := None; c_duration := None;
     c_status := None; c_release := None; c_environment := None;
     c_userAgent := None; c_ipAddress := Some "192.168.0.1"; c_errors := None;
     c_user := Some namedUser; c_sessionMode := None |}.


(** The context [{ started: 8640000000000001 }], one millisecond beyond
    the last time value of a [Date]. *)
Definition farStartContext : SessionContext :=
  {| c_sid := None; c_did := PUndefined; c_init := None; c_timestamp := None;
     c_started := Some 8640000000000001; c_duration := None; c_status := None;
     c_release := None; c_environment := None; c_userAgent := None;
     c_ipAddress := None; c_errors := None; c_user := None;
     c_sessionMode := None |}.

(** ** Flushers: counts, buckets and sequences of calls *)

(** A count as a number: an absent count is no session. *)
Definition countOf (c : option Z) : Z :=
  match c with
  | Some n => n
  | None => 0
  end.

(** The sessions that a bucket, a table and a payload stand for. *)
Definition bucketTotal (b : AggregationCounts) : Z :=
  countOf (ac_errored b) + countOf (ac_exited b).

Definition tableTotal (o : JsObject.t AggregationCounts) : Z :=
  fold_right (fun e acc => bucketTotal (snd e) + acc) 0 o.

Definition payloadTotal (p : AggregatedSessions) : Z :=
  fold_right
    (fun a acc => match a with Some b => bucketTotal b | None => 0 end + acc)
    0 (aggregates p).

(** The key computed in the world [w]. *)
Definition keyIn (w : World) : Z :=
  SessionFlusher.sessionStartedTrunc (LocalTZA w) (clock w (ticks w)).

(** Whether the scope of [w] holds a request session. *)
Definition hasRequestSession (w : World) : bool :=
  match scope w with
  | Some (Some _) => true
  | _ => false
  end.

(** [incrementSessionCount] called once in each of the worlds [ws], in
    that order, on the fields that the call before left. *)
Fixpoint countIn (ws : list World) (f : SessionFlusher) : SessionFlusher :=
  match ws with
  | [] => f
  | w :: rest =>
      countIn rest (this (snd (SessionFlusher.incrementSessionCount (mkHeap f w))))
  end.

(** A count that is present is at least 1. *)
Definition positiveCount (c : option Z) : Prop :=
  match c with
  | Some n => 1 <= n
  | None => True
  end.

(** The shape of the bucket stored under the key [k]. *)
Definition bucketShape (k : Z) (b : AggregationCounts) : Prop :=
  ac_crashed b = None /\ ac_abnormal b = None
  /\ positiveCount (ac_errored b) /\ positiveCount (ac_exited b)
  /\ (ac_started b = Some (JSDate.isoFormat k)
      \/ (ac_started b = None /\ JSDate.validTime k = false
          /\ ac_errored b = None /\ ac_exited b = None)).

(** The zone America/New_York in 2021: four hours behind UTC from
    2021-03-14T07:00Z to 2021-11-07T06:00Z, five hours behind otherwise; the
    local times from 03:00 on 14 March up to 02:00 on 7 November, of which
    the hour from 01:00 comes twice, have the offset of the summer, the hour
    from 02:00 on 14 March, which no clock shows, that of the winter. *)
Definition newYork2021 : JSDate.TimeZone :=
  {| JSDate.offsetAtUTC := fun t =>
       if (1615705200000 <=? t) && (t <? 1636264800000)
       then -14400000 else -18000000;
     JSDate.offsetAtLocal := fun t =>
       if (1615690800000 <=? t) && (t <? 1636250400000)
       then -14400000 else -18000000 |}.

(** The sample world outside a request: the hub has no scope. *)
Definition idleWorld : World :=
  {| clock := fun n => Z.of_nat n + 1615882662123; ticks := 0;
     LocalTZA := JSDate.fixedZone 0;
     entropy := fun n => (N.of_nat n + 48879)%N; draws := 0;
     client := None; scope := None; output := []; jobs := [] |}.

Definition idleFlusher : Heap SessionFlusher :=
  mkHeap (SessionFlusher.new sampleTransport 10) idleWorld.

(** A new flusher in the sample world, the request session of the scope
    having the status [undefined]. *)
Definition statusLessFlusher : Heap SessionFlusher :=
  mkHeap (SessionFlusher.new sampleTransport 10)
    (set_scope (Some (Some {| rs_status := None |})) sampleWorld).

(** One counted request on a flusher whose transport throws. *)
Definition undeliverable : Heap SessionFlusher :=
  snd (SessionFlusher.incrementSessionCount
         (mkHeap (SessionFlusher.new throwingTransport 10) sampleWorld)).

(* ===================================================================== *)
(** * The interval timer of a flusher                                     *)
(* ===================================================================== *)

(** The timers of the host: [setInterval] registers a repeating timer and
    returns a handle that no timer registered before has, [clearTimeout]
    unregisters the timer of a handle (it serves for the handles of
    [setInterval] as [clearInterval] does) and does nothing when the host
    has no such timer. An entry is a handle with the delay in
    milliseconds. *)
Record Timers : Type := {
  timer_next : nat;
  timer_active : list (nat * Z)
}.

Definition setInterval (delay : Z) (t : Timers) : nat * Timers :=
  (timer_next t,
   {| timer_next := S (timer_next t);
      timer_active := (timer_active t ++ [(timer_next t, delay)])%list |}).

Definition clearTimeout (handle : nat) (t : Timers) : Timers :=
  {| timer_next := timer_next t;
     timer_active :=
       filter (fun e => negb (Nat.eqb (fst e) handle)) (timer_active t) |}.

Definition isActive (handle : nat) (t : Timers) : bool :=
  existsb (fun e => Nat.eqb (fst e) handle) (timer_active t).

(** The handles in use are below the next one. *)
Definition timersOk (t : Timers) : Prop :=
  Forall (fun e => (fst e < timer_next t)%nat) (timer_active t).

(** A flusher with its [_intervalId] and the timers of the host. The
    callback of the timer registered under [_intervalId] is
    [this.flush.bind(this)]. *)
Record Scheduled : Type := {
  flusher : Heap SessionFlusher;
  _intervalId : nat;
  timers : Timers
}.

Definition set_flusher (v : Heap SessionFlusher) (s : Scheduled) : Scheduled :=
  {| flusher := v; _intervalId := _intervalId s; timers := timers s |}.

Definition set_timers (v : Timers) (s : Scheduled) : Scheduled :=
  {| flusher := flusher s; _intervalId := _intervalId s; timers := v |}.

Module ScheduledFlusher.

(** [constructor(_transport, flushTimeout = 10)] *)
Definition new (transport : Transport) (timeout : option Z) (w : World) (t : Timers)
  : Scheduled :=
  let flushTimeout := match timeout with Some n => n | None => 10 end in
  let (handle, t') := setInterval (flushTimeout * 1000) t in
  {| flusher := mkHeap (SessionFlusher.new transport flushTimeout) w;
     _intervalId := handle; timers := t' |}.

(** A method of the flusher, called on the scheduled flusher. *)
Definition call (m : M (Heap SessionFlusher) unit) (s : Scheduled)
  : Completion unit * Scheduled :=
  let (r, h) := m (flusher s) in (r, set_flusher h s).

(** [close()] *)
Definition close (s : Scheduled) : Completion unit * Scheduled :=
  call SessionFlusher.flush (set_timers (clearTimeout (_intervalId s) (timers s)) s).

(** The interval elapses: the host runs the callback of the timer when the
    timer is still registered. *)
Definition intervalElapses (s : Scheduled) : Completion unit * Scheduled :=
  if isActive (_intervalId s) (timers s) then call SessionFlusher.flush s
  else (Normal tt, s).

End ScheduledFlusher.

(** What happens to a scheduled flusher. *)
Inductive Step : Type :=
| StepIncrement
| StepFlush
| StepInterval
| StepClose
| StepWorld (w : World).

Definition runStep (c : Step) (s : Scheduled) : Completion unit * Scheduled :=
  match c with
  | StepIncrement => ScheduledFlusher.call SessionFlusher.incrementSessionCount s
  | StepFlush => ScheduledFlusher.call SessionFlusher.flush s
  | StepInterval => ScheduledFlusher.intervalElapses s
  | StepClose => ScheduledFlusher.close s
  | StepWorld w => (Normal tt, set_flusher (mkHeap (this (flusher s)) w) s)
  end.

(** The steps in order; a step that throws does not stop the later ones,
    which other callers make. *)
Fixpoint runSteps (cs : list Step) (s : Scheduled) : Scheduled :=
  match cs with
  | [] => s
  | c :: rest => runSteps rest (snd (runStep c s))
  end.

Definition isClose (c : Step) : bool :=
  match c with
  | StepClose => true
  | _ => false
  end.

(** The sessions in the payloads that the log shows handed to the
    transport. *)
Fixpoint sentTotal (es : list Event) : Z :=
  match es with
  | [] => 0
  | TransportSendSessions payload :: rest => payloadTotal payload + sentTotal rest
  | _ :: rest => sentTotal rest
  end.

(** Along the steps [cs] from [s], every [incrementSessionCount] computes a
    key that is a valid time value, and the rest of the program, when it
    changes the world, does not rewrite the log. *)
Fixpoint orderly (cs : list Step) (s : Scheduled) : Prop :=
  match cs with
  | [] => True
  | c :: rest =>
      match c with
      | StepIncrement => JSDate.validTime (currentKey (flusher s)) = true
      | StepWorld w => output w = output (world (flusher s))
      | _ => True
      end
      /\ orderly rest (snd (runStep c s))
  end.

(** The calls of [incrementSessionCount] among the steps [cs] from [s] that
    find a request session. *)
Fixpoint countedIn (cs : list Step) (s : Scheduled) : Z :=
  match cs with
  | [] => 0
  | c :: rest =>
      match c with
      | StepIncrement =>
          match requestSessionOf (flusher s) with
          | Some _ => 1
          | None => 0
          end
      | _ => 0
      end
      + countedIn rest (snd (runStep c s))
  end.

(** A host with two timers of other code. *)
Definition sampleTimers : Timers :=
  {| timer_next := 7; timer_active := [(2%nat, 250); (5%nat, 60000)] |}.

Definition sampleScheduled : Scheduled :=
  ScheduledFlusher.new sampleTransport None sampleWorld sampleTimers.

(* ===================================================================== *)
(** * The Node SDK: [init] and the session wrapper                        *)
(* ===================================================================== *)

(** [packages/node/src/sdk.ts]. [parseFloat] and [isFinite] are the
    functions of the language and [SDK_VERSION] is a constant of the core
    package; the embedding takes them as given. [Num] is the type of the
    numbers that [parseFloat] returns. *)

(** [defaultIntegrations?: false | Integration[]]; an integration is named
    by its class. *)
Inductive DefaultIntegrations : Type :=
| NoDefaults
| Integrations (names : list string).

Definition defaultIntegrations : list string :=
  [ "InboundFilters"; "FunctionToString"; "Console"; "Http";
    "OnUncaughtException"; "OnUnhandledRejection"; "LinkedErrors" ].

Record SdkInfo : Type := {
  sdk_name : string;
  sdk_packages : list (string * string);
  sdk_version : string
}.

(** The options that [init] reads or writes; [o_metadata] is the
    [_metadata] object, when there is one, with its [sdk]. *)
Record NodeOptions (Num : Type) : Type := {
  o_defaultIntegrations : option DefaultIntegrations;
  o_dsn : option string;
  o_tracesSampleRate : option Num;
  o_release : option string;
  o_environment : option string;
  o_autoSessionTracking : option bool;
  o_metadata : option (option SdkInfo)
}.

Arguments o_defaultIntegrations {Num} _.
Arguments o_dsn {Num} _.
Arguments o_tracesSampleRate {Num} _.
Arguments o_release {Num} _.
Arguments o_environment {Num} _.
Arguments o_autoSessionTracking {Num} _.
Arguments o_metadata {Num} _.

(** The object [{}]. *)
Definition noOptions {Num : Type} : NodeOptions Num :=
  {| o_defaultIntegrations := None; o_dsn := None; o_tracesSampleRate := None;
     o_release := None; o_environment := None; o_autoSessionTracking := None;
     o_metadata := None |}.

(** What [init] reads from the process: four variables of [process.env],
    [global.SENTRY_RELEASE] (when there is one, with its [id]) and whether
    [domain.active] is truthy. *)
Record Process : Type := {
  SENTRY_DSN : option string;
  SENTRY_TRACES_SAMPLE_RATE : option string;
  SENTRY_RELEASE : option string;
  SENTRY_ENVIRONMENT : option string;
  global_SENTRY_RELEASE : option (option string);
  domain_active : bool
}.

(** The calls that [init] makes into the other packages. *)
Inductive SdkCall (Num : Type) : Type :=
| SetHubOnCarrier
| InitAndBind (options : NodeOptions Num).

Arguments SetHubOnCarrier {Num}.
Arguments InitAndBind {Num} _.

(** The hub as the wrapper sees it: the calls made on it and on the
    logger, which are recorded and return. *)
Inductive HubEvent : Type :=
| LoggerLog (msg : string)
| StartSession (context : option SessionContext)
| EndSession.

Module Sdk.

Section Builtins.
Variable Num : Type.
Variable parseFloat : string -> Num.
Variable isFinite : Num -> bool.
Variable SDK_VERSION : string.

(** The options object when the first eight statements of [init] have
    run. *)
Definition initOptions (p : Process) (options : NodeOptions Num) : NodeOptions Num :=
  {| o_defaultIntegrations :=
       match o_defaultIntegrations options with
       | None => Some (Integrations defaultIntegrations)
       | Some d => Some d
       end;
     o_dsn :=
       match o_dsn options with
       | None => if truthyOptString (SENTRY_DSN p) then SENTRY_DSN p else None
       | Some d => Some d
       end;
     o_tracesSampleRate :=
       match o_tracesSampleRate options with
       | None =>
           match SENTRY_TRACES_SAMPLE_RATE p with
           | Some s =>
               if truthyString s
               then if isFinite (parseFloat s) then Some (parseFloat s) else None
               else None
           | None => None
           end
       | Some r => Some r
       end;
     o_release :=
       match o_release options with
       | None =>
           if truthyOptString (SENTRY_RELEASE p) then SENTRY_RELEASE p
           else match global_SENTRY_RELEASE p with
                | Some id => if truthyOptString id then id else None
                | None => None
                end
       | Some r => Some r
       end;
     o_environment :=
       match o_environment options with
       | None =>
           if truthyOptString (SENTRY_ENVIRONMENT p) then SENTRY_ENVIRONMENT p
           else None
       | Some e => Some e
       end;
     o_autoSessionTracking :=
       match o_autoSessionTracking options with
       | None => Some true
       | Some b => Some b
       end;
     o_metadata :=
       Some (Some {| sdk_name := "sentry.javascript.node";
                     sdk_packages := [("npm:@sentry/node", SDK_VERSION)];
                     sdk_version := SDK_VERSION |}) |}.

(** [init(options = {})]: the options object as [init] leaves it, which is
    the object of the caller when one was passed, and the calls made. *)
Definition init (p : Process) (options : option (NodeOptions Num))
  : NodeOptions Num * list (SdkCall Num) :=
  let options' :=
    initOptions p (match options with Some o => o | None => noOptions end) in
  (options',
   ((if domain_active p then [SetHubOnCarrier] else [])
      ++ [InitAndBind options'])%list).

(** The state of the hub: the options of its client, when it has one, and
    the calls made so far. *)
Record Hub : Type := {
  hub_client : option (NodeOptions Num);
  hub_trace : list HubEvent
}.

Definition record (es : list HubEvent) (hub : Hub) : Hub :=
  {| hub_client := hub_client hub; hub_trace := (hub_trace hub ++ es)%list |}.

(** [isAutosessionTrackingEnabled()] *)
Definition isAutosessionTrackingEnabled (hub : Hub) : bool :=
  match hub_client hub with
  | Some clientOptions =>
      match o_autoSessionTracking clientOptions with
      | Some b => b
      | None => false
      end
  | None => false
  end.

(** The two methods of the hub that the wrapper calls are code of another
    package: a call is recorded, and then returns or throws, as
    [startSessionThrows] and [endSessionThrows] tell for the state of the
    hub at the call. The logger returns. *)
Variable startSessionThrows : Hub -> option JsError.
Variable endSessionThrows : Hub -> option JsError.

Definition logger_log (msg : string) : M Hub unit :=
  modify (record [LoggerLog msg]).

Definition hub_startSession (context : option SessionContext) : M Hub unit :=
  modify (record [StartSession context]) ;;
  failure <- gets startSessionThrows ;;
  match failure with
  | Some e => throw e
  | None => ret tt
  end.

Definition hub_endSession : M Hub unit :=
  modify (record [EndSession]) ;;
  failure <- gets endSessionThrows ;;
  match failure with
  | Some e => throw e
  | None => ret tt
  end.

(** [try { body } finally { finalizer }]: the finalizer runs however the
    body completed; the statement completes as the body did, unless the
    finalizer throws. *)
Definition tryFinally {St A : Type} (body : M St A) (finalizer : M St unit) : M St A :=
  fun s =>
    let (r, s1) := body s in
    match finalizer s1 with
    | (Normal _, s2) => (r, s2)
    | (Throw e, s2) => (Throw e, s2)
    end.

(** The function that [withAutosessionTracking(callback, context)]
    returns, applied to [args]. *)
Definition trackedCall {Args : Type} (callback : Args -> M Hub unit)
    (context : option SessionContext) (args : Args) : M Hub unit :=
  enabled <- gets isAutosessionTrackingEnabled ;;
  if enabled
  then
    tryFinally
      (hub_startSession context ;;
       logger_log "Starting Session" ;;
       callback args)
      (logger_log "Capturing Sessoin" ;;
       hub_endSession)
  else callback args.

(** [withAutosessionTracking(callback, context?)] *)
Definition withAutosessionTracking {Args : Type} (callback : Args -> M Hub unit)
    (context : option SessionContext) : M Hub (Args -> M Hub unit) :=
  logger_log "Auto session tracking context manager" ;;
  ret (trackedCall callback context).

End Builtins.

Arguments hub_client {Num} _.
Arguments hub_trace {Num} _.
Arguments record {Num} _ _.
Arguments isAutosessionTrackingEnabled {Num} _.
Arguments initOptions {Num} _ _ _ _ _.
Arguments init {Num} _ _ _ _ _.
Arguments trackedCall {Num} _ _ {Args} _ _ _ _.
Arguments withAutosessionTracking {Num} _ _ {Args} _ _ _.

End Sdk.

(* ===================================================================== *)
(** * The https transport                                                 *)
(* ===================================================================== *)

(** [packages/node/src/transports/https.ts]. Of the class the embedding
    has what its own constructor and methods read and write; the parent
    class, [_sendWithModule] and the two request builders are code of other
    files and are taken as given. *)

(** The two options that the constructor reads. *)
Record TransportOptions : Type := {
  httpsProxy : option string;
  httpProxy : option string
}.

(** The two variables of [process.env] that the constructor reads. *)
Record ProxyEnv : Type := {
  https_proxy : option string;
  http_proxy : option string
}.

Inductive HTTPModule : Type := https.

Inductive Agent : Type :=
| HttpsProxyAgent (proxy : string)
| HttpsAgent (keepAlive : bool) (maxSockets : Z) (timeout : Z).

Record HTTPSTransport : Type := {
  transport_options : TransportOptions;
  transport_module : option HTTPModule;
  transport_client : option Agent
}.

(** [a || b] on optional strings. *)
Definition orString (a b : option string) : option string :=
  if truthyOptString a then a else b.

(** What a method of the transport does: it throws a [SentryError], or
    it returns what [_sendWithModule] returns for the module and the
    request, after the lines it logged. *)
Inductive SendOutcome (Request : Type) : Type :=
| ThrowsSentryError (msg : string)
| SendsWithModule (logged : list string) (module : HTTPModule) (request : Request).

Arguments ThrowsSentryError {Request} _.
Arguments SendsWithModule {Request} _ _ _.

Module HTTPSTransport.

(** The constructor, after [super(options)]. *)
Definition new (options : TransportOptions) (env : ProxyEnv) : HTTPSTransport :=
  let proxy :=
    orString (orString (orString (httpsProxy options) (httpProxy options))
                (https_proxy env))
      (http_proxy env) in
  {| transport_options := options;
     transport_module := Some https;
     transport_client :=
       Some (match proxy with
             | Some p => if truthyString p then HttpsProxyAgent p
                         else HttpsAgent false 30 2000
             | None => HttpsAgent false 30 2000
             end) |}.

(** [sendEvent(event)] *)
Definition sendEvent {E Request : Type} (eventToSentryRequest : E -> Request)
    (t : HTTPSTransport) (event : E) : SendOutcome Request :=
  match transport_module t with
  | None => ThrowsSentryError "No module available in HTTPSTransport"
  | Some m => SendsWithModule [] m (eventToSentryRequest event)
  end.

(** [sendSession(session)] *)
Definition sendSession {S Request : Type} (sessionToSentryRequest : S -> Request)
    (t : HTTPSTransport) (session : S) : SendOutcome Request :=
  match transport_module t with
  | None => ThrowsSentryError "No module available in HTTPTransport"
  | Some m => SendsWithModule ["Sending session!"] m (sessionToSentryRequest session)
  end.

End HTTPSTransport.

(* ===================================================================== *)
(** * Reasoning about computations                                        *)
(* ===================================================================== *)

Section Triples.
Context {St : Type}.

Lemma triple_bind {A B : Type} (P : St -> Prop) (R : A -> St -> Prop)
      (Q : B -> St -> Prop) (m : M St A) (k : A -> M St B) :
  triple P m R -> (forall a, triple (R a) (k a) Q) -> triple P (bind m k) Q.
Proof.
  intros Hm Hk s Hs. specialize (Hm s Hs).
  unfold wp, bind in *. destruct (m s) as [[a | e] s1]; [ | tauto ].
  exact (Hk a s1 Hm).
Qed.

Lemma triple_ret {A : Type} (P : St -> Prop) (Q : A -> St -> Prop) (a : A) :
  (forall s, P s -> Q a s) -> triple P (ret a) Q.
Proof. intros H s Hs. exact (H s Hs). Qed.

(** A fact that does not depend on the state can be assumed. *)
Lemma triple_assume {A : Type} (F : Prop) (P : St -> Prop) (Q : A -> St -> Prop)
      (m : M St A) :
  (F -> triple P m Q) -> triple (fun s => F /\ P s) m Q.
Proof. intros H s [HF Hs]. exact (H HF s Hs). Qed.

End Triples.

(** Case analysis on an innermost condition of the goal. *)
Ltac split_condition :=
  match goal with
  | |- context [match ?x with _ => _ end] =>
      lazymatch x with
      | context [match _ with _ => _ end] => fail
      | _ => destruct x eqn:?
      end
  end.

(** A statement small enough to be run: its conditions are split and the
    remaining goal is about the fields. *)
Ltac run_statement :=
  let h := fresh "h" in
  let Hh := fresh "Hh" in
  intros h Hh;
  unfold wp, when, getThis, setThis, getWorld, setWorld, Date_now, uuid4, liftW,
    logger_warn, logger_error, emit, bind, ret, gets, modify, throw,
    readClock, drawUuid;
  cbn;
  repeat (split_condition; cbn in * ).

(** Sequencing with the assertion [I] between the first statement and the
    rest. *)
Ltac seq I :=
  apply triple_bind with (R := fun _ => I); [ | intros ? ].

(** The goals about fields that remain. *)
Ltac finish :=
  intuition (subst; cbn in *; auto; try congruence; try lia).

(** [n] statements in a row that keep the assertion [I]. *)
Tactic Notation "keep" integer(n) constr(I) :=
  do n (seq I; [ solve [ run_statement; finish ] | ]).

(** The last statement of a method. *)
Ltac last_statement := solve [ run_statement; finish ].

(** ** The built-ins on sample values *)

Example iso_2021 : JSDate.toISOString 1615881600000 = Some "2021-03-16T08:00:00.000Z".
Proof. vm_compute. reflexivity. Qed.
Example iso_epoch : JSDate.toISOString 0 = Some "1970-01-01T00:00:00.000Z".
Proof. vm_compute. reflexivity. Qed.
Example iso_neg : JSDate.toISOString (-1) = Some "1969-12-31T23:59:59.999Z".
Proof. vm_compute. reflexivity. Qed.
Example iso_leap : JSDate.toISOString 1709164800000 = Some "2024-02-29T00:00:00.000Z".
Proof. vm_compute. reflexivity. Qed.
Example iso_max : JSDate.toISOString 8640000000000000 = Some "+275760-09-13T00:00:00.000Z".
Proof. vm_compute. reflexivity. Qed.
Example iso_min : JSDate.toISOString (-8640000000000000) = Some "-271821-04-20T00:00:00.000Z".
Proof. vm_compute. reflexivity. Qed.
Example num_str : NumberToString (-42) = "-42" /\ NumberToString 0 = "0".
Proof. vm_compute. split; reflexivity. Qed.
Example num_str_safe :
  NumberToString 9007199254740991 = "9007199254740991"
  /\ NumberToString 1615882662123 = "1615882662123"
  /\ NumberToString 1000 = "1000".
Proof. vm_compute. repeat split. Qed.
Example num_str_large :
  NumberToString (2 ^ 60) = "1152921504606847000"
  /\ NumberToString (2 ^ 64) = "18446744073709552000"
  /\ NumberToString 123456789012345680000 = "123456789012345680000"
  /\ NumberToString (10 ^ 21) = "1e+21"
  /\ NumberToString (- 10 ^ 21) = "-1e+21"
  /\ NumberToString (2 ^ 70) = "1.1805916207174113e+21"
  /\ NumberToString 99999999999999991611392 = "1e+23".
Proof. vm_compute. repeat split. Qed.

(* ===================================================================== *)
(** * What [Session.update] does to each field                            *)
(* ===================================================================== *)

Lemma digitsOf_length (base : Z) (w : nat) (n : Z) (acc : string) :
  String.length (digitsOf base w n acc) = (w + String.length acc)%nat.
Proof.
  revert n acc. induction w as [ | w IH ]; intros n acc; cbn [digitsOf].
  - reflexivity.
  - rewrite IH. cbn [String.length]. lia.
Qed.

Lemma uuid4_of_length (seed : N) : String.length (uuid4_of seed) = 32%nat.
Proof. unfold uuid4_of. rewrite digitsOf_length. reflexivity. Qed.

(** The numerals are not unfolded when a goal is simplified. *)
Arguments digitsOf : simpl never.
Arguments uuid4_of : simpl never.
Arguments NumberToString : simpl never.
Arguments JSDate.isoFormat : simpl never.

Section UpdateFacts.
Variable context : SessionContext.
Variable h0 : Heap Session.

Let s0 : Session := this h0.
Let w0 : World := world h0.

Lemma update_world_frame :
  triple (fun h => h = h0) (Session.update context)
    (fun _ h' =>
       clock (world h') = clock w0 /\ LocalTZA (world h') = LocalTZA w0
       /\ entropy (world h') = entropy w0 /\ client (world h') = client w0
       /\ scope (world h') = scope w0 /\ output (world h') = output w0
       /\ jobs (world h') = jobs w0).
Proof.
  unfold Session.update.
  keep 14 (fun h : Heap Session =>
       clock (world h) = clock w0 /\ LocalTZA (world h) = LocalTZA w0
       /\ entropy (world h) = entropy w0 /\ client (world h) = client w0
       /\ scope (world h) = scope w0 /\ output (world h) = output w0
       /\ jobs (world h) = jobs w0).
  last_statement.
Qed.

Lemma update_ticks :
  triple (fun h => h = h0) (Session.update context)
    (fun _ h' =>
       ticks (world h') =
         if truthyOptNum (c_timestamp context) then ticks w0 else S (ticks w0)).
Proof.
  unfold Session.update.
  keep 1 (fun h : Heap Session => ticks (world h) = ticks w0).
  keep 13 (fun h : Heap Session =>
    ticks (world h) =
      if truthyOptNum (c_timestamp context) then ticks w0 else S (ticks w0)).
  last_statement.
Qed.

Lemma update_draws :
  triple (fun h => h = h0) (Session.update context)
    (fun _ h' =>
       draws (world h') = if regeneratesSid context then S (draws w0) else draws w0).
Proof.
  unfold Session.update, regeneratesSid.
  keep 3 (fun h : Heap Session => draws (world h) = draws w0).
  keep 11 (fun h : Heap Session =>
    draws (world h) =
      if match c_sid context with
         | Some s => truthyString s && negb (Nat.eqb (String.length s) 32)
         | None => false
         end
      then S (draws w0) else draws w0).
  last_statement.
Qed.

Lemma update_timestamp :
  triple (fun h => h = h0) (Session.update context)
    (fun _ h' => timestamp (this h') = effectiveTimestamp context h0).
Proof.
  unfold Session.update, effectiveTimestamp.
  keep 1 (fun h : Heap Session => world h = w0).
  apply triple_bind
    with (R := fun now (h : Heap Session) =>
                 now = match c_timestamp context with
                       | Some t => if t =? 0 then clock w0 (ticks w0) else t
                       | None => clock w0 (ticks w0)
                       end /\ True);
    [ solve [ run_statement; finish ] | intros now ].
  apply triple_assume; intros ->.
  keep 12 (fun h : Heap Session =>
    timestamp (this h) = match c_timestamp context with
                         | Some t => if t =? 0 then clock w0 (ticks w0) else t
                         | None => clock w0 (ticks w0)
                         end).
  last_statement.
Qed.

Lemma update_started :
  triple (fun h => h = h0) (Session.update context)
    (fun _ h' =>
       started (this h') =
         match c_started context with Some n => n | None => started s0 end).
Proof.
  unfold Session.update.
  keep 6 (fun h : Heap Session => started (this h) = started s0).
  keep 8 (fun h : Heap Session =>
    started (this h) =
      match c_started context with Some n => n | None => started s0 end).
  last_statement.
Qed.

Lemma update_duration :
  triple (fun h => h = h0) (Session.update context)
    (fun _ h' =>
       duration (this h') =
         match c_duration context with
         | Some n => n
         | None => timestamp (this h') - started (this h')
         end).
Proof.
  unfold Session.update.
  keep 7 (fun h : Heap Session => True).
  keep 7 (fun h : Heap Session =>
    duration (this h) =
      match c_duration context with
      | Some n => n
      | None => timestamp (this h) - started (this h)
      end).
  last_statement.
Qed.

Lemma update_status :
  triple (fun h => h = h0) (Session.update context)
    (fun _ h' =>
       status (this h') =
         match c_status context with Some st => st | None => status s0 end).
Proof.
  unfold Session.update.
  keep 13 (fun h : Heap Session => status (this h) = status s0).
  keep 1 (fun h : Heap Session =>
    status (this h) =
      match c_status context with Some st => st | None => status s0 end).
  last_statement.
Qed.

(** The [sid] after [update]: a truthy [context.sid] of length 32, else a
    fresh id when [context.sid] is truthy, else the [sid] as it was. *)
Lemma update_sid :
  triple (fun h => h = h0) (Session.update context)
    (fun _ h' =>
       sid (this h') =
         match c_sid context with
         | Some s =>
             if truthyString s
             then if Nat.eqb (String.length s) 32 then s
                  else uuid4_of (entropy w0 (draws w0))
             else sid s0
         | None => sid s0
         end).
Proof.
  unfold Session.update.
  keep 3 (fun h : Heap Session =>
    sid (this h) = sid s0 /\ draws (world h) = draws w0
    /\ entropy (world h) = entropy w0).
  keep 11 (fun h : Heap Session =>
    sid (this h) =
      match c_sid context with
      | Some s =>
          if truthyString s
          then if Nat.eqb (String.length s) 32 then s
               else uuid4_of (entropy w0 (draws w0))
          else sid s0
      | None => sid s0
      end).
  last_statement.
Qed.

(** The [did] after [update]: the string of a truthy [context.did]; else,
    with a user, the value of [user.id || user.email || user.username];
    else the [did] as it was. *)
Lemma update_did :
  triple (fun h => h = h0) (Session.update context)
    (fun _ h' =>
       did (this h') =
         if truthy (c_did context) then PStr (ToString (c_did context))
         else match c_user context with
              | Some user => jsOr (jsOr (id user) (email user)) (username user)
              | None => did s0
              end).
Proof.
  unfold Session.update.
  keep 5 (fun h : Heap Session =>
    did (this h) =
      if truthy (c_did context) then did s0
      else match c_user context with
           | Some user => jsOr (jsOr (id user) (email user)) (username user)
           | None => did s0
           end).
  keep 9 (fun h : Heap Session =>
    did (this h) =
      if truthy (c_did context) then PStr (ToString (c_did context))
      else match c_user context with
           | Some user => jsOr (jsOr (id user) (email user)) (username user)
           | None => did s0
           end).
  last_statement.
Qed.

(** [update] returns, and the facts above hold of the heap it leaves. *)
Lemma update_run :
  exists h',
    Session.update context h0 = (Normal tt, h')
    /\ timestamp (this h') = effectiveTimestamp context h0
    /\ started (this h') =
         match c_started context with Some n => n | None => started s0 end
    /\ duration (this h') =
         match c_duration context with
         | Some n => n
         | None => timestamp (this h') - started (this h')
         end
    /\ status (this h') =
         match c_status context with Some st => st | None => status s0 end
    /\ clock (world h') = clock w0
    /\ ticks (world h') =
         (if truthyOptNum (c_timestamp context) then ticks w0 else S (ticks w0))
    /\ entropy (world h') = entropy w0
    /\ draws (world h') = (if regeneratesSid context then S (draws w0) else draws w0).
Proof.
  pose proof (update_timestamp h0 eq_refl) as H1.
  pose proof (update_started h0 eq_refl) as H2.
  pose proof (update_duration h0 eq_refl) as H3.
  pose proof (update_status h0 eq_refl) as H4.
  pose proof (update_world_frame h0 eq_refl) as H5.
  pose proof (update_ticks h0 eq_refl) as H6.
  pose proof (update_draws h0 eq_refl) as H7.
  unfold wp in *.
  destruct (Session.update context h0) as [[[] | e] h']; [ | tauto ].
  exists h'. intuition.
Qed.

End UpdateFacts.

(* ===================================================================== *)
(** * Properties of [Session]                                             *)
(* ===================================================================== *)

(** ** [close()] without an argument *)

Lemma close_none_run (h : Heap Session) :
  Session.close None h =
    (Normal tt,
     mkHeap
       (refreshed (clock (world h) (ticks (world h)))
          (match status (this h) with
           | Ok => set_status Exited (this h)
           | _ => this h
           end))
       (set_ticks (S (ticks (world h))) (world h))).
Proof.
  destruct h as [s w]. destruct s as [ua er rel si di ts st du sta mo env ip ini].
  destruct sta; reflexivity.
Qed.

(** C4. [close()] called without an argument returns; a session whose status
    is [Ok] gets the status [Exited]; a session of any other status keeps
    it, and nothing but its [timestamp] (the reading of the clock) and its
    [duration] ([timestamp - started]) is written; hence a second [close()]
    leaves the status that the first one left. *)
Theorem close_without_argument (h : Heap Session) :
  exists h',
    Session.close None h = (Normal tt, h')
    /\ (status (this h) = Ok -> status (this h') = Exited)
    /\ (status (this h) <> Ok ->
        status (this h') = status (this h)
        /\ this h' = refreshed (clock (world h) (ticks (world h))) (this h))
    /\ timestamp (this h') = clock (world h) (ticks (world h))
    /\ duration (this h') = timestamp (this h') - started (this h')
    /\ exists h'',
         Session.close None h' = (Normal tt, h'')
         /\ status (this h'') = status (this h').
Proof.
  rewrite close_none_run. eexists. split; [ reflexivity | ].
  cbn [this world].
  split; [ intros ->; reflexivity | ].
  split.
  { intros Hne. destruct (status (this h)) eqn:E; [ congruence | | | ];
      (split; [ unfold refreshed; cbn; exact E | reflexivity ]). }
  split; [ destruct (status (this h)); reflexivity | ].
  split; [ destruct (status (this h)); reflexivity | ].
  rewrite close_none_run. eexists. split; [ reflexivity | ].
  cbn [this world]. unfold refreshed.
  destruct (status (this h)) eqn:E; cbn; rewrite ?E; cbn; rewrite ?E; reflexivity.
Qed.

Lemma close_without_argument_witness :
  exists h',
    Session.close None sampleHeap = (Normal tt, h') /\ status (this h') = Exited.
Proof.
  destruct (close_without_argument sampleHeap) as (h' & Hrun & Hok & _).
  exists h'. split; [ exact Hrun | apply Hok; reflexivity ].
Defined.

(** ** [duration] after [update] *)

Lemma update_returns (context : SessionContext) (h : Heap Session) :
  exists h', Session.update context h = (Normal tt, h').
Proof. destruct (update_run context h) as (h' & H & _). eauto. Qed.

Lemma updates_returns (contexts : list SessionContext) (h : Heap Session) :
  exists h', updates contexts h = (Normal tt, h').
Proof.
  revert h. induction contexts as [ | c rest IH ]; intros h; cbn [updates].
  - eexists; reflexivity.
  - unfold bind. destruct (update_returns c h) as (h1 & ->). apply IH.
Qed.

Lemma updates_snoc (contexts : list SessionContext) (c : SessionContext)
      (h : Heap Session) :
  updates (contexts ++ [c]) h =
    match updates contexts h with
    | (Normal _, h1) => Session.update c h1
    | (Throw e, h1) => (Throw e, h1)
    end.
Proof.
  revert h. induction contexts as [ | c' rest IH ]; intros h; cbn [updates app].
  - unfold bind, ret. destruct (Session.update c h) as [[[] | e] h1]; reflexivity.
  - unfold bind. destruct (Session.update c' h) as [[[] | e] h1]; [ apply IH | reflexivity ].
Qed.

(** C5. Whatever the session and the calls of [update] made before, the
    last call returns; it stores [context.timestamp || Date.now()] as
    [timestamp] and a [context.started] as [started]; when its context
    carries no [duration], the [duration] of the session is then its
    [timestamp] minus its [started], both as that call left them; a
    [duration] in the context is stored as it is. *)
Theorem duration_after_update (h : Heap Session) (before : list SessionContext)
        (context : SessionContext) :
  exists h1 h',
    updates before h = (Normal tt, h1)
    /\ updates (before ++ [context]) h = (Normal tt, h')
    /\ timestamp (this h') =
         match c_timestamp context with
         | Some t => if t =? 0 then clock (world h1) (ticks (world h1)) else t
         | None => clock (world h1) (ticks (world h1))
         end
    /\ started (this h') =
         match c_started context with
         | Some n => n
         | None => started (this h1)
         end
    /\ (c_duration context = None ->
        duration (this h') = timestamp (this h') - started (this h'))
    /\ (forall d, c_duration context = Some d -> duration (this h') = d).
Proof.
  rewrite updates_snoc.
  destruct (updates_returns before h) as (h1 & ->).
  destruct (update_run context h1) as (h' & Hrun & Ht & Hs & Hd & _).
  exists h1, h'. split; [ reflexivity | ]. split; [ exact Hrun | ].
  split; [ exact Ht | ]. split; [ exact Hs | ].
  split.
  - intros E. rewrite E in Hd. exact Hd.
  - intros d E. rewrite E in Hd. exact Hd.
Qed.

Lemma duration_after_update_witness :
  exists h',
    updates ([statusContext Crashed] ++ [emptyContext]) sampleHeap = (Normal tt, h')
    /\ duration (this h') = timestamp (this h') - started (this h').
Proof.
  destruct (duration_after_update sampleHeap [statusContext Crashed] emptyContext)
    as (h1 & h' & _ & Hrun & _ & _ & Hnone & _).
  exists h'. split; [ exact Hrun | apply Hnone; reflexivity ].
Defined.

(** ** The [sid] of a session *)

Lemma update_sid_run (context : SessionContext) (h : Heap Session) :
  exists h',
    Session.update context h = (Normal tt, h')
    /\ sid (this h') =
         match c_sid context with
         | Some s =>
             if truthyString s
             then if Nat.eqb (String.length s) 32 then s
                  else uuid4_of (entropy (world h) (draws (world h)))
             else sid (this h)
         | None => sid (this h)
         end
    /\ draws (world h') =
         (if regeneratesSid context then S (draws (world h)) else draws (world h)).
Proof.
  pose proof (update_sid context h h eq_refl) as H1.
  pose proof (update_draws context h h eq_refl) as H2.
  unfold wp in *.
  destruct (Session.update context h) as [[[] | e] h']; [ | tauto ].
  exists h'. auto.
Qed.

Lemma update_keeps_sid_length (context : SessionContext) (h : Heap Session) r h' :
  String.length (sid (this h)) = 32%nat ->
  Session.update context h = (r, h') ->
  String.length (sid (this h')) = 32%nat.
Proof.
  intros Hlen Hrun.
  destruct (update_sid_run context h) as (h1 & Hrun1 & Hsid & _).
  rewrite Hrun in Hrun1. injection Hrun1 as _ <-.
  rewrite Hsid. destruct (c_sid context) as [ s | ]; [ | exact Hlen ].
  destruct (truthyString s); [ | exact Hlen ].
  destruct (Nat.eqb (String.length s) 32) eqn:E.
  - apply Nat.eqb_eq. exact E.
  - apply uuid4_of_length.
Qed.

Lemma reachable_sid_length (h : Heap Session) :
  reachable h -> String.length (sid (this h)) = 32%nat.
Proof.
  induction 1 as [ context w r h Hnew | o h r h' _ IH Hrun | s w w' _ IH ].
  - unfold Session.new, Session.fieldInitializers in Hnew. cbn in Hnew.
    destruct context as [ c | ].
    + eapply update_keeps_sid_length; [ | exact Hnew ]. apply uuid4_of_length.
    + injection Hnew as _ <-. apply uuid4_of_length.
  - destruct o as [ context | st ]; cbn [runOp] in Hrun.
    + eapply update_keeps_sid_length; eauto.
    + unfold Session.close in Hrun. destruct st as [ st | ].
      * eapply update_keeps_sid_length; eauto.
      * unfold bind, getThis, gets in Hrun.
        destruct (SessionStatus_eqb (status (this h)) Ok);
          eapply update_keeps_sid_length; eauto.
  - exact IH.
Qed.

(** C6, the claim at the context [{ sid: '' }]: the [sid] supplied is not of
    length 32, and [update] generates no id; the session keeps the [sid] it
    had, which is not the id that [uuid4] would have returned. *)
Lemma empty_sid_is_not_regenerated :
  c_sid emptySidContext = Some EmptyString
  /\ String.length EmptyString <> 32%nat
  /\ exists h',
       Session.update emptySidContext sampleHeap = (Normal tt, h')
       /\ sid (this h') = sid (this sampleHeap)
       /\ draws (world h') = draws (world sampleHeap)
       /\ sid (this h') <>
            uuid4_of (entropy (world sampleHeap) (draws (world sampleHeap))).
Proof.
  split; [ reflexivity | ]. split; [ discriminate | ].
  eexists. split; [ reflexivity | ].
  split; [ reflexivity | ]. split; [ reflexivity | ].
  vm_compute. discriminate.
Qed.

(** C6, amended. On a session made by the constructor and the methods,
    [update] returns and leaves a [sid] of 32 characters: a non-empty
    [context.sid] is taken as it is when its length is 32 and is replaced by
    a fresh id of [uuid4] otherwise, and with an empty [context.sid] or none
    the session keeps its [sid] and no id is generated. *)
Theorem sid_after_update (h : Heap Session) (context : SessionContext) :
  reachable h ->
  exists h',
    Session.update context h = (Normal tt, h')
    /\ String.length (sid (this h')) = 32%nat
    /\ (forall s, c_sid context = Some s -> String.length s = 32%nat ->
        sid (this h') = s)
    /\ (forall s, c_sid context = Some s -> String.length s <> 32%nat ->
        sid (this h') <> s)
    /\ (forall s, c_sid context = Some s -> s <> EmptyString -> String.length s <> 32%nat ->
        sid (this h') = uuid4_of (entropy (world h) (draws (world h)))
        /\ draws (world h') = S (draws (world h)))
    /\ (c_sid context = None \/ c_sid context = Some EmptyString ->
        sid (this h') = sid (this h) /\ draws (world h') = draws (world h)).
Proof.
  intros Hreach.
  pose proof (reachable_sid_length h Hreach) as Hlen.
  destruct (update_sid_run context h) as (h' & Hrun & Hsid & Hdraws).
  pose proof (update_keeps_sid_length context h _ _ Hlen Hrun) as Hlen'.
  exists h'. split; [ exact Hrun | ]. split; [ exact Hlen' | ].
  unfold regeneratesSid in Hdraws.
  repeat split.
  - intros s E L. rewrite E in Hsid.
    destruct s as [ | a s ]; [ discriminate L | ].
    cbn [truthyString] in Hsid. rewrite L in Hsid. exact Hsid.
  - intros s E L Heq. rewrite Heq in Hlen'. contradiction.
  - rewrite H in Hsid. destruct s as [ | a s ]; [ congruence | ].
    cbn [truthyString] in Hsid.
    destruct (Nat.eqb (String.length (String a s)) 32) eqn:E32;
      [ apply Nat.eqb_eq in E32; contradiction | exact Hsid ].
  - rewrite H in Hdraws. destruct s as [ | a s ]; [ congruence | ].
    cbn [truthyString] in Hdraws.
    destruct (Nat.eqb (String.length (String a s)) 32) eqn:E32;
      [ apply Nat.eqb_eq in E32; contradiction | exact Hdraws ].
  - destruct H as [ E | E ]; rewrite E in Hsid; exact Hsid.
  - destruct H as [ E | E ]; rewrite E in Hdraws; exact Hdraws.
Qed.

Lemma sampleHeap_reachable : reachable sampleHeap.
Proof. eapply (reach_new None sampleWorld). apply surjective_pairing. Qed.

Lemma sid_after_update_witness :
  reachable sampleHeap
  /\ (exists h',
        Session.update wellFormedSidContext sampleHeap = (Normal tt, h')
        /\ sid (this h') = "0123456789abcdef0123456789abcdef"
        /\ String.length (sid (this h')) = 32%nat)
  /\ (exists h',
        Session.update shortSidContext sampleHeap = (Normal tt, h')
        /\ sid (this h') <> "abc"
        /\ sid (this h')
           = uuid4_of (entropy (world sampleHeap) (draws (world sampleHeap)))
        /\ draws (world h') = S (draws (world sampleHeap))
        /\ String.length (sid (this h')) = 32%nat)
  /\ (exists h',
        Session.update emptySidContext sampleHeap = (Normal tt, h')
        /\ sid (this h') = sid (this sampleHeap)
        /\ draws (world h') = draws (world sampleHeap)
        /\ String.length (sid (this h')) = 32%nat)
  /\ (exists h',
        Session.update emptyContext sampleHeap = (Normal tt, h')
        /\ sid (this h') = sid (this sampleHeap)
        /\ String.length (sid (this h')) = 32%nat).
Proof.
  split; [ exact sampleHeap_reachable | ].
  split; [ | split; [ | split ] ].
  - destruct (sid_after_update sampleHeap wellFormedSidContext sampleHeap_reachable)
      as (h' & Hrun & Hlen & Htaken & _).
    exists h'. split; [ exact Hrun | ]. split; [ | exact Hlen ].
    apply Htaken; reflexivity.
  - destruct (sid_after_update sampleHeap shortSidContext sampleHeap_reachable)
      as (h' & Hrun & Hlen & _ & Hother & Hfresh & _).
    exists h'. split; [ exact Hrun | ].
    split; [ apply Hother; [ reflexivity | discriminate ] | ].
    destruct (Hfresh "abc" eq_refl) as (Hsid & Hdraws); [ discriminate | discriminate | ].
    split; [ exact Hsid | ]. split; [ exact Hdraws | exact Hlen ].
  - destruct (sid_after_update sampleHeap emptySidContext sampleHeap_reachable)
      as (h' & Hrun & Hlen & _ & _ & _ & Hkept).
    exists h'. split; [ exact Hrun | ].
    destruct (Hkept (or_intror eq_refl)) as (Hsid & Hdraws).
    split; [ exact Hsid | ]. split; [ exact Hdraws | exact Hlen ].
  - destruct (sid_after_update sampleHeap emptyContext sampleHeap_reachable)
      as (h' & Hrun & Hlen & _ & _ & _ & Hkept).
    exists h'. split; [ exact Hrun | ].
    destruct (Hkept (or_introl eq_refl)) as (Hsid & _).
    split; [ exact Hsid | exact Hlen ].
Defined.

(** ** The [did] of a session and the user of a context *)

Lemma update_did_run (context : SessionContext) (h : Heap Session) :
  exists h',
    Session.update context h = (Normal tt, h')
    /\ did (this h') =
         if truthy (c_did context) then PStr (ToString (c_did context))
         else match c_user context with
              | Some user => jsOr (jsOr (id user) (email user)) (username user)
              | None => did (this h)
              end.
Proof.
  pose proof (update_did context h h eq_refl) as H1.
  unfold wp in *.
  destruct (Session.update context h) as [[[] | e] h']; [ | tauto ].
  exists h'. auto.
Qed.

(** C10, the claim at the user [{ username: '' }]: the session has a [did],
    the context has a user and no [did], none of the user's [id], [email]
    and [username] is truthy, and after [update] the [did] is the empty
    string, not [undefined]. *)
Lemma did_becomes_empty_username :
  did (this identifiedHeap) = PStr "user-1"
  /\ c_did (userContext unnamedUser) = PUndefined
  /\ truthy (id unnamedUser) = false
  /\ truthy (email unnamedUser) = false
  /\ truthy (username unnamedUser) = false
  /\ exists h',
       Session.update (userContext unnamedUser) identifiedHeap = (Normal tt, h')
       /\ did (this h') = PStr EmptyString
       /\ did (this h') <> PUndefined.
Proof.
  repeat (split; [ reflexivity | ]).
  eexists. split; [ reflexivity | ].
  split; [ reflexivity | discriminate ].
Qed.

(** C10, amended. When the context has a user and no truthy [did], and none
    of the user's [id], [email] and [username] is truthy, [update] returns
    and the [did] of the session is the value of [user.username], whatever
    the [did] was before: [undefined] when the user has no [username], and
    else the falsy [username] itself. *)
Theorem did_overwritten_by_falsy_user (h : Heap Session) (context : SessionContext)
        (user : User) :
  c_user context = Some user ->
  truthy (c_did context) = false ->
  truthy (id user) = false ->
  truthy (email user) = false ->
  truthy (username user) = false ->
  exists h',
    Session.update context h = (Normal tt, h')
    /\ did (this h') = username user
    /\ truthy (did (this h')) = false
    /\ (username user = PUndefined -> did (this h') = PUndefined).
Proof.
  intros Huser Hdid Hid Hemail Hname.
  destruct (update_did_run context h) as (h' & Hrun & Hd).
  exists h'. split; [ exact Hrun | ].
  rewrite Hdid, Huser in Hd. unfold jsOr in Hd.
  rewrite Hid, Hemail in Hd.
  split; [ exact Hd | ]. split; [ rewrite Hd; exact Hname | ].
  intros E. rewrite Hd. exact E.
Qed.

Lemma did_overwritten_by_falsy_user_witness :
  exists h',
    Session.update (userContext unnamedUser) identifiedHeap = (Normal tt, h')
    /\ did (this h') = PStr EmptyString.
Proof.
  destruct (did_overwritten_by_falsy_user identifiedHeap
              (userContext unnamedUser) unnamedUser
              eq_refl eq_refl eq_refl eq_refl eq_refl)
    as (h' & Hrun & Hd & _).
  exists h'. split; [ exact Hrun | exact Hd ].
Defined.

(** ** The sign of [duration] *)

Lemma sampleWorld_monotone : monotoneClock sampleWorld.
Proof. intros i j Hij. cbn. lia. Qed.

(** C9, the claim on a clock that only advances: a new session updated with
    [{ duration: -5 }] has the duration -5, a new session updated with a
    [started] later than the reading of the clock has a negative duration,
    and so has one updated with a [timestamp] earlier than its [started]. *)
Lemma duration_negative_on_monotone_clock :
  monotoneClock sampleWorld
  /\ Session.new None sampleWorld = (Normal tt, sampleHeap)
  /\ (exists h,
        runOps [OpUpdate negativeDurationContext] sampleHeap = (Normal tt, h)
        /\ duration (this h) = -5)
  /\ (exists h,
        runOps [OpUpdate laterStartContext] sampleHeap = (Normal tt, h)
        /\ duration (this h) = -7875)
  /\ (exists h,
        runOps [OpUpdate earlierTimestampContext] sampleHeap = (Normal tt, h)
        /\ duration (this h) = -662124).
Proof.
  split; [ exact sampleWorld_monotone | ].
  split; [ reflexivity | ].
  split; [ | split ]; eexists; (split; [ reflexivity | reflexivity ]).
Qed.

Section DurationSign.
Variable w : World.
Hypothesis clock_monotone : monotoneClock w.

Lemma update_timely (context : SessionContext) (h : Heap Session) :
  inTime context h = true -> timely w h ->
  exists h', Session.update context h = (Normal tt, h') /\ timely w h'.
Proof.
  unfold inTime. intros Hk (Hclock & Hstart & Hdur).
  apply andb_prop in Hk as [Hs Hd].
  destruct (update_run context h)
    as (h' & Hrun & Hts & Hst & Hdu & _ & Hc & Hti & _).
  exists h'. split; [ exact Hrun | ].
  assert (Hticks : (ticks (world h) <= ticks (world h'))%nat).
  { rewrite Hti. destruct (truthyOptNum (c_timestamp context)); lia. }
  assert (Hnow : started (this h') <= clock w (ticks (world h))).
  { rewrite Hst. destruct (c_started context) as [ s | ].
    - apply Z.leb_le in Hs. rewrite Hclock in Hs. exact Hs.
    - apply Hstart. lia. }
  unfold timely. rewrite Hc, Hclock.
  split; [ reflexivity | ]. split.
  - intros j Hj.
    apply Z.le_trans with (1 := Hnow). apply clock_monotone. lia.
  - rewrite Hdu. destruct (c_duration context) as [ d | ].
    + apply Z.leb_le. exact Hd.
    + rewrite Hts. unfold effectiveTimestamp. rewrite Hclock.
      destruct (c_timestamp context) as [ t | ]; [ | lia ].
      destruct (t =? 0); [ lia | ].
      apply Z.leb_le in Hd. rewrite Hst.
      destruct (c_started context); lia.
Qed.

Lemma keepsTime_inTime (context : SessionContext) (h : Heap Session) :
  keepsTime context = true -> inTime context h = true.
Proof.
  unfold keepsTime, inTime, truthyOptNum. intros Hk.
  apply andb_prop in Hk as [Hk Hd]. apply andb_prop in Hk as [Hs Ht].
  destruct (c_started context); [ discriminate | ].
  destruct (c_duration context); [ exact Hd | ].
  destruct (c_timestamp context) as [ t | ]; [ | reflexivity ].
  destruct (t =? 0); [ reflexivity | discriminate ].
Qed.

Lemma close_is_update (st : option SessionStatus) (h : Heap Session) :
  exists context,
    keepsTime context = true /\ Session.close st h = Session.update context h.
Proof.
  unfold Session.close. destruct st as [ st | ].
  - exists (statusContext st). split; reflexivity.
  - unfold bind, getThis, gets.
    destruct (SessionStatus_eqb (status (this h)) Ok).
    + exists (statusContext Exited). split; reflexivity.
    + exists emptyContext. split; reflexivity.
Qed.

Lemma runOp_timely (o : Op) (h : Heap Session) :
  opInTime o h = true -> timely w h ->
  exists h', runOp o h = (Normal tt, h') /\ timely w h'.
Proof.
  destruct o as [ context | st ]; cbn [opInTime runOp]; intros Hk Ht.
  - apply update_timely; assumption.
  - destruct (close_is_update st h) as (context & Hc & ->).
    apply update_timely; [ apply keepsTime_inTime; exact Hc | exact Ht ].
Qed.

Lemma runOps_timely (ops : list Op) (h : Heap Session) (n : nat) :
  opsInTime ops h -> timely w h ->
  exists h', runOps (firstn n ops) h = (Normal tt, h') /\ timely w h'.
Proof.
  revert h n.
  induction ops as [ | o rest IH ]; intros h n Hops Ht.
  - rewrite firstn_nil. exists h. split; [ reflexivity | exact Ht ].
  - destruct n as [ | n ].
    + exists h. split; [ reflexivity | exact Ht ].
    + destruct Hops as (Ho & Hrest).
      cbn [firstn runOps]. unfold bind.
      destruct (runOp_timely o h Ho Ht) as (h1 & Hrun & Ht1).
      rewrite Hrun in *. cbn [snd] in Hrest.
      apply IH; assumption.
Qed.

Lemma freshHeap_timely : timely w (freshHeap w).
Proof.
  unfold freshHeap, Session.new, Session.fieldInitializers, timely. cbn.
  split; [ reflexivity | ]. split; [ | lia ].
  intros j Hj. apply clock_monotone. lia.
Qed.

Lemma new_timely (context : option SessionContext) :
  (forall c, context = Some c -> inTime c (freshHeap w) = true) ->
  exists h, Session.new context w = (Normal tt, h) /\ timely w h.
Proof.
  intros Hc. destruct context as [ c | ].
  - change (Session.new (Some c) w) with (Session.update c (freshHeap w)).
    apply update_timely; [ apply Hc; reflexivity | exact freshHeap_timely ].
  - exists (freshHeap w). split; [ reflexivity | exact freshHeap_timely ].
Qed.

(** The contexts of the former condition are among those of [inTime]. *)
Lemma keepsTime_opsInTime (ops : list Op) (h : Heap Session) :
  Forall (fun o => opKeepsTime o = true) ops -> opsInTime ops h.
Proof.
  intros Hops. revert h.
  induction Hops as [ | o rest Ho _ IH ]; intros h; cbn [opsInTime].
  - exact I.
  - split; [ | apply IH ].
    destruct o as [ context | st ]; cbn [opKeepsTime opInTime] in *;
      [ apply keepsTime_inTime; exact Ho | reflexivity ].
Qed.

End DurationSign.

(** C9, amended. On a clock that never moves backwards, the constructor and
    every call of [update] and [close] return, and the [duration] of the
    session is not negative after the constructor and after each call, when
    every context given to the constructor and to [update] is in time for
    the session it is given to: the [started] it supplies is not later than
    the next reading of the clock, the [duration] it supplies is not
    negative, and, when it supplies no [duration], the truthy [timestamp] it
    supplies is not earlier than the [started] of the context or, the
    context having none, of the session. A context that supplies none of the
    three is in time, and so are the contexts of [close]. The numbers are
    integers. *)
Theorem duration_nonnegative (w : World) (context : option SessionContext)
        (ops : list Op) :
  monotoneClock w ->
  (forall c, context = Some c -> inTime c (freshHeap w) = true) ->
  opsInTime ops (snd (Session.new context w)) ->
  exists h0,
    Session.new context w = (Normal tt, h0)
    /\ 0 <= duration (this h0)
    /\ forall n : nat,
         exists h,
           runOps (firstn n ops) h0 = (Normal tt, h) /\ 0 <= duration (this h).
Proof.
  intros Hmono Hctx Hops.
  destruct (new_timely w Hmono context Hctx) as (h0 & Hnew & Ht0).
  rewrite Hnew in Hops. cbn [snd] in Hops.
  exists h0. split; [ exact Hnew | ]. split; [ apply Ht0 | ].
  intros n.
  destruct (runOps_timely w Hmono ops h0 n Hops Ht0) as (h & Hrun & Ht).
  exists h. split; [ exact Hrun | apply Ht ].
Qed.

Lemma duration_nonnegative_witness :
  exists h0,
    Session.new None sampleWorld = (Normal tt, h0)
    /\ (exists h,
          runOps [OpUpdate earlierStartContext] h0 = (Normal tt, h)
          /\ 0 <= duration (this h))
    /\ (exists h,
          runOps [OpUpdate earlierStartContext; OpUpdate laterTimestampContext] h0
          = (Normal tt, h)
          /\ 0 <= duration (this h))
    /\ (exists h,
          runOps [OpUpdate earlierStartContext; OpUpdate laterTimestampContext;
                  OpUpdate emptyContext; OpClose None] h0
          = (Normal tt, h)
          /\ 0 <= duration (this h)).
Proof.
  destruct (duration_nonnegative sampleWorld None
              [OpUpdate earlierStartContext; OpUpdate laterTimestampContext;
               OpUpdate emptyContext; OpClose None])
    as (h0 & Hnew & _ & Hall).
  - intros i j Hij. cbn. lia.
  - intros c Hc. discriminate Hc.
  - cbn [opsInTime]. repeat split; vm_compute; reflexivity.
  - exists h0. split; [ exact Hnew | ].
    split; [ exact (Hall 1%nat) | ].
    split; [ exact (Hall 2%nat) | exact (Hall 4%nat) ].
Defined.

(** ** The object that [toJSON] returns *)

(** Induction on values, with the hypothesis for every value of a property
    of an object. *)
Lemma JsValue_nested_ind (P : JsValue -> Prop) :
  P JUndefined ->
  (forall b, P (JBool b)) ->
  (forall n, P (JNum n)) ->
  (forall s, P (JStr s)) ->
  (forall props, Forall (fun kv => P (snd kv)) props -> P (JObject props)) ->
  forall v, P v.
Proof.
  intros P_undefined P_bool P_num P_str P_object.
  fix rec 1. intros v.
  destruct v as [ | b | n | s | props ];
    [ exact P_undefined | apply P_bool | apply P_num | apply P_str | ].
  apply P_object.
  induction props as [ | kv rest IH ]; constructor; [ apply rec | exact IH ].
Qed.

Lemma dropUndefinedKeys_clean (v : JsValue) :
  hasUndefinedKey (dropUndefinedKeys v) = false.
Proof.
  induction v as [ | b | n | s | props IH ] using JsValue_nested_ind;
    try reflexivity.
  cbn [dropUndefinedKeys hasUndefinedKey].
  induction IH as [ | [k x] rest Hx _ IHrest ]; [ reflexivity | ].
  cbn [snd] in Hx.
  destruct x as [ | b | n | s | inner ]; try exact IHrest.
  rewrite IHrest. rewrite Hx. reflexivity.
Qed.

Lemma Normal_inj {A : Type} (a b : A) : Normal a = Normal b -> a = b.
Proof. intros H. injection H as H. exact H. Qed.

Lemma validTime_toISOString (t : Z) :
  JSDate.validTime t = true -> JSDate.toISOString t = Some (JSDate.isoFormat t).
Proof. unfold JSDate.toISOString. intros ->. reflexivity. Qed.

(** C7. [toJSON] returns an object when [started] and [timestamp] are valid
    time values. In the object it returns no key has the value [undefined],
    neither at the top nor inside [attrs]; the key [did] is there with the
    string of [did] when [did] is a string or a number, and is not there
    otherwise. *)
Theorem toJSON_has_no_undefined_key (s : Session) :
  (JSDate.validTime (started s) = true ->
   JSDate.validTime (timestamp s) = true ->
   exists o, Session.toJSON s = Normal o)
  /\ forall o,
       Session.toJSON s = Normal o ->
       hasUndefinedKey o = false
       /\ (exists a, getProp "attrs" o = Some a /\ hasUndefinedKey a = false)
       /\ getProp "did" o =
            (if isNumberOrString (did s)
             then Some (JStr (ToString (did s))) else None).
Proof.
  unfold Session.toJSON. split.
  - intros Hs Ht.
    rewrite (validTime_toISOString _ Hs), (validTime_toISOString _ Ht).
    eexists. reflexivity.
  - intros o Ho.
    destruct (JSDate.toISOString (started s)) as [ startedIso | ]; [ | discriminate ].
    destruct (JSDate.toISOString (timestamp s)) as [ timestampIso | ]; [ | discriminate ].
    match type of Ho with
    | Normal (dropUndefinedKeys ?x) = _ => set (literal := x) in Ho
    end.
    apply Normal_inj in Ho. rewrite <- Ho.
    split; [ apply dropUndefinedKeys_clean | ].
    split.
    + exists (dropUndefinedKeys
                (dropUndefinedKeys
                   (JObject
                      [ ("release", ofOptString (release s));
                        ("environment", ofOptString (environment s));
                        ("ip_address", ofOptString (ipAddress s));
                        ("user_agent", ofOptString (userAgent s)) ]))).
      split; [ | apply dropUndefinedKeys_clean ].
      subst literal. destruct (isNumberOrString (did s)); reflexivity.
    + subst literal. destruct (isNumberOrString (did s)); reflexivity.
Qed.

Lemma toJSON_has_no_undefined_key_witness :
  exists o,
    Session.toJSON (this sampleHeap) = Normal o
    /\ hasUndefinedKey o = false
    /\ getProp "did" o = None.
Proof.
  destruct (toJSON_has_no_undefined_key (this sampleHeap)) as [Hreturns Hobject].
  destruct (Hreturns eq_refl eq_refl) as (o & Ho).
  exists o. split; [ exact Ho | ].
  destruct (Hobject o Ho) as (Hclean & _ & Hdid).
  split; [ exact Hclean | exact Hdid ].
Defined.

(* ===================================================================== *)
(** * Facts about tables                                                  *)
(* ===================================================================== *)

Section TableFacts.
Context {V : Type}.
Implicit Types (o : JsObject.t V) (k : Z) (v : V).

Lemma get_set_same k v o : JsObject.get k (JsObject.set k v o) = Some v.
Proof.
  induction o as [ | [k' v'] rest IH ]; cbn.
  - rewrite Z.eqb_refl. reflexivity.
  - destruct (k =? k') eqn:E; cbn; rewrite ?Z.eqb_refl, ?E; auto.
Qed.

Lemma get_set_other k k' v o :
  k <> k' -> JsObject.get k' (JsObject.set k v o) = JsObject.get k' o.
Proof.
  intros Hne. induction o as [ | [k0 v0] rest IH ]; cbn.
  - destruct (k' =? k) eqn:E; [ apply Z.eqb_eq in E; congruence | reflexivity ].
  - destruct (k =? k0) eqn:E; cbn.
    + apply Z.eqb_eq in E. subst k0.
      destruct (k' =? k) eqn:E'; [ apply Z.eqb_eq in E'; congruence | reflexivity ].
    + destruct (k' =? k0); auto.
Qed.

Lemma set_set k v v' o :
  JsObject.set k v' (JsObject.set k v o) = JsObject.set k v' o.
Proof.
  induction o as [ | [k0 v0] rest IH ]; cbn.
  - rewrite Z.eqb_refl. reflexivity.
  - destruct (k =? k0) eqn:E; cbn; rewrite ?Z.eqb_refl, ?E, ?IH; reflexivity.
Qed.

Lemma alter_set (f : V -> V) k v o :
  JsObject.alter f k (JsObject.set k v o) = JsObject.set k (f v) o.
Proof. unfold JsObject.alter. rewrite get_set_same. apply set_set. Qed.

Lemma set_keys_in k v o k0 :
  In k0 (map fst (JsObject.set k v o)) <-> k0 = k \/ In k0 (map fst o).
Proof.
  induction o as [ | [k' v'] rest IH ]; cbn.
  - intuition.
  - destruct (k =? k') eqn:E; cbn.
    + apply Z.eqb_eq in E. subst k'. intuition.
    + rewrite IH. intuition.
Qed.

(** Writing to a table keeps its keys distinct. *)
Lemma set_NoDup k v o :
  NoDup (map fst o) -> NoDup (map fst (JsObject.set k v o)).
Proof.
  induction o as [ | [k' v'] rest IH ]; cbn; intros Hnd.
  - constructor; [ intros [] | constructor ].
  - inversion Hnd as [ | ? ? Hnotin Hrest ]; subst.
    destruct (k =? k') eqn:E; cbn.
    + apply Z.eqb_eq in E. subst k'. constructor; assumption.
    + constructor; [ | apply IH; assumption ].
      rewrite set_keys_in. intros [ -> | Hin ]; [ | contradiction ].
      rewrite Z.eqb_refl in E. discriminate.
Qed.

Lemma get_In k v o :
  NoDup (map fst o) -> In (k, v) o -> JsObject.get k o = Some v.
Proof.
  induction o as [ | [k' v'] rest IH ]; cbn; intros Hnd Hin; [ contradiction | ].
  inversion Hnd as [ | ? ? Hnotin Hrest ]; subst.
  destruct Hin as [ Heq | Hin ].
  - injection Heq as -> ->. rewrite Z.eqb_refl. reflexivity.
  - destruct (k =? k') eqn:E.
    + apply Z.eqb_eq in E. subst k'. exfalso. apply Hnotin.
      change k with (fst (k, v)). apply in_map. exact Hin.
    + apply IH; assumption.
Qed.

Lemma insertAsc_perm (e : Z * V) (l : list (Z * V)) :
  Permutation (e :: l) (JsObject.insertAsc e l).
Proof.
  induction l as [ | e' rest IH ]; cbn.
  - apply Permutation_refl.
  - destruct (fst e <=? fst e').
    + apply Permutation_refl.
    + eapply perm_trans; [ apply perm_swap | apply perm_skip; exact IH ].
Qed.

Lemma sortAsc_perm (l : list (Z * V)) : Permutation l (JsObject.sortAsc l).
Proof.
  induction l as [ | e rest IH ]; cbn.
  - apply perm_nil.
  - eapply perm_trans; [ apply perm_skip; exact IH | apply insertAsc_perm ].
Qed.

Lemma filter_split_perm (p : Z * V -> bool) (l : list (Z * V)) :
  Permutation l (filter p l ++ filter (fun e => negb (p e)) l).
Proof.
  induction l as [ | e rest IH ]; cbn.
  - apply perm_nil.
  - destruct (p e); cbn.
    + apply perm_skip. exact IH.
    + apply Permutation_cons_app. exact IH.
Qed.

Lemma insertAsc_sorted (e : Z * V) (l : list (Z * V)) :
  Sorted (fun a b => fst a <= fst b) l ->
  Sorted (fun a b => fst a <= fst b) (JsObject.insertAsc e l).
Proof.
  induction l as [ | a rest IH ]; cbn [JsObject.insertAsc]; intros Hs.
  - repeat constructor.
  - destruct (fst e <=? fst a) eqn:E.
    + constructor; [ exact Hs | constructor; apply Z.leb_le; exact E ].
    + apply Z.leb_gt in E. inversion Hs as [ | ? ? Hrest Hhd ]; subst.
      constructor; [ apply IH; exact Hrest | ].
      destruct rest as [ | b rest' ]; cbn [JsObject.insertAsc].
      * constructor. lia.
      * inversion Hhd; subst.
        destruct (fst e <=? fst b); constructor; [ lia | assumption ].
Qed.

(** The array indices come in ascending order. *)
Lemma sortAsc_sorted (l : list (Z * V)) :
  Sorted (fun a b => fst a <= fst b) (JsObject.sortAsc l).
Proof.
  induction l as [ | e rest IH ]; cbn.
  - constructor.
  - apply insertAsc_sorted. exact IH.
Qed.

(** The enumeration of a table lists its properties, each once. *)
Lemma ownProperties_perm o : Permutation o (JsObject.ownProperties o).
Proof.
  unfold JsObject.ownProperties.
  eapply perm_trans; [ apply (filter_split_perm (fun e => JsObject.isArrayIndex (fst e))) | ].
  apply Permutation_app_tail. apply sortAsc_perm.
Qed.

Lemma keys_length o : List.length (JsObject.keys o) = List.length o.
Proof.
  unfold JsObject.keys. rewrite length_map.
  symmetry. apply Permutation_length. apply ownProperties_perm.
Qed.

(** Indexing the table by each of its keys gives the values of its
    properties, in the order of the enumeration. *)
Lemma get_keys o :
  NoDup (map fst o) ->
  map (fun key => JsObject.get key o) (JsObject.keys o)
  = map (fun e => Some (snd e)) (JsObject.ownProperties o).
Proof.
  intros Hnd. unfold JsObject.keys. rewrite map_map.
  apply map_ext_in. intros [k v] Hin. cbn.
  apply get_In; [ exact Hnd | ].
  eapply Permutation_in; [ apply Permutation_sym, ownProperties_perm | exact Hin ].
Qed.

Lemma filter_all (p : Z * V -> bool) (l : list (Z * V)) :
  (forall e, In e l -> p e = true) -> filter p l = l.
Proof.
  induction l as [ | e rest IH ]; cbn; intros H; [ reflexivity | ].
  rewrite (H e (or_introl eq_refl)). f_equal. apply IH. intros e' He'. apply H. auto.
Qed.

Lemma filter_none (p : Z * V -> bool) (l : list (Z * V)) :
  (forall e, In e l -> p e = false) -> filter p l = [].
Proof.
  induction l as [ | e rest IH ]; cbn; intros H; [ reflexivity | ].
  rewrite (H e (or_introl eq_refl)). apply IH. intros e' He'. apply H. auto.
Qed.

(** With no array index among the keys, the enumeration is the order of
    creation. *)
Lemma ownProperties_creation_order o :
  (forall k, In k (map fst o) -> JsObject.isArrayIndex k = false) ->
  JsObject.ownProperties o = o.
Proof.
  intros H. unfold JsObject.ownProperties.
  rewrite filter_none, filter_all; [ reflexivity | | ].
  - intros e He. rewrite H; [ reflexivity | ]. apply in_map. exact He.
  - intros e He. apply H. apply in_map. exact He.
Qed.

End TableFacts.

(* ===================================================================== *)
(** * What [incrementSessionCount] does                                   *)
(* ===================================================================== *)

Lemma incrementSessionCount_run (h : Heap SessionFlusher) :
  SessionFlusher.incrementSessionCount h =
    if truthyOptString (ac_started (bucketBefore h)) || JSDate.validTime (currentKey h)
    then
      match requestSessionOf h with
      | Some rs =>
          (Normal tt,
           mkHeap
             (set_pendingAggregates
                (JsObject.set (currentKey h) (counted h rs) (_pendingAggregates (this h)))
                (set_sessionAttrs (attrsAfter h) (this h)))
             (set_scope (Some (Some {| rs_status := None |}))
                (set_ticks (S (ticks (world h))) (world h))))
      | None =>
          (Normal tt,
           mkHeap
             (set_pendingAggregates
                (JsObject.set (currentKey h) (stamped h) (_pendingAggregates (this h)))
                (set_sessionAttrs (attrsAfter h) (this h)))
             (set_ticks (S (ticks (world h))) (world h)))
      end
    else
      (Throw (RangeError "Invalid time value"),
       mkHeap
         (set_pendingAggregates
            (JsObject.set (currentKey h) (bucketBefore h) (_pendingAggregates (this h)))
            (set_sessionAttrs (attrsAfter h) (this h)))
         (set_ticks (S (ticks (world h))) (world h))).
Proof.
  unfold SessionFlusher.incrementSessionCount, counted, stamped, requestSessionOf,
    attrsAfter, clientOptions, bucketBefore, currentKey.
  destruct h as [f w]. cbn [this world].
  unfold when, getThis, setThis, getWorld, setWorld, Date_now, liftW,
    bind, ret, gets, modify, throw, readClock.
  destruct f as [pa sa tr to].
  cbn [this world _pendingAggregates _sessionAttrs set_sessionAttrs
         set_pendingAggregates _transport flushTimeout].
  destruct sa as [ a | ];
    cbn -[JsObject.set JsObject.get JsObject.alter JSDate.toISOString
          SessionFlusher.sessionStartedTrunc];
    rewrite get_set_same; unfold JSDate.toISOString;
    generalize (SessionFlusher.sessionStartedTrunc (LocalTZA w) (clock w (ticks w)));
    intros key;
    generalize (match JsObject.get key pa with
                | Some bucket => bucket
                | None => emptyCounts
                end);
    intros b0;
    (destruct (truthyOptString (ac_started b0)) eqn:Estarted;
     cbn -[JsObject.set JsObject.get JsObject.alter];
     [ | destruct (JSDate.validTime key) eqn:Evalid;
         cbn -[JsObject.set JsObject.get JsObject.alter];
         [ rewrite alter_set | reflexivity ] ]);
    (destruct (scope w) as [ [ rs | ] | ];
     cbn -[JsObject.set JsObject.get JsObject.alter]; try reflexivity;
     destruct (match rs_status rs with
               | Some s => String.eqb s "errored"
               | None => false
               end);
     cbn -[JsObject.set JsObject.get JsObject.alter];
     rewrite alter_set; reflexivity).
Qed.

(* ===================================================================== *)
(** * Properties of [SessionFlusher]                                      *)
(* ===================================================================== *)

(** ** The key of a bucket *)

(** The day and the hour of a local time make the start of its hour. *)
Lemma MakeDate_hour (t : Z) :
  JSDate.MakeDate (JSDate.Day t) (JSDate.MakeTime (JSDate.HourFromTime t) 0 0 0)
  = t / JSDate.msPerHour * JSDate.msPerHour.
Proof.
  unfold JSDate.MakeDate, JSDate.MakeTime, JSDate.Day, JSDate.HourFromTime,
    JSDate.msPerDay, JSDate.msPerHour, JSDate.msPerMinute, JSDate.msPerSecond.
  assert (Hday : t / 86400000 = t / 3600000 / 24).
  { rewrite Z.div_div by lia. reflexivity. }
  pose proof (Z.div_mod (t / 3600000) 24 ltac:(lia)) as Hmod.
  lia.
Qed.

(** The key of the code is the start of the hour of local time, taken
    back to UTC. *)
Lemma sessionStartedTrunc_hour (tz : JSDate.TimeZone) (now : Z) :
  SessionFlusher.sessionStartedTrunc tz now
  = JSDate.UTC tz (JSDate.LocalTime tz now / JSDate.msPerHour * JSDate.msPerHour).
Proof.
  unfold SessionFlusher.sessionStartedTrunc, JSDate.setMinutes.
  cbv zeta. rewrite MakeDate_hour. reflexivity.
Qed.

(** In a zone of constant offset. *)
Lemma sessionStartedTrunc_fixed (tza now : Z) :
  SessionFlusher.sessionStartedTrunc (JSDate.fixedZone tza) now
  = (now + tza) / JSDate.msPerHour * JSDate.msPerHour - tza.
Proof. rewrite sessionStartedTrunc_hour. reflexivity. Qed.

(** In a zone of constant offset the key lies in the hour that ends at the
    reading, so it is a valid time value for every reading of the clock that
    is one, the first hour of the range of [Date] apart. *)
Lemma sessionStartedTrunc_valid (tza now : Z) :
  - JSDate.maxTime + JSDate.msPerHour <= now <= JSDate.maxTime ->
  JSDate.validTime (SessionFlusher.sessionStartedTrunc (JSDate.fixedZone tza) now)
  = true.
Proof.
  intros Hnow. rewrite sessionStartedTrunc_fixed.
  unfold JSDate.validTime, JSDate.maxTime, JSDate.msPerHour in *.
  pose proof (Z.div_mod (now + tza) 3600000 ltac:(lia)) as Hdiv.
  pose proof (Z.mod_pos_bound (now + tza) 3600000 ltac:(lia)) as Hmod.
  apply andb_true_iff. split; apply Z.leb_le; lia.
Qed.

(** C1, on the code. The key that [incrementSessionCount] computes is the
    key of the specification minus the minutes of the local time: the
    minutes are zeroed as well. This is an equation between the two keys in
    a zone of constant offset; in any zone it holds of the two local times
    that are taken back to UTC. At 2021-03-16T08:17:42.123Z (UTC) the bucket
    is created under 1615881600000 with [started] 08:00:00.000, where the
    reading with only seconds and milliseconds zeroed is 1615882620000,
    that is 08:17:00.000. *)
Theorem bucket_key_zeroes_the_minutes :
  (forall tza now,
     SessionFlusher.sessionStartedTrunc (JSDate.fixedZone tza) now
     = minuteKey (JSDate.fixedZone tza) now
       - JSDate.MinFromTime (JSDate.LocalTime (JSDate.fixedZone tza) now)
         * JSDate.msPerMinute)
  /\ (forall tz now,
        let t := JSDate.LocalTime tz now in
        let minute :=
          JSDate.MakeDate (JSDate.Day t)
            (JSDate.MakeTime (JSDate.HourFromTime t) (JSDate.MinFromTime t) 0 0) in
        minuteKey tz now = JSDate.UTC tz minute
        /\ SessionFlusher.sessionStartedTrunc tz now
           = JSDate.UTC tz (minute - JSDate.MinFromTime t * JSDate.msPerMinute))
  /\ clock sampleWorld (ticks sampleWorld) = 1615882662123
  /\ fst (SessionFlusher.incrementSessionCount sampleFlusher) = Normal tt
  /\ _pendingAggregates (this (snd (SessionFlusher.incrementSessionCount sampleFlusher)))
     = [ (1615881600000,
          {| ac_started := Some "2021-03-16T08:00:00.000Z"; ac_errored := Some 1;
             ac_exited := None; ac_crashed := None; ac_abnormal := None |}) ]
  /\ minuteKey (LocalTZA sampleWorld) 1615882662123 = 1615882620000
  /\ JSDate.toISOString 1615882620000 = Some "2021-03-16T08:17:00.000Z".
Proof.
  split; [ | split ].
  - intros tza now.
    unfold SessionFlusher.sessionStartedTrunc, minuteKey, JSDate.setMinutes,
      JSDate.setSeconds, JSDate.UTC, JSDate.LocalTime, JSDate.fixedZone,
      JSDate.MakeDate, JSDate.MakeTime.
    cbn [JSDate.offsetAtUTC JSDate.offsetAtLocal].
    lia.
  - intros tz now. cbv zeta. split; [ reflexivity | ].
    unfold SessionFlusher.sessionStartedTrunc, JSDate.setMinutes. cbv zeta.
    f_equal. unfold JSDate.MakeDate, JSDate.MakeTime. lia.
  - repeat split; vm_compute; reflexivity.
Qed.

(** ** Counting the request session *)

(** Two readings in the same minute of local time have the same key. *)
Lemma same_minute_same_key (tz : JSDate.TimeZone) (now1 now2 : Z) :
  JSDate.LocalTime tz now1 / JSDate.msPerMinute
  = JSDate.LocalTime tz now2 / JSDate.msPerMinute ->
  SessionFlusher.sessionStartedTrunc tz now1
  = SessionFlusher.sessionStartedTrunc tz now2.
Proof.
  intros Hminute. rewrite !sessionStartedTrunc_hour.
  unfold JSDate.msPerMinute, JSDate.msPerHour in *.
  assert (Hhour : forall t, t / 3600000 = t / 60000 / 60).
  { intros t. rewrite Z.div_div by lia. reflexivity. }
  rewrite (Hhour (JSDate.LocalTime tz now1)), (Hhour (JSDate.LocalTime tz now2)),
    Hminute.
  reflexivity.
Qed.

(** In a zone whose offset is a whole number of minutes, two readings in
    the same minute are in the same minute of local time. *)
Lemma same_minute_fixed (tza now1 now2 : Z) :
  (JSDate.msPerMinute | tza) ->
  now1 / JSDate.msPerMinute = now2 / JSDate.msPerMinute ->
  JSDate.LocalTime (JSDate.fixedZone tza) now1 / JSDate.msPerMinute
  = JSDate.LocalTime (JSDate.fixedZone tza) now2 / JSDate.msPerMinute.
Proof.
  intros [c ->] Hminute. unfold JSDate.LocalTime, JSDate.fixedZone.
  cbn [JSDate.offsetAtUTC]. unfold JSDate.msPerMinute in *.
  rewrite !Z.div_add by lia. rewrite Hminute. reflexivity.
Qed.

Lemma errored_test (rs : RequestSession) :
  match rs_status rs with
  | Some s => String.eqb s "errored"
  | None => false
  end = true <-> rs_status rs = Some "errored".
Proof.
  destruct (rs_status rs) as [ s | ].
  - rewrite String.eqb_eq. split; congruence.
  - split; discriminate.
Qed.

Lemma truthyString_append (a b : string) :
  truthyString (a ++ b) = truthyString a || truthyString b.
Proof. destruct a; reflexivity. Qed.

(** An ISO string is not empty, hence truthy. *)
Lemma isoFormat_truthy (t : Z) : truthyString (JSDate.isoFormat t) = true.
Proof.
  unfold JSDate.isoFormat. rewrite truthyString_append.
  rewrite (truthyString_append "-"). cbn [truthyString]. apply orb_true_r.
Qed.

(** The result of a call made with a request session in the scope and a
    valid key. *)
Lemma incrementSessionCount_counts (h : Heap SessionFlusher) (rs : RequestSession) :
  scope (world h) = Some (Some rs) ->
  JSDate.validTime (currentKey h) = true ->
  SessionFlusher.incrementSessionCount h =
    (Normal tt,
     mkHeap
       (set_pendingAggregates
          (JsObject.set (currentKey h) (counted h rs) (_pendingAggregates (this h)))
          (set_sessionAttrs (attrsAfter h) (this h)))
       (set_scope (Some (Some {| rs_status := None |}))
          (set_ticks (S (ticks (world h))) (world h)))).
Proof.
  intros Hscope Hvalid. rewrite incrementSessionCount_run.
  rewrite Hvalid, orb_true_r. unfold requestSessionOf. rewrite Hscope. reflexivity.
Qed.

(** A second call under the scope that the first call left. *)
Lemma incrementSessionCount_again
    (h : Heap SessionFlusher) (rs : RequestSession) :
  scope (world h) = Some (Some rs) ->
  JSDate.validTime (currentKey h) = true ->
  exists h1 first,
    SessionFlusher.incrementSessionCount h = (Normal tt, h1)
    /\ JsObject.get (currentKey h) (_pendingAggregates (this h1)) = Some first
    /\ forall w2 : World,
         scope w2 = scope (world h1) ->
         keyIn w2 = currentKey h ->
         exists h2 second,
           SessionFlusher.incrementSessionCount (mkHeap (this h1) w2) = (Normal tt, h2)
           /\ JsObject.get (currentKey h) (_pendingAggregates (this h2)) = Some second
           /\ ac_exited second = increment (ac_exited first)
           /\ ac_errored second = ac_errored first
           /\ ac_started second = ac_started first.
Proof.
  intros Hscope Hvalid.
  rewrite (incrementSessionCount_counts h rs Hscope Hvalid).
  eexists. exists (counted h rs). split; [ reflexivity | ].
  cbn [this world _pendingAggregates set_pendingAggregates scope set_scope].
  split; [ apply get_set_same | ].
  intros w2 Hscope2 Hkey2.
  set (f1 := set_pendingAggregates _ _).
  assert (Hk : currentKey (mkHeap f1 w2) = currentKey h) by exact Hkey2.
  assert (Hv : JSDate.validTime (currentKey (mkHeap f1 w2)) = true)
    by (rewrite Hk; exact Hvalid).
  rewrite (incrementSessionCount_counts (mkHeap f1 w2) {| rs_status := None |}
             Hscope2 Hv).
  eexists. exists (counted (mkHeap f1 w2) {| rs_status := None |}).
  split; [ reflexivity | ].
  cbn [this world _pendingAggregates set_pendingAggregates].
  rewrite Hk. split; [ apply get_set_same | ].
  assert (Hbefore : bucketBefore (mkHeap f1 w2) = counted h rs).
  { unfold bucketBefore. rewrite Hk. unfold f1.
    cbn [this _pendingAggregates set_pendingAggregates].
    rewrite get_set_same. reflexivity. }
  assert (Hstarted : truthyOptString (ac_started (counted h rs)) = true).
  { unfold counted, stamped.
    destruct (match rs_status rs with Some s => String.eqb s "errored" | None => false end);
      cbn [ac_started set_ac_errored set_ac_exited];
      destruct (truthyOptString (ac_started (bucketBefore h))) eqn:Hst;
      first [ exact Hst | apply isoFormat_truthy ]. }
  assert (Hsecond :
    counted (mkHeap f1 w2) {| rs_status := None |}
    = set_ac_exited (increment (ac_exited (counted h rs))) (counted h rs)).
  { unfold counted at 1. cbn [rs_status].
    unfold stamped. rewrite Hbefore, Hstarted. reflexivity. }
  rewrite Hsecond. repeat split.
Qed.

(** C2, the claim at a request session whose status is [undefined], on a
    new flusher, the scope being left alone between two calls: the first
    call counts the session as exited and leaves the scope as it was, and
    the second call counts the same session again. And at a request session
    whose status is ['errored'], two calls count the one session as one
    errored and one exited session. *)
Lemma request_session_is_counted_twice :
  let h1 := snd (SessionFlusher.incrementSessionCount statusLessFlusher) in
  let h2 := snd (SessionFlusher.incrementSessionCount h1) in
  let e1 := snd (SessionFlusher.incrementSessionCount sampleFlusher) in
  let e2 := snd (SessionFlusher.incrementSessionCount e1) in
  fst (SessionFlusher.incrementSessionCount statusLessFlusher) = Normal tt
  /\ fst (SessionFlusher.incrementSessionCount h1) = Normal tt
  /\ scope (world h1) = scope (world statusLessFlusher)
  /\ scope (world h2) = scope (world statusLessFlusher)
  /\ _pendingAggregates (this h1)
     = [ (1615881600000,
          {| ac_started := Some "2021-03-16T08:00:00.000Z"; ac_errored := None;
             ac_exited := Some 1; ac_crashed := None; ac_abnormal := None |}) ]
  /\ _pendingAggregates (this h2)
     = [ (1615881600000,
          {| ac_started := Some "2021-03-16T08:00:00.000Z"; ac_errored := None;
             ac_exited := Some 2; ac_crashed := None; ac_abnormal := None |}) ]
  /\ fst (SessionFlusher.incrementSessionCount e1) = Normal tt
  /\ _pendingAggregates (this e2)
     = [ (1615881600000,
          {| ac_started := Some "2021-03-16T08:00:00.000Z"; ac_errored := Some 1;
             ac_exited := Some 1; ac_crashed := None; ac_abnormal := None |}) ].
Proof. cbv zeta. repeat split; vm_compute; reflexivity. Qed.

(** C2, amended. A call of [incrementSessionCount] made with a request
    session in the scope (and a key that is a valid time value) returns; in
    the bucket of the key, [errored] is one more than before (1 when it was
    [undefined]) and [exited] is as before when the status of the request
    session is ['errored'], and otherwise [exited] is one more and
    [errored] is as before; the other buckets are as before; the status of
    the request session is [undefined] afterwards, and the session is still
    in the scope. So a status ['errored'] is counted as errored once, but
    the session is counted again, as exited, by a later call under the scope
    that the call left. On a new flusher, a call with the status
    ['errored'] followed by a call in the same minute of local time with a
    request session of another status leaves one bucket, with [errored: 1]
    and [exited: 1]. *)
Theorem request_session_is_counted_at_each_call :
  (forall (h : Heap SessionFlusher) (rs : RequestSession),
     scope (world h) = Some (Some rs) ->
     JSDate.validTime (currentKey h) = true ->
     exists h' bucket,
       SessionFlusher.incrementSessionCount h = (Normal tt, h')
       /\ JsObject.get (currentKey h) (_pendingAggregates (this h')) = Some bucket
       /\ (rs_status rs = Some "errored" ->
           ac_errored bucket = increment (ac_errored (bucketBefore h))
           /\ ac_exited bucket = ac_exited (bucketBefore h))
       /\ (rs_status rs <> Some "errored" ->
           ac_exited bucket = increment (ac_exited (bucketBefore h))
           /\ ac_errored bucket = ac_errored (bucketBefore h))
       /\ increment None = Some 1
       /\ (forall n, increment (Some n) = Some (n + 1))
       /\ (forall k, k <> currentKey h ->
           JsObject.get k (_pendingAggregates (this h'))
           = JsObject.get k (_pendingAggregates (this h)))
       /\ scope (world h') = Some (Some {| rs_status := None |})
       /\ (forall w2 : World,
             scope w2 = scope (world h') ->
             keyIn w2 = currentKey h ->
             exists h2 second,
               SessionFlusher.incrementSessionCount (mkHeap (this h') w2)
               = (Normal tt, h2)
               /\ JsObject.get (currentKey h) (_pendingAggregates (this h2))
                  = Some second
               /\ ac_exited second = increment (ac_exited bucket)
               /\ ac_errored second = ac_errored bucket))
  /\ (forall (transport : Transport) (timeout : Z) (w1 w2 : World)
             (rs2 : RequestSession),
        scope w1 = Some (Some {| rs_status := Some "errored" |}) ->
        scope w2 = Some (Some rs2) ->
        rs_status rs2 <> Some "errored" ->
        LocalTZA w2 = LocalTZA w1 ->
        JSDate.LocalTime (LocalTZA w1) (clock w1 (ticks w1)) / JSDate.msPerMinute
        = JSDate.LocalTime (LocalTZA w2) (clock w2 (ticks w2)) / JSDate.msPerMinute ->
        let key :=
          SessionFlusher.sessionStartedTrunc (LocalTZA w1) (clock w1 (ticks w1)) in
        JSDate.validTime key = true ->
        exists h1 h2,
          SessionFlusher.incrementSessionCount
            (mkHeap (SessionFlusher.new transport timeout) w1) = (Normal tt, h1)
          /\ SessionFlusher.incrementSessionCount (mkHeap (this h1) w2)
             = (Normal tt, h2)
          /\ _pendingAggregates (this h2)
             = [ (key,
                  {| ac_started := Some (JSDate.isoFormat key);
                     ac_errored := Some 1; ac_exited := Some 1;
                     ac_crashed := None; ac_abnormal := None |}) ])
  /\ (forall tza now1 now2,
        (JSDate.msPerMinute | tza) ->
        now1 / JSDate.msPerMinute = now2 / JSDate.msPerMinute ->
        JSDate.LocalTime (JSDate.fixedZone tza) now1 / JSDate.msPerMinute
        = JSDate.LocalTime (JSDate.fixedZone tza) now2 / JSDate.msPerMinute).
Proof.
  split; [ | split; [ | exact same_minute_fixed ] ].
  - intros h rs Hscope Hvalid.
    destruct (incrementSessionCount_again h rs Hscope Hvalid)
      as (h' & first & Hrun & Hget & Hagain).
    pose proof Hrun as Hrun0.
    rewrite (incrementSessionCount_counts h rs Hscope Hvalid) in Hrun0.
    injection Hrun0 as Hh'.
    exists h', first. split; [ exact Hrun | ]. split; [ exact Hget | ].
    assert (Hfirst : first = counted h rs).
    { rewrite <- Hh' in Hget.
      cbn [this _pendingAggregates set_pendingAggregates] in Hget.
      rewrite get_set_same in Hget. congruence. }
    rewrite Hfirst. unfold counted.
    split.
    { intros E. apply errored_test in E. rewrite E.
      unfold stamped. destruct (truthyOptString (ac_started (bucketBefore h)));
        split; reflexivity. }
    split.
    { intros E.
      destruct (match rs_status rs with
                | Some s => String.eqb s "errored"
                | None => false
                end) eqn:T.
      - apply errored_test in T. contradiction.
      - unfold stamped. destruct (truthyOptString (ac_started (bucketBefore h)));
          split; reflexivity. }
    split; [ reflexivity | ]. split; [ reflexivity | ].
    split.
    { intros k Hk. rewrite <- Hh'.
      cbn [this _pendingAggregates set_pendingAggregates].
      apply get_set_other. congruence. }
    split; [ rewrite <- Hh'; reflexivity | ].
    intros w2 Hscope2 Hkey2.
    destruct (Hagain w2 Hscope2 Hkey2) as (h2 & second & Hrun2 & Hget2 & Hex & Her & _).
    exists h2, second. fold (counted h rs). rewrite <- Hfirst.
    repeat split; assumption.
  - intros transport timeout w1 w2 rs2 Hs1 Hs2 Hrs2 Htza Hminute key Hvalid.
    assert (Hk2 : SessionFlusher.sessionStartedTrunc (LocalTZA w2) (clock w2 (ticks w2))
                  = key).
    { rewrite Htza. symmetry. rewrite Htza in Hminute.
      apply same_minute_same_key. exact Hminute. }
    eexists. eexists.
    split; [ apply incrementSessionCount_counts; [ exact Hs1 | exact Hvalid ] | ].
    split.
    { apply incrementSessionCount_counts; [ exact Hs2 | ].
      unfold currentKey. cbn [world]. rewrite Hk2. exact Hvalid. }
    unfold counted, stamped, bucketBefore, currentKey.
    cbn [this world _pendingAggregates set_pendingAggregates set_sessionAttrs
           SessionFlusher.new rs_status].
    rewrite Hk2. fold key. clearbody key.
    rewrite get_set_same, set_set.
    destruct (match rs_status rs2 with
              | Some s => String.eqb s "errored"
              | None => false
              end) eqn:T; [ apply errored_test in T; contradiction | ].
    cbn -[JSDate.isoFormat]. rewrite isoFormat_truthy. reflexivity.
Qed.

Lemma request_session_is_counted_at_each_call_witness :
  exists h1 h2,
    SessionFlusher.incrementSessionCount sampleFlusher = (Normal tt, h1)
    /\ SessionFlusher.incrementSessionCount
         (mkHeap (this h1)
            (set_scope (Some (Some {| rs_status := Some "ok" |}))
               (set_ticks 1%nat sampleWorld)))
       = (Normal tt, h2)
    /\ _pendingAggregates (this h2)
       = [ (1615881600000,
            {| ac_started := Some "2021-03-16T08:00:00.000Z"; ac_errored := Some 1;
               ac_exited := Some 1; ac_crashed := None; ac_abnormal := None |}) ].
Proof.
  destruct request_session_is_counted_at_each_call as (_ & Htwo & _).
  destruct (Htwo sampleTransport 10 sampleWorld
              (set_scope (Some (Some {| rs_status := Some "ok" |}))
                 (set_ticks 1%nat sampleWorld))
              {| rs_status := Some "ok" |})
    as (h1 & h2 & Hrun1 & Hrun2 & Hpending).
  - reflexivity.
  - reflexivity.
  - discriminate.
  - reflexivity.
  - vm_compute. reflexivity.
  - vm_compute. reflexivity.
  - exists h1, h2. split; [ exact Hrun1 | ]. split; [ exact Hrun2 | ].
    rewrite Hpending. vm_compute. reflexivity.
Defined.

(** ** [sendSessions] *)

Lemma runJobs_output (ps : list PromiseState) (w : World) :
  output (runJobs ps w) = (output w ++ rejectionLogs ps)%list.
Proof.
  revert w. induction ps as [ | p rest IH ]; intros w; cbn [runJobs rejectionLogs].
  - cbn. rewrite app_nil_r. reflexivity.
  - destruct p as [ | reason | ].
    + apply IH.
    + rewrite IH. cbn [output set_output]. rewrite <- app_assoc. reflexivity.
    + cbn [output set_jobs]. apply IH.
Qed.

Lemma rejectionLogs_app (ps qs : list PromiseState) :
  rejectionLogs (ps ++ qs) = (rejectionLogs ps ++ rejectionLogs qs)%list.
Proof.
  induction ps as [ | p rest IH ]; [ reflexivity | ].
  destruct p; cbn [app rejectionLogs]; rewrite IH; reflexivity.
Qed.

Lemma sendSessions_run (payload : AggregatedSessions) (h : Heap SessionFlusher) :
  SessionFlusher.sendSessions payload h =
    match transport_sendSessions (_transport (this h)) with
    | None =>
        (Normal tt,
         mkHeap (this h)
           (set_output
              (output (world h) ++
                 [LoggerWarn
                    "Dropping session because custom transport doesn't implement sendSession"])
              (world h)))
    | Some send =>
        let called :=
          set_output (output (world h) ++ [TransportSendSessions payload]) (world h) in
        match send payload with
        | Returns promise =>
            (Normal tt, mkHeap (this h) (set_jobs (jobs called ++ [promise]) called))
        | Throws e => (Throw (Thrown e), mkHeap (this h) called)
        end
    end.
Proof.
  unfold SessionFlusher.sendSessions, logger_warn, emit, getThis, setWorld,
    bind, gets, modify, throw.
  destruct (transport_sendSessions (_transport (this h))) as [ send | ];
    [ | reflexivity ].
  cbn. destruct (send payload); reflexivity.
Qed.

(** C8, the claim at a transport whose [sendSessions] throws: the exception
    leaves [SessionFlusher.sendSessions]. *)
Lemma sendSessions_raises_what_the_transport_throws :
  fst (SessionFlusher.sendSessions emptyPayload
         (mkHeap (SessionFlusher.new throwingTransport 10) sampleWorld))
  = Throw (Thrown "No module available in HTTPSTransport").
Proof. reflexivity. Qed.

(** C8, amended. [sendSessions] with a transport that has no [sendSessions]
    logs a warning, calls nothing and returns. With a transport that has
    one, it calls it once with the payload; when the call returns a promise,
    [sendSessions] returns, the fields of the flusher are as before, and
    when the handlers run a rejected promise adds one error to the log and
    no further call of the transport; when the call itself throws,
    [sendSessions] throws the same. *)
Theorem sendSessions_outcomes (payload : AggregatedSessions) (h : Heap SessionFlusher) :
  (transport_sendSessions (_transport (this h)) = None ->
   exists h',
     SessionFlusher.sendSessions payload h = (Normal tt, h')
     /\ this h' = this h
     /\ jobs (world h') = jobs (world h)
     /\ output (world h') =
          (output (world h) ++
             [LoggerWarn
                "Dropping session because custom transport doesn't implement sendSession"])%list)
  /\ (forall send promise,
        transport_sendSessions (_transport (this h)) = Some send ->
        send payload = Returns promise ->
        exists h',
          SessionFlusher.sendSessions payload h = (Normal tt, h')
          /\ this h' = this h
          /\ output (world h') =
               (output (world h) ++ [TransportSendSessions payload])%list
          /\ jobs (world h') = (jobs (world h) ++ [promise])%list
          /\ output (eventLoopTurn (world h')) =
               (output (world h) ++ [TransportSendSessions payload]
                  ++ rejectionLogs (jobs (world h))
                  ++ match promise with
                     | Rejected reason =>
                         [LoggerError ("Error while sending session: " ++ reason)]
                     | _ => []
                     end)%list)
  /\ (forall send e,
        transport_sendSessions (_transport (this h)) = Some send ->
        send payload = Throws e ->
        exists h',
          SessionFlusher.sendSessions payload h = (Throw (Thrown e), h')
          /\ this h' = this h).
Proof.
  rewrite sendSessions_run. split; [ | split ].
  - intros ->. eexists. split; [ reflexivity | ]. cbn. auto.
  - intros send promise -> Hsend. cbv zeta. rewrite Hsend.
    eexists. split; [ reflexivity | ].
    cbn [this world output jobs set_output set_jobs].
    split; [ reflexivity | ]. split; [ reflexivity | ]. split; [ reflexivity | ].
    unfold eventLoopTurn. rewrite runJobs_output. cbn [output jobs set_output set_jobs].
    rewrite rejectionLogs_app, <- !app_assoc. cbn [app].
    destruct promise; reflexivity.
  - intros send e -> Hsend. cbv zeta. rewrite Hsend.
    eexists. split; reflexivity.
Qed.

Lemma sendSessions_outcomes_witness :
  exists h',
    SessionFlusher.sendSessions emptyPayload sampleFlusher = (Normal tt, h')
    /\ this h' = this sampleFlusher.
Proof.
  destruct (sendSessions_outcomes emptyPayload sampleFlusher) as (_ & Hpromise & _).
  destruct (Hpromise (fun _ => Returns Fulfilled) Fulfilled eq_refl eq_refl)
    as (h' & Hrun & Hthis & _).
  exists h'. split; [ exact Hrun | exact Hthis ].
Defined.

(** ** [flush] *)

Lemma flush_run (h : Heap SessionFlusher) :
  NoDup (map fst (_pendingAggregates (this h))) ->
  SessionFlusher.flush h =
    match _pendingAggregates (this h) with
    | [] => (Normal tt, h)
    | _ :: _ =>
        SessionFlusher.sendSessions (flushPayload (this h))
          (mkHeap (flushed (this h)) (world h))
    end.
Proof.
  intros Hnd. unfold SessionFlusher.flush, bind, getThis, gets.
  rewrite keys_length.
  destruct (_pendingAggregates (this h)) as [ | e rest ] eqn:E; [ reflexivity | ].
  cbn [List.length Nat.eqb]. unfold setThis, modify. cbn [this world].
  rewrite <- E. rewrite get_keys by (rewrite E; exact Hnd).
  reflexivity.
Qed.

Lemma sendSessions_this (payload : AggregatedSessions) (h : Heap SessionFlusher) :
  this (snd (SessionFlusher.sendSessions payload h)) = this h.
Proof.
  rewrite sendSessions_run.
  destruct (transport_sendSessions (_transport (this h))) as [ send | ];
    [ | reflexivity ].
  cbv zeta. destruct (send payload); reflexivity.
Qed.

(** The keys of the table of a flusher are distinct. *)
Lemma flusherReachable_NoDup (h : Heap SessionFlusher) :
  flusherReachable h -> NoDup (map fst (_pendingAggregates (this h))).
Proof.
  induction 1 as [ transport timeout w | h _ IH | h _ IH | payload h _ IH
                 | f w w' _ IH ].
  - constructor.
  - rewrite incrementSessionCount_run.
    destruct (truthyOptString (ac_started (bucketBefore h))
              || JSDate.validTime (currentKey h));
      [ destruct (requestSessionOf h) | ];
      cbn [snd this _pendingAggregates set_pendingAggregates];
      apply set_NoDup; exact IH.
  - rewrite (flush_run h IH).
    destruct (_pendingAggregates (this h)) as [ | e rest ] eqn:E.
    + cbn [snd]. rewrite E. constructor.
    + rewrite sendSessions_this. constructor.
  - rewrite sendSessions_this. exact IH.
  - exact IH.
Qed.

(** C3, the claim at that flusher: the bucket of the key -1800000 was
    created first and the bucket of the key 1800000 second, and [flush]
    hands them over in the other order, the key 1800000 being an array
    index. *)
Lemma flush_enumerates_array_indices_first :
  map fst (_pendingAggregates (this twoBuckets)) = [-1800000; 1800000]
  /\ fst (SessionFlusher.flush twoBuckets) = Normal tt
  /\ output (world (snd (SessionFlusher.flush twoBuckets)))
     = [ TransportSendSessions
           {| attrs := Some {| attrs_release := Some "1.0.0";
                               attrs_environment := None |};
              aggregates :=
                [ Some {| ac_started := Some "1970-01-01T00:30:00.000Z";
                          ac_errored := None; ac_exited := Some 1;
                          ac_crashed := None; ac_abnormal := None |};
                  Some {| ac_started := Some "1969-12-31T23:30:00.000Z";
                          ac_errored := Some 1; ac_exited := None;
                          ac_crashed := None; ac_abnormal := None |} ] |} ]
  /\ aggregates (flushPayload (this twoBuckets))
     <> map (fun e => Some (snd e)) (_pendingAggregates (this twoBuckets)).
Proof.
  split; [ vm_compute; reflexivity | ].
  split; [ vm_compute; reflexivity | ].
  split; [ vm_compute; reflexivity | ].
  vm_compute. discriminate.
Qed.

(** C3, amended. On a flusher made by the constructor and the methods:
    with an empty table [flush] changes nothing and calls nothing; with a
    table that is not empty it calls [sendSessions], on fields whose table
    and [_sessionAttrs] are already emptied, with the [_sessionAttrs] and
    with every bucket of the table, the buckets being in the order in which
    the language enumerates the keys of the table: the array indices
    ascending first, then the other keys in the order of their creation,
    which is the order of creation of all buckets when no key is an array
    index, that is, when every key is negative or at least 4294967295 (the
    array indices are the integers from 0 to 4294967294), as is every key
    computed, in a zone of constant offset, from a reading of the clock of
    4298567295 (1970-02-19T18:02:47.295Z) or later; and a call of
    [incrementSessionCount] after that starts from an empty bucket, leaves
    it as the only one, and reads the options of the client again. *)
Theorem flush_hands_over_the_buckets (h : Heap SessionFlusher) :
  flusherReachable h ->
  (_pendingAggregates (this h) = [] -> SessionFlusher.flush h = (Normal tt, h))
  /\ (_pendingAggregates (this h) <> [] ->
      SessionFlusher.flush h
      = SessionFlusher.sendSessions (flushPayload (this h))
          (mkHeap (flushed (this h)) (world h))
      /\ this (snd (SessionFlusher.flush h)) = flushed (this h)
      /\ _pendingAggregates (flushed (this h)) = []
      /\ _sessionAttrs (flushed (this h)) = None
      /\ Permutation (_pendingAggregates (this h))
           (JsObject.ownProperties (_pendingAggregates (this h)))
      /\ (exists indices,
            JsObject.ownProperties (_pendingAggregates (this h))
            = (indices
                 ++ filter (fun e => negb (JsObject.isArrayIndex (fst e)))
                      (_pendingAggregates (this h)))%list
            /\ Permutation indices
                 (filter (fun e => JsObject.isArrayIndex (fst e))
                    (_pendingAggregates (this h)))
            /\ Sorted (fun a b => fst a <= fst b) indices)
      /\ ((forall k, In k (map fst (_pendingAggregates (this h))) ->
                     JsObject.isArrayIndex k = false) ->
          aggregates (flushPayload (this h))
          = map (fun e => Some (snd e)) (_pendingAggregates (this h)))
      /\ ((forall k, In k (map fst (_pendingAggregates (this h))) ->
                     k < 0 \/ 4294967295 <= k) ->
          aggregates (flushPayload (this h))
          = map (fun e => Some (snd e)) (_pendingAggregates (this h))))
  /\ (forall k, JsObject.isArrayIndex k = true <-> 0 <= k <= 4294967294)
  /\ (forall tza now,
        4294967295 + JSDate.msPerHour <= now ->
        JsObject.isArrayIndex
          (SessionFlusher.sessionStartedTrunc (JSDate.fixedZone tza) now) = false)
  /\ (forall w' : World,
        let h1 := mkHeap (flushed (this h)) w' in
        JSDate.validTime (currentKey h1) = true ->
        exists h2,
          SessionFlusher.incrementSessionCount h1 = (Normal tt, h2)
          /\ bucketBefore h1 = emptyCounts
          /\ stamped h1
             = set_ac_started (Some (JSDate.isoFormat (currentKey h1))) emptyCounts
          /\ _pendingAggregates (this h2)
             = [ (currentKey h1,
                  match requestSessionOf h1 with
                  | Some rs => counted h1 rs
                  | None => stamped h1
                  end) ]
          /\ _sessionAttrs (this h2)
             = Some {| attrs_release := opt_release (clientOptions h1);
                       attrs_environment := opt_environment (clientOptions h1) |}).
Proof.
  intros Hreach. pose proof (flusherReachable_NoDup h Hreach) as Hnd.
  assert (Hindex : forall k, JsObject.isArrayIndex k = true <-> 0 <= k <= 4294967294).
  { intros k. unfold JsObject.isArrayIndex.
    change (2 ^ 32 - 1) with 4294967295.
    rewrite andb_true_iff, Z.leb_le, Z.ltb_lt. lia. }
  split; [ | split; [ | split; [ exact Hindex | split ] ] ].
  - intros E. rewrite (flush_run h Hnd), E. reflexivity.
  - intros Hne.
    assert (Hrun : SessionFlusher.flush h
                   = SessionFlusher.sendSessions (flushPayload (this h))
                       (mkHeap (flushed (this h)) (world h))).
    { rewrite (flush_run h Hnd).
      destruct (_pendingAggregates (this h)); [ congruence | reflexivity ]. }
    split; [ exact Hrun | ].
    split; [ rewrite Hrun; apply sendSessions_this | ].
    split; [ reflexivity | ]. split; [ reflexivity | ].
    split; [ apply ownProperties_perm | ].
    split.
    { eexists. split; [ reflexivity | ].
      split; [ apply Permutation_sym, sortAsc_perm | apply sortAsc_sorted ]. }
    split.
    { intros Hkeys. unfold flushPayload. cbn [aggregates].
      rewrite ownProperties_creation_order by exact Hkeys. reflexivity. }
    intros Hkeys. unfold flushPayload. cbn [aggregates].
    rewrite ownProperties_creation_order; [ reflexivity | ].
    intros k Hk. specialize (Hkeys k Hk).
    destruct (JsObject.isArrayIndex k) eqn:E; [ | reflexivity ].
    apply Hindex in E. lia.
  - intros tza now Hnow.
    destruct (JsObject.isArrayIndex
                (SessionFlusher.sessionStartedTrunc (JSDate.fixedZone tza) now)) eqn:E;
      [ | reflexivity ].
    apply Hindex in E. rewrite sessionStartedTrunc_fixed in E.
    unfold JSDate.msPerHour in *.
    pose proof (Z.div_mod (now + tza) 3600000 ltac:(lia)) as Hdiv.
    pose proof (Z.mod_pos_bound (now + tza) 3600000 ltac:(lia)) as Hmod.
    lia.
  - intros w' h1 Hvalid.
    rewrite incrementSessionCount_run, Hvalid, orb_true_r.
    assert (Hb : bucketBefore h1 = emptyCounts) by reflexivity.
    assert (Hs : stamped h1
                 = set_ac_started (Some (JSDate.isoFormat (currentKey h1))) emptyCounts)
      by reflexivity.
    destruct (requestSessionOf h1) as [ rs | ];
      (eexists; split; [ reflexivity | ];
       split; [ exact Hb | ]; split; [ exact Hs | ];
       split; reflexivity).
Qed.

Lemma flush_hands_over_the_buckets_witness :
  flusherReachable twoBuckets
  /\ SessionFlusher.flush twoBuckets
     = SessionFlusher.sendSessions (flushPayload (this twoBuckets))
         (mkHeap (flushed (this twoBuckets)) (world twoBuckets))
  /\ _pendingAggregates (this (snd (SessionFlusher.flush twoBuckets))) = [].
Proof.
  assert (Hreach : flusherReachable twoBuckets).
  { unfold twoBuckets. apply freach_increment, freach_increment, freach_new. }
  split; [ exact Hreach | ].
  destruct (flush_hands_over_the_buckets twoBuckets Hreach) as (_ & Hfull & _).
  destruct Hfull as (Hrun & Hthis & _).
  - vm_compute. discriminate.
  - split; [ exact Hrun | ]. rewrite Hthis. reflexivity.
Defined.

(* ===================================================================== *)
(** * Further properties of [Session]                                     *)
(* ===================================================================== *)

Section UpdateOtherFields.
Variable context : SessionContext.
Variable h0 : Heap Session.

Let s0 : Session := this h0.

Lemma update_init :
  triple (fun h => h = h0) (Session.update context)
    (fun _ h' =>
       init (this h') = match c_init context with Some b => b | None => init s0 end).
Proof.
  unfold Session.update.
  keep 4 (fun h : Heap Session => init (this h) = init s0).
  keep 10 (fun h : Heap Session =>
    init (this h) = match c_init context with Some b => b | None => init s0 end).
  last_statement.
Qed.

Lemma update_release :
  triple (fun h => h = h0) (Session.update context)
    (fun _ h' => release (this h') = orKeep (c_release context) (release s0)).
Proof.
  unfold Session.update, orKeep.
  keep 8 (fun h : Heap Session => release (this h) = release s0).
  keep 6 (fun h : Heap Session =>
    release (this h) =
      if truthyOptString (c_release context) then c_release context else release s0).
  last_statement.
Qed.

Lemma update_environment :
  triple (fun h => h = h0) (Session.update context)
    (fun _ h' =>
       environment (this h') = orKeep (c_environment context) (environment s0)).
Proof.
  unfold Session.update, orKeep.
  keep 9 (fun h : Heap Session => environment (this h) = environment s0).
  keep 5 (fun h : Heap Session =>
    environment (this h) =
      if truthyOptString (c_environment context) then c_environment context
      else environment s0).
  last_statement.
Qed.

Lemma update_userAgent :
  triple (fun h => h = h0) (Session.update context)
    (fun _ h' => userAgent (this h') = orKeep (c_userAgent context) (userAgent s0)).
Proof.
  unfold Session.update, orKeep.
  keep 11 (fun h : Heap Session => userAgent (this h) = userAgent s0).
  keep 3 (fun h : Heap Session =>
    userAgent (this h) =
      if truthyOptString (c_userAgent context) then c_userAgent context
      else userAgent s0).
  last_statement.
Qed.

Lemma update_ipAddress :
  triple (fun h => h = h0) (Session.update context)
    (fun _ h' => ipAddress (this h') = ipAddressAfter context s0).
Proof.
  unfold Session.update, ipAddressAfter.
  keep 10 (fun h : Heap Session =>
    ipAddress (this h) =
      match c_user context with
      | Some user =>
          if truthyOptString (ip_address user) then ip_address user
          else ipAddress s0
      | None => ipAddress s0
      end).
  keep 4 (fun h : Heap Session =>
    ipAddress (this h) =
      if truthyOptString (c_ipAddress context) then c_ipAddress context
      else match c_user context with
           | Some user =>
               if truthyOptString (ip_address user) then ip_address user
               else ipAddress s0
           | None => ipAddress s0
           end).
  last_statement.
Qed.

Lemma update_errors :
  triple (fun h => h = h0) (Session.update context)
    (fun _ h' =>
       errors (this h') = match c_errors context with Some n => n | None => errors s0 end).
Proof.
  unfold Session.update.
  keep 12 (fun h : Heap Session => errors (this h) = errors s0).
  keep 2 (fun h : Heap Session =>
    errors (this h) = match c_errors context with Some n => n | None => errors s0 end).
  last_statement.
Qed.

Lemma update_sessionMode :
  triple (fun h => h = h0) (Session.update context)
    (fun _ h' =>
       sessionMode (this h') =
         match c_sessionMode context with Some m => m | None => sessionMode s0 end).
Proof.
  unfold Session.update.
  keep 14 (fun h : Heap Session => sessionMode (this h) = sessionMode s0).
  last_statement.
Qed.

End UpdateOtherFields.

(** Every field of the session that [update] leaves, and what it does to the
    world. *)
Lemma update_all (context : SessionContext) (h : Heap Session) :
  exists h',
    Session.update context h = (Normal tt, h')
    /\ (userAgent (this h') = orKeep (c_userAgent context) (userAgent (this h))
        /\ errors (this h') =
             match c_errors context with Some n => n | None => errors (this h) end
        /\ release (this h') = orKeep (c_release context) (release (this h))
        /\ sid (this h') =
             match c_sid context with
             | Some s =>
                 if truthyString s
                 then if Nat.eqb (String.length s) 32 then s
                      else uuid4_of (entropy (world h) (draws (world h)))
                 else sid (this h)
             | None => sid (this h)
             end
        /\ did (this h') =
             (if truthy (c_did context) then PStr (ToString (c_did context))
              else match c_user context with
                   | Some user => jsOr (jsOr (id user) (email user)) (username user)
                   | None => did (this h)
                   end)
        /\ timestamp (this h') = effectiveTimestamp context h
        /\ started (this h') =
             match c_started context with Some n => n | None => started (this h) end
        /\ duration (this h') =
             match c_duration context with
             | Some n => n
             | None => timestamp (this h') - started (this h')
             end
        /\ status (this h') =
             match c_status context with Some st => st | None => status (this h) end
        /\ sessionMode (this h') =
             match c_sessionMode context with
             | Some m => m
             | None => sessionMode (this h)
             end
        /\ environment (this h') = orKeep (c_environment context) (environment (this h))
        /\ ipAddress (this h') = ipAddressAfter context (this h)
        /\ init (this h') =
             match c_init context with Some b => b | None => init (this h) end)
    /\ world h' =
         set_draws (if regeneratesSid context then S (draws (world h))
                    else draws (world h))
           (set_ticks (if truthyOptNum (c_timestamp context) then ticks (world h)
                       else S (ticks (world h)))
              (world h)).
Proof.
  pose proof (update_userAgent context h h eq_refl) as F1.
  pose proof (update_errors context h h eq_refl) as F2.
  pose proof (update_release context h h eq_refl) as F3.
  pose proof (update_sid context h h eq_refl) as F4.
  pose proof (update_did context h h eq_refl) as F5.
  pose proof (update_timestamp context h h eq_refl) as F6.
  pose proof (update_started context h h eq_refl) as F7.
  pose proof (update_duration context h h eq_refl) as F8.
  pose proof (update_status context h h eq_refl) as F9.
  pose proof (update_sessionMode context h h eq_refl) as F10.
  pose proof (update_environment context h h eq_refl) as F11.
  pose proof (update_ipAddress context h h eq_refl) as F12.
  pose proof (update_init context h h eq_refl) as F13.
  pose proof (update_world_frame context h h eq_refl) as W1.
  pose proof (update_ticks context h h eq_refl) as W2.
  pose proof (update_draws context h h eq_refl) as W3.
  unfold wp in *.
  destruct (Session.update context h) as [[[] | e] h']; [ | tauto ].
  exists h'. split; [ reflexivity | ].
  split; [ repeat (split; [ assumption | ]); assumption | ].
  destruct W1 as (C1 & C2 & C3 & C4 & C5 & C6 & C7).
  destruct (world h') as [ck ti tz en dr cl sc ou jo].
  destruct (world h) as [ck0 ti0 tz0 en0 dr0 cl0 sc0 ou0 jo0].
  cbn in *. subst. reflexivity.
Qed.

Lemma Session_ext (a b : Session) :
  userAgent a = userAgent b -> errors a = errors b -> release a = release b ->
  sid a = sid b -> did a = did b -> timestamp a = timestamp b ->
  started a = started b -> duration a = duration b -> status a = status b ->
  sessionMode a = sessionMode b -> environment a = environment b ->
  ipAddress a = ipAddress b -> init a = init b -> a = b.
Proof.
  destruct a, b. cbn. intros. subst. reflexivity.
Qed.

Lemma truthyOptString_some (s : string) :
  s <> EmptyString -> truthyOptString (Some s) = true.
Proof. destruct s; [ congruence | reflexivity ]. Qed.



(** ** The descriptive attributes *)



(** X2. The [ipAddress] after [update] is [context.ipAddress] when that is
    a string that is not empty, whatever the user of the context; else it is
    [context.user.ip_address] when that is a string that is not empty; else
    the session keeps the [ipAddress] it had. *)
Theorem update_ipAddress_precedence (context : SessionContext) (h : Heap Session) :
  exists h',
    Session.update context h = (Normal tt, h')
    /\ (forall s, c_ipAddress context = Some s -> s <> EmptyString ->
        ipAddress (this h') = Some s)
    /\ (truthyOptString (c_ipAddress context) = false ->
        forall user s,
          c_user context = Some user -> ip_address user = Some s ->
          s <> EmptyString -> ipAddress (this h') = Some s)
    /\ (truthyOptString (c_ipAddress context) = false ->
        (c_user context = None
         \/ exists user, c_user context = Some user
                         /\ truthyOptString (ip_address user) = false) ->
        ipAddress (this h') = ipAddress (this h)).
Proof.
  destruct (update_all context h)
    as (h' & Hrun & (_ & _ & _ & _ & _ & _ & _ & _ & _ & _ & _ & Hip & _) & _).
  exists h'. split; [ exact Hrun | ].
  rewrite Hip. unfold ipAddressAfter.
  split.
  { intros s -> Hs. rewrite (truthyOptString_some s Hs). reflexivity. }
  split.
  { intros -> user s -> Hu Hs. rewrite Hu, (truthyOptString_some s Hs). reflexivity. }
  intros -> [ -> | (user & -> & ->) ]; reflexivity.
Qed.

Lemma update_ipAddress_precedence_witness :
  exists h',
    Session.update didAndUserContext sampleHeap = (Normal tt, h')
    /\ ipAddress (this h') = Some "192.168.0.1".
Proof.
  destruct (update_ipAddress_precedence didAndUserContext sampleHeap)
    as (h' & Hrun & Hgiven & _).
  exists h'. split; [ exact Hrun | ].
  apply Hgiven; [ reflexivity | discriminate ].
Defined.

(** ** The [did] given in the context *)

(** X3. A truthy [did] of the context wins over the user of the context:
    after [update] the [did] of the session is the string that the template
    literal makes of [context.did], whatever [id], [email] and [username]
    the user of the context has: a string as it is, and a number as
    [Number::toString] writes it, ['42'] for 42 and ['1e+21'] for 1e21. *)
Theorem update_explicit_did_wins (context : SessionContext) (h : Heap Session) :
  truthy (c_did context) = true ->
  exists h',
    Session.update context h = (Normal tt, h')
    /\ did (this h') = PStr (ToString (c_did context))
    /\ (forall s, c_did context = PStr s -> did (this h') = PStr s)
    /\ (forall n, c_did context = PNum n -> did (this h') = PStr (NumberToString n)).
Proof.
  intros Hdid.
  destruct (update_did_run context h) as (h' & Hrun & Hd).
  rewrite Hdid in Hd.
  exists h'. split; [ exact Hrun | ]. split; [ exact Hd | ].
  split; [ intros s E | intros n E ]; rewrite Hd, E; reflexivity.
Qed.

Lemma update_explicit_did_wins_witness :
  (exists h',
     Session.update didAndUserContext sampleHeap = (Normal tt, h')
     /\ did (this h') = PStr "42")
  /\ (exists h',
        Session.update largeDidContext sampleHeap = (Normal tt, h')
        /\ did (this h') = PStr "1e+21").
Proof.
  split.
  - destruct (update_explicit_did_wins didAndUserContext sampleHeap eq_refl)
      as (h' & Hrun & _ & _ & Hnum).
    exists h'. split; [ exact Hrun | exact (Hnum 42 eq_refl) ].
  - destruct (update_explicit_did_wins largeDidContext sampleHeap eq_refl)
      as (h' & Hrun & _ & _ & Hnum).
    exists h'. split; [ exact Hrun | ].
    rewrite (Hnum 1000000000000000000000 eq_refl). vm_compute. reflexivity.
Defined.

(** ** Numbers of the context that are zero *)

(** X4. [update] tells an absent number from a zero for [errors],
    [started] and [duration], which it stores when they are 0, but not
    for [timestamp]: with [timestamp: 0] the clock is read, as when no
    [timestamp] is given, and its reading is stored. *)
Theorem update_zero_numbers (context : SessionContext) (h : Heap Session) :
  exists h',
    Session.update context h = (Normal tt, h')
    /\ (c_timestamp context = Some 0 \/ c_timestamp context = None ->
        timestamp (this h') = clock (world h) (ticks (world h))
        /\ ticks (world h') = S (ticks (world h)))
    /\ (forall t, c_timestamp context = Some t -> t <> 0 ->
        timestamp (this h') = t /\ ticks (world h') = ticks (world h))
    /\ (forall n, c_errors context = Some n -> errors (this h') = n)
    /\ (forall n, c_started context = Some n -> started (this h') = n)
    /\ (forall n, c_duration context = Some n -> duration (this h') = n)
    /\ (forall b, c_init context = Some b -> init (this h') = b).
Proof.
  destruct (update_all context h)
    as (h' & Hrun & (_ & Her & _ & _ & _ & Hts & Hst & Hdu & _ & _ & _ & _ & Hin) & Hw).
  exists h'. split; [ exact Hrun | ].
  rewrite Hw, Her, Hts, Hst, Hdu, Hin. unfold effectiveTimestamp. cbn [ticks set_draws set_ticks].
  split; [ intros [ -> | -> ]; split; reflexivity | ].
  split.
  { intros t -> Ht. apply Z.eqb_neq in Ht. cbn [truthyOptNum]. rewrite Ht.
    split; reflexivity. }
  split; [ intros n ->; reflexivity | ].
  split; [ intros n ->; reflexivity | ].
  split; [ intros n ->; reflexivity | intros b ->; reflexivity ].
Qed.

Lemma update_zero_numbers_witness :
  exists h',
    Session.update zeroContext sampleHeap = (Normal tt, h')
    /\ timestamp (this h') = 1615882662125
    /\ errors (this h') = 0 /\ started (this h') = 0 /\ duration (this h') = 0.
Proof.
  destruct (update_zero_numbers zeroContext sampleHeap)
    as (h' & Hrun & Hzero & _ & Her & Hst & Hdu & _).
  exists h'. split; [ exact Hrun | ].
  split; [ apply (Hzero (or_introl eq_refl)) | ].
  split; [ apply Her; reflexivity | ].
  split; [ apply Hst; reflexivity | apply Hdu; reflexivity ].
Defined.

(** ** What [update] does to the world, and updating twice *)

Lemma set_counters_same (w : World) :
  set_draws (draws w) (set_ticks (ticks w) w) = w.
Proof. destruct w. reflexivity. Qed.

(** X5. [update] reads the clock once when the context has no truthy
    [timestamp] and not at all when it has one, draws one id when the
    context has a [sid] that is not empty and not of length 32 and none
    otherwise, and does nothing else to the world: it logs nothing and does
    not touch the hub. With a truthy [timestamp] and no such [sid] the world
    is as before. *)
Theorem update_effects (context : SessionContext) (h : Heap Session) :
  exists h',
    Session.update context h = (Normal tt, h')
    /\ ticks (world h') =
         (if truthyOptNum (c_timestamp context) then ticks (world h)
          else S (ticks (world h)))
    /\ draws (world h') =
         (if regeneratesSid context then S (draws (world h)) else draws (world h))
    /\ clock (world h') = clock (world h)
    /\ entropy (world h') = entropy (world h)
    /\ LocalTZA (world h') = LocalTZA (world h)
    /\ client (world h') = client (world h)
    /\ scope (world h') = scope (world h)
    /\ output (world h') = output (world h)
    /\ jobs (world h') = jobs (world h)
    /\ (truthyOptNum (c_timestamp context) = true ->
        regeneratesSid context = false -> world h' = world h).
Proof.
  destruct (update_all context h) as (h' & Hrun & _ & Hw).
  exists h'. split; [ exact Hrun | ].
  rewrite Hw. cbn.
  repeat (split; [ reflexivity | ]).
  intros -> ->. apply set_counters_same.
Qed.

Lemma update_effects_witness :
  exists h',
    Session.update didAndUserContext sampleHeap = (Normal tt, h')
    /\ world h' = world sampleHeap.
Proof.
  destruct (update_effects didAndUserContext sampleHeap)
    as (h' & Hrun & _ & _ & _ & _ & _ & _ & _ & _ & _ & Hsame).
  exists h'. split; [ exact Hrun | apply Hsame; reflexivity ].
Defined.

(** X6. Applying a context twice is applying it once, when the context has
    a truthy [timestamp] and no [sid] that is regenerated: the second
    [update] with the same context leaves the session and the world as the
    first one left them. *)
Theorem update_twice (context : SessionContext) (h : Heap Session) :
  truthyOptNum (c_timestamp context) = true ->
  regeneratesSid context = false ->
  exists h1,
    Session.update context h = (Normal tt, h1)
    /\ Session.update context h1 = (Normal tt, h1).
Proof.
  intros Hts Hsid.
  destruct (update_all context h) as (h1 & Hrun1 & F & Hw1).
  destruct (update_all context h1) as (h2 & Hrun2 & G & Hw2).
  exists h1. split; [ exact Hrun1 | ].
  rewrite Hrun2. f_equal.
  rewrite Hts, Hsid in Hw1, Hw2. rewrite set_counters_same in Hw1, Hw2.
  assert (Hthis : this h2 = this h1).
  { destruct F as (F1 & F2 & F3 & F4 & F5 & F6 & F7 & F8 & F9 & F10 & F11 & F12 & F13).
    destruct G as (G1 & G2 & G3 & G4 & G5 & G6 & G7 & G8 & G9 & G10 & G11 & G12 & G13).
    unfold regeneratesSid in Hsid.
    unfold effectiveTimestamp, truthyOptNum in F6, G6, Hts.
    apply Session_ext.
    - rewrite G1, F1. unfold orKeep. destruct (truthyOptString (c_userAgent context)); reflexivity.
    - rewrite G2, F2. destruct (c_errors context); reflexivity.
    - rewrite G3, F3. unfold orKeep. destruct (truthyOptString (c_release context)); reflexivity.
    - rewrite G4, F4. destruct (c_sid context) as [ s | ]; [ | reflexivity ].
      destruct (truthyString s); [ | reflexivity ].
      destruct (Nat.eqb (String.length s) 32); [ reflexivity | discriminate ].
    - rewrite G5, F5. destruct (truthy (c_did context)); [ reflexivity | ].
      destruct (c_user context); reflexivity.
    - rewrite G6, F6. destruct (c_timestamp context) as [ t | ]; [ | discriminate ].
      destruct (t =? 0); [ discriminate | reflexivity ].
    - rewrite G7, F7. destruct (c_started context); reflexivity.
    - rewrite G8, F8.
      assert (Et : timestamp (this h2) = timestamp (this h1)).
      { rewrite G6, F6. destruct (c_timestamp context) as [ t | ]; [ | discriminate ].
        destruct (t =? 0); [ discriminate | reflexivity ]. }
      assert (Es : started (this h2) = started (this h1)).
      { rewrite G7, F7. destruct (c_started context); reflexivity. }
      rewrite Et, Es. reflexivity.
    - rewrite G9, F9. destruct (c_status context); reflexivity.
    - rewrite G10, F10. destruct (c_sessionMode context); reflexivity.
    - rewrite G11, F11. unfold orKeep. destruct (truthyOptString (c_environment context)); reflexivity.
    - rewrite G12. unfold ipAddressAfter at 1. rewrite F12. unfold ipAddressAfter.
      destruct (truthyOptString (c_ipAddress context)); [ reflexivity | ].
      destruct (c_user context) as [ user | ]; [ | reflexivity ].
      destruct (truthyOptString (ip_address user)); reflexivity.
    - rewrite G13, F13. destruct (c_init context); reflexivity. }
  destruct h2 as [s2 w2], h1 as [s1 w1]. cbn in *. subst. reflexivity.
Qed.

Lemma update_twice_witness :
  exists h1,
    Session.update didAndUserContext sampleHeap = (Normal tt, h1)
    /\ Session.update didAndUserContext h1 = (Normal tt, h1).
Proof. apply (update_twice didAndUserContext sampleHeap); reflexivity. Defined.

(** ** [close] with a status *)

(** X7. [close(status)] with a status stores it whatever the status of the
    session is, also over [crashed] or [abnormal] and also when it is the
    status the session has; like [close()] it reads the clock once, stores
    the reading as [timestamp] and [timestamp - started] as [duration], and
    changes nothing else. *)
Theorem close_with_status (st : SessionStatus) (h : Heap Session) :
  exists h',
    Session.close (Some st) h = (Normal tt, h')
    /\ this h' =
         set_status st (refreshed (clock (world h) (ticks (world h))) (this h))
    /\ world h' = set_ticks (S (ticks (world h))) (world h).
Proof.
  unfold Session.close.
  destruct (update_all (statusContext st) h)
    as (h' & Hrun
        & (F1 & F2 & F3 & F4 & F5 & F6 & F7 & F8 & F9 & F10 & F11 & F12 & F13)
        & Hw).
  exists h'. split; [ exact Hrun | ].
  split.
  - apply Session_ext; cbn;
      first [ assumption
            | rewrite F8, F6, F7; reflexivity
            | rewrite F1; reflexivity
            | rewrite F3; reflexivity
            | rewrite F11; reflexivity
            | rewrite F12; reflexivity ].
  - rewrite Hw. cbn. destruct (world h). reflexivity.
Qed.

(** ** The attributes are never empty strings *)






(** ** Times that [toJSON] cannot print *)

(** X9. [update] stores the [started] and the [timestamp] of a context
    unchecked, and after it [toJSON] throws [RangeError: Invalid time value]
    exactly when [started] or [timestamp] of the session is not a time value
    of a [Date], that is, is beyond 8640000000000000 ms either side of the
    epoch; otherwise [toJSON] returns an object. *)
Theorem toJSON_throws_on_invalid_time (context : SessionContext) (h : Heap Session) :
  exists h',
    Session.update context h = (Normal tt, h')
    /\ started (this h') =
         match c_started context with Some n => n | None => started (this h) end
    /\ timestamp (this h') = effectiveTimestamp context h
    /\ (JSDate.validTime (started (this h'))
        && JSDate.validTime (timestamp (this h')) = false ->
        Session.toJSON (this h') = Throw (RangeError "Invalid time value"))
    /\ (JSDate.validTime (started (this h'))
        && JSDate.validTime (timestamp (this h')) = true ->
        exists v, Session.toJSON (this h') = Normal v).
Proof.
  destruct (update_all context h)
    as (h' & Hrun & (_ & _ & _ & _ & _ & Hts & Hst & _) & _).
  exists h'. split; [ exact Hrun | ].
  split; [ exact Hst | ]. split; [ exact Hts | ].
  unfold Session.toJSON, JSDate.toISOString.
  destruct (JSDate.validTime (started (this h')));
    destruct (JSDate.validTime (timestamp (this h'))); cbn [andb];
    split; intros Hv; try discriminate Hv; try reflexivity.
  eexists. reflexivity.
Qed.

Lemma toJSON_throws_on_invalid_time_witness :
  exists h',
    Session.update farStartContext sampleHeap = (Normal tt, h')
    /\ Session.toJSON (this h') = Throw (RangeError "Invalid time value").
Proof.
  destruct (toJSON_throws_on_invalid_time farStartContext sampleHeap)
    as (h' & Hrun & Hst & _ & Hthrow & _).
  exists h'. split; [ exact Hrun | ].
  apply Hthrow. rewrite Hst. reflexivity.
Defined.

(** ** The constructor *)

(** X10. The constructor draws one id and reads the clock twice, for
    [timestamp] first and for [started] second. Without a context the
    session keeps these and [duration: 0], so that [timestamp] is the
    earlier of the two readings. With a context, be it [{}], [update] runs
    on that session: [started] is the second reading unless the context
    gives one, the clock is read a third time for [timestamp] unless the
    context has a truthy one, [duration] is the context's or
    [timestamp - started], and a [sid] of the context that is not empty and
    not of length 32 costs a second id. *)
Theorem constructor_reads_the_clock (context : option SessionContext) (w : World) :
  exists h,
    Session.new context w = (Normal tt, h)
    /\ (context = None ->
        this h
        = {| userAgent := None; errors := 0; release := None;
             sid := uuid4_of (entropy w (draws w)); did := PUndefined;
             timestamp := clock w (ticks w); started := clock w (S (ticks w));
             duration := 0; status := Ok; sessionMode := Application;
             environment := None; ipAddress := None; init := true |}
        /\ ticks (world h) = S (S (ticks w))
        /\ draws (world h) = S (draws w))
    /\ (forall c, context = Some c ->
        started (this h)
        = match c_started c with Some n => n | None => clock w (S (ticks w)) end
        /\ timestamp (this h)
           = (if truthyOptNum (c_timestamp c)
              then match c_timestamp c with Some t => t | None => 0 end
              else clock w (S (S (ticks w))))
        /\ duration (this h)
           = match c_duration c with
             | Some n => n
             | None => timestamp (this h) - started (this h)
             end
        /\ ticks (world h)
           = (if truthyOptNum (c_timestamp c) then S (S (ticks w))
              else S (S (S (ticks w))))
        /\ draws (world h)
           = (if regeneratesSid c then S (S (draws w)) else S (draws w))).
Proof.
  unfold Session.new, Session.fieldInitializers, drawUuid, readClock.
  cbn [ticks draws clock entropy set_ticks set_draws].
  destruct context as [ c | ].
  - match goal with
    | |- exists h, Session.update c ?h0 = _ /\ _ =>
        destruct (update_all c h0)
          as (h & Hrun & (_ & _ & _ & _ & _ & Hts & Hst & Hdu & _) & Hw)
    end.
    exists h. split; [ exact Hrun | ].
    split; [ discriminate | ].
    intros c' [= <-].
    rewrite Hdu, Hts, Hst, Hw. unfold effectiveTimestamp, truthyOptNum.
    cbn [this world started ticks draws clock set_ticks set_draws].
    split; [ reflexivity | ].
    split.
    { destruct (c_timestamp c) as [ t | ]; [ | reflexivity ].
      destruct (t =? 0); reflexivity. }
    split; [ reflexivity | ].
    split.
    { destruct (c_timestamp c) as [ t | ]; [ | reflexivity ].
      destruct (t =? 0); reflexivity. }
    destruct (regeneratesSid c); reflexivity.
  - eexists. split; [ reflexivity | ].
    split; [ | discriminate ].
    intros _. repeat split.
Qed.

Lemma constructor_reads_the_clock_witness :
  timestamp (this sampleHeap) = 1615882662123
  /\ started (this sampleHeap) = 1615882662124
  /\ duration (this sampleHeap) = 0.
Proof.
  destruct (constructor_reads_the_clock None sampleWorld) as (h & Hrun & Hnone & _).
  destruct (Hnone eq_refl) as (Hthis & _).
  assert (E : sampleHeap = h).
  { unfold sampleHeap. rewrite Hrun. reflexivity. }
  rewrite E, Hthis. repeat split.
Defined.

(* ===================================================================== *)
(** * Further properties of [SessionFlusher]                              *)
(* ===================================================================== *)

(** ** A call outside a request *)

Lemma set_not_empty {V : Type} (k : Z) (v : V) (o : JsObject.t V) :
  JsObject.set k v o <> [].
Proof.
  destruct o as [ | [k' v'] rest ]; cbn; [ discriminate | ].
  destruct (k =? k'); discriminate.
Qed.

(** X11. A call of [incrementSessionCount] made when the hub has no scope,
    or a scope with no request session, returns (the key being a valid time
    value) and counts nothing: [errored] and [exited] of the bucket of the
    key are as before, the scope and the log are untouched. The bucket is
    created all the same, with [started] alone when it is new, so the table
    is not empty afterwards and the next [flush] sends it. *)
Theorem count_without_request_session (h : Heap SessionFlusher) :
  requestSessionOf h = None ->
  JSDate.validTime (currentKey h) = true ->
  exists h' bucket,
    SessionFlusher.incrementSessionCount h = (Normal tt, h')
    /\ JsObject.get (currentKey h) (_pendingAggregates (this h')) = Some bucket
    /\ ac_errored bucket = ac_errored (bucketBefore h)
    /\ ac_exited bucket = ac_exited (bucketBefore h)
    /\ truthyOptString (ac_started bucket) = true
    /\ (JsObject.get (currentKey h) (_pendingAggregates (this h)) = None ->
        bucket = set_ac_started (Some (JSDate.isoFormat (currentKey h))) emptyCounts)
    /\ _pendingAggregates (this h') <> []
    /\ scope (world h') = scope (world h)
    /\ output (world h') = output (world h).
Proof.
  intros Hrs Hvalid.
  rewrite incrementSessionCount_run, Hvalid, Hrs, orb_true_r.
  eexists. exists (stamped h). split; [ reflexivity | ].
  cbn [this world _pendingAggregates set_pendingAggregates scope output set_ticks].
  split; [ apply get_set_same | ].
  unfold stamped.
  destruct (truthyOptString (ac_started (bucketBefore h))) eqn:Hst.
  - repeat (split; [ first [ reflexivity | exact Hst ] | ]).
    split.
    { intros Hnone. unfold bucketBefore in Hst. rewrite Hnone in Hst. discriminate Hst. }
    split; [ apply set_not_empty | split; reflexivity ].
  - repeat (split; [ first [ reflexivity | apply isoFormat_truthy ] | ]).
    split.
    { intros Hnone. unfold bucketBefore. rewrite Hnone. reflexivity. }
    split; [ apply set_not_empty | split; reflexivity ].
Qed.

Lemma count_without_request_session_witness :
  exists h',
    SessionFlusher.incrementSessionCount idleFlusher = (Normal tt, h')
    /\ JsObject.get 1615881600000 (_pendingAggregates (this h'))
       = Some {| ac_started := Some "2021-03-16T08:00:00.000Z"; ac_errored := None;
                 ac_exited := None; ac_crashed := None; ac_abnormal := None |}.
Proof.
  destruct (count_without_request_session idleFlusher)
    as (h' & bucket & Hrun & Hget & _ & _ & _ & Hnew & _).
  - reflexivity.
  - vm_compute. reflexivity.
  - exists h'. split; [ exact Hrun | ].
    rewrite (Hnew eq_refl) in Hget.
    exact Hget.
Defined.

(** ** A second call under the same scope *)

(** X12. Writing [undefined] into the status of the request session does
    not take the session out of the scope: a second call of
    [incrementSessionCount] made under the scope that the first call left,
    with the same key, counts the request session once more, and counts it
    as exited whatever its status was at the first call. *)
Theorem request_session_is_counted_again
    (h : Heap SessionFlusher) (rs : RequestSession) :
  scope (world h) = Some (Some rs) ->
  JSDate.validTime (currentKey h) = true ->
  exists h1 first,
    SessionFlusher.incrementSessionCount h = (Normal tt, h1)
    /\ JsObject.get (currentKey h) (_pendingAggregates (this h1)) = Some first
    /\ forall w2 : World,
         scope w2 = scope (world h1) ->
         keyIn w2 = currentKey h ->
         exists h2 second,
           SessionFlusher.incrementSessionCount (mkHeap (this h1) w2) = (Normal tt, h2)
           /\ JsObject.get (currentKey h) (_pendingAggregates (this h2)) = Some second
           /\ ac_exited second = increment (ac_exited first)
           /\ ac_errored second = ac_errored first
           /\ ac_started second = ac_started first.
Proof. exact (incrementSessionCount_again h rs). Qed.

Lemma request_session_is_counted_again_witness :
  exists h1 h2 second,
    SessionFlusher.incrementSessionCount sampleFlusher = (Normal tt, h1)
    /\ SessionFlusher.incrementSessionCount
         (mkHeap (this h1) (set_ticks 1%nat (world h1))) = (Normal tt, h2)
    /\ JsObject.get 1615881600000 (_pendingAggregates (this h2)) = Some second
    /\ ac_errored second = Some 1 /\ ac_exited second = Some 1.
Proof.
  destruct (request_session_is_counted_again sampleFlusher
              {| rs_status := Some "errored" |})
    as (h1 & first & Hrun1 & Hget1 & Hnext).
  - reflexivity.
  - vm_compute. reflexivity.
  - destruct (Hnext (set_ticks 1%nat (world h1)))
      as (h2 & second & Hrun2 & Hget2 & Hexited & Herrored & _).
    + reflexivity.
    + pose proof (f_equal snd Hrun1) as E. cbn [snd] in E.
      rewrite <- E. vm_compute. reflexivity.
    + exists h1, h2, second.
      split; [ exact Hrun1 | ]. split; [ exact Hrun2 | ].
      split; [ exact Hget2 | ].
      rewrite Herrored, Hexited.
      pose proof (f_equal snd Hrun1) as E. cbn [snd] in E.
      rewrite <- E in Hget1.
      assert (Hfirst :
        Some first = Some {| ac_started := Some "2021-03-16T08:00:00.000Z";
                             ac_errored := Some 1; ac_exited := None;
                             ac_crashed := None; ac_abnormal := None |}).
      { rewrite <- Hget1. vm_compute. reflexivity. }
      injection Hfirst as ->. split; reflexivity.
Defined.

(** ** The attributes of the payload *)

Lemma incrementSessionCount_attrs (h : Heap SessionFlusher) :
  _sessionAttrs (this (snd (SessionFlusher.incrementSessionCount h))) = attrsAfter h.
Proof.
  rewrite incrementSessionCount_run.
  destruct (truthyOptString (ac_started (bucketBefore h))
            || JSDate.validTime (currentKey h));
    [ destruct (requestSessionOf h) | ]; reflexivity.
Qed.

Lemma incrementSessionCount_table (h : Heap SessionFlusher) :
  exists bucket,
    _pendingAggregates (this (snd (SessionFlusher.incrementSessionCount h)))
    = JsObject.set (currentKey h) bucket (_pendingAggregates (this h)).
Proof.
  rewrite incrementSessionCount_run.
  destruct (truthyOptString (ac_started (bucketBefore h))
            || JSDate.validTime (currentKey h));
    [ destruct (requestSessionOf h) | ]; eexists; reflexivity.
Qed.

Lemma countIn_attrs (ws : list World) (f : SessionFlusher) (a : SessionAttrs) :
  _sessionAttrs f = Some a -> _sessionAttrs (countIn ws f) = Some a.
Proof.
  revert f. induction ws as [ | w rest IH ]; intros f Hf; [ exact Hf | ].
  cbn [countIn]. apply IH.
  rewrite incrementSessionCount_attrs. unfold attrsAfter. cbn [this].
  rewrite Hf. reflexivity.
Qed.

(** X13. [incrementSessionCount] reads the options of the client only when
    [_sessionAttrs] is [undefined]: attributes that are set are kept, and
    once a call has set them, any number of further calls keeps them,
    whatever the client and its options have become. When they are read and
    the hub has no client, they become an object with [release] and
    [environment] both [undefined]. This holds also for a call that
    throws. *)
Theorem session_attrs_are_sampled_once (h : Heap SessionFlusher) :
  let h1 := snd (SessionFlusher.incrementSessionCount h) in
  (forall a, _sessionAttrs (this h) = Some a -> _sessionAttrs (this h1) = Some a)
  /\ (_sessionAttrs (this h) = None ->
      _sessionAttrs (this h1)
      = Some match client (world h) with
             | Some o => {| attrs_release := opt_release o;
                            attrs_environment := opt_environment o |}
             | None => {| attrs_release := None; attrs_environment := None |}
             end)
  /\ (forall ws : list World,
        _sessionAttrs (countIn ws (this h1)) = _sessionAttrs (this h1)).
Proof.
  cbv zeta. rewrite incrementSessionCount_attrs.
  split; [ | split ].
  - intros a Ha. unfold attrsAfter. rewrite Ha. reflexivity.
  - intros Hnone. unfold attrsAfter, clientOptions. rewrite Hnone.
    destruct (client (world h)); reflexivity.
  - intros ws.
    assert (Hsome : exists a, attrsAfter h = Some a).
    { unfold attrsAfter. destruct (_sessionAttrs (this h)); eexists; reflexivity. }
    destruct Hsome as (a & Ha). rewrite Ha.
    apply countIn_attrs. rewrite incrementSessionCount_attrs. exact Ha.
Qed.

Lemma flush_this (h : Heap SessionFlusher) :
  NoDup (map fst (_pendingAggregates (this h))) ->
  this (snd (SessionFlusher.flush h))
  = match _pendingAggregates (this h) with
    | [] => this h
    | _ :: _ => flushed (this h)
    end.
Proof.
  intros Hnd. rewrite (flush_run h Hnd).
  destruct (_pendingAggregates (this h)); [ reflexivity | ].
  apply sendSessions_this.
Qed.

Lemma flusherReachable_attrs (h : Heap SessionFlusher) :
  flusherReachable h ->
  (_sessionAttrs (this h) = None <-> _pendingAggregates (this h) = []).
Proof.
  induction 1 as [ transport timeout w | h Hr IH | h Hr IH | payload h _ IH
                 | f w w' _ IH ].
  - split; reflexivity.
  - rewrite incrementSessionCount_attrs.
    destruct (incrementSessionCount_table h) as (bucket & ->).
    split.
    + unfold attrsAfter. destruct (_sessionAttrs (this h)); discriminate.
    + intros E. destruct (set_not_empty _ _ _ E).
  - rewrite (flush_this h (flusherReachable_NoDup h Hr)).
    destruct (_pendingAggregates (this h)) eqn:E.
    + rewrite E. exact IH.
    + split; reflexivity.
  - rewrite sendSessions_this. exact IH.
  - exact IH.
Qed.

(** X14. On a flusher made by the constructor and the methods,
    [_sessionAttrs] is [undefined] exactly when the table is empty. So the
    payload that [flush] hands to [sendSessions] always has [attrs] and at
    least one bucket: [flush] never sends a payload without attributes or
    without aggregates. *)
Theorem flushed_payload_is_never_empty (h : Heap SessionFlusher) :
  flusherReachable h ->
  (_sessionAttrs (this h) = None <-> _pendingAggregates (this h) = [])
  /\ (_pendingAggregates (this h) <> [] ->
      SessionFlusher.flush h
      = SessionFlusher.sendSessions (flushPayload (this h))
          (mkHeap (flushed (this h)) (world h))
      /\ (exists a, attrs (flushPayload (this h)) = Some a)
      /\ List.length (aggregates (flushPayload (this h)))
         = List.length (_pendingAggregates (this h))
      /\ aggregates (flushPayload (this h)) <> []).
Proof.
  intros Hreach. pose proof (flusherReachable_attrs h Hreach) as Hiff.
  split; [ exact Hiff | ].
  intros Hne.
  assert (Hlen : List.length (aggregates (flushPayload (this h)))
                 = List.length (_pendingAggregates (this h))).
  { unfold flushPayload. cbn [aggregates]. rewrite length_map.
    rewrite <- (keys_length (_pendingAggregates (this h))).
    unfold JsObject.keys. rewrite length_map. reflexivity. }
  split; [ | split; [ | split ] ].
  - rewrite (flush_run h (flusherReachable_NoDup h Hreach)).
    destruct (_pendingAggregates (this h)); [ congruence | reflexivity ].
  - unfold flushPayload. cbn [attrs].
    destruct (_sessionAttrs (this h)) as [ a | ]; [ exists a; reflexivity | ].
    destruct Hne. apply Hiff. reflexivity.
  - exact Hlen.
  - intros E. rewrite E in Hlen.
    destruct (_pendingAggregates (this h)); [ congruence | discriminate Hlen ].
Qed.

Lemma flushed_payload_is_never_empty_witness :
  exists a,
    attrs (flushPayload (this twoBuckets)) = Some a
    /\ List.length (aggregates (flushPayload (this twoBuckets))) = 2%nat.
Proof.
  assert (Hreach : flusherReachable twoBuckets).
  { unfold twoBuckets. apply freach_increment, freach_increment, freach_new. }
  destruct (flushed_payload_is_never_empty twoBuckets Hreach) as (_ & Hfull).
  destruct Hfull as (_ & (a & Ha) & Hlen & _).
  - vm_compute. discriminate.
  - exists a. split; [ exact Ha | ]. rewrite Hlen. vm_compute. reflexivity.
Defined.

(** ** The shape of the buckets *)

Lemma get_Some_In {V : Type} (k : Z) (v : V) (o : JsObject.t V) :
  JsObject.get k o = Some v -> In (k, v) o.
Proof.
  induction o as [ | [k' v'] rest IH ]; cbn; [ discriminate | ].
  destruct (k =? k') eqn:E.
  - apply Z.eqb_eq in E. intros [= ->]. left. subst. reflexivity.
  - intros Hget. right. apply IH. exact Hget.
Qed.

Lemma set_In {V : Type} (k k' : Z) (v b : V) (o : JsObject.t V) :
  In (k', b) (JsObject.set k v o) -> (k' = k /\ b = v) \/ In (k', b) o.
Proof.
  induction o as [ | [k0 v0] rest IH ]; cbn.
  - intros [ [= <- <-] | [] ]. left. split; reflexivity.
  - destruct (k =? k0).
    + intros [ [= <- <-] | Hin ]; [ left; split; reflexivity | right; right; exact Hin ].
    + intros [ Heq | Hin ]; [ right; left; exact Heq | ].
      destruct (IH Hin) as [ Hnew | Hold ]; [ left; exact Hnew | right; right; exact Hold ].
Qed.

Lemma positiveCount_increment (c : option Z) :
  positiveCount c -> positiveCount (increment c).
Proof. destruct c as [ n | ]; cbn; lia. Qed.

Lemma emptyCounts_shape (k : Z) :
  JSDate.validTime k = false -> bucketShape k emptyCounts.
Proof.
  intros Hk. unfold bucketShape. cbn.
  repeat (split; [ first [ reflexivity | exact I ] | ]).
  right. repeat split. exact Hk.
Qed.

Lemma stamped_started (h : Heap SessionFlusher) :
  (forall b, JsObject.get (currentKey h) (_pendingAggregates (this h)) = Some b ->
             bucketShape (currentKey h) b) ->
  truthyOptString (ac_started (bucketBefore h)) || JSDate.validTime (currentKey h) = true ->
  ac_crashed (stamped h) = None /\ ac_abnormal (stamped h) = None
  /\ positiveCount (ac_errored (stamped h)) /\ positiveCount (ac_exited (stamped h))
  /\ ac_started (stamped h) = Some (JSDate.isoFormat (currentKey h)).
Proof.
  intros Hshape Hcond. unfold stamped, bucketBefore in *.
  destruct (JsObject.get (currentKey h) (_pendingAggregates (this h))) as [ b | ].
  - destruct (Hshape b eq_refl) as (Hc & Ha & He & Hx & Hs).
    destruct (truthyOptString (ac_started b)) eqn:Ht.
    + destruct Hs as [ Hs | (Hs & _) ]; [ | rewrite Hs in Ht; discriminate Ht ].
      repeat split; assumption.
    + cbn [ac_crashed ac_abnormal ac_errored ac_exited ac_started set_ac_started].
      repeat split; assumption.
  - cbn. repeat split.
Qed.

Lemma incrementSessionCount_shape (h : Heap SessionFlusher) :
  (forall k b, In (k, b) (_pendingAggregates (this h)) -> bucketShape k b) ->
  forall k b,
    In (k, b) (_pendingAggregates (this (snd (SessionFlusher.incrementSessionCount h)))) ->
    bucketShape k b.
Proof.
  intros IH k b.
  assert (Hhere : forall b0,
            JsObject.get (currentKey h) (_pendingAggregates (this h)) = Some b0 ->
            bucketShape (currentKey h) b0).
  { intros b0 Hget. apply IH. apply get_Some_In. exact Hget. }
  rewrite incrementSessionCount_run.
  destruct (truthyOptString (ac_started (bucketBefore h))
            || JSDate.validTime (currentKey h)) eqn:Hcond.
  - destruct (stamped_started h Hhere Hcond) as (Hc & Ha & He & Hx & Hs).
    destruct (requestSessionOf h) as [ rs | ];
      cbn [snd this _pendingAggregates set_pendingAggregates];
      intros Hin; apply set_In in Hin;
      (destruct Hin as [ (-> & ->) | Hold ]; [ | apply IH; exact Hold ]).
    + unfold counted.
      destruct (match rs_status rs with Some s => String.eqb s "errored" | None => false end);
        unfold bucketShape; cbn [ac_crashed ac_abnormal ac_errored ac_exited ac_started
                                   set_ac_errored set_ac_exited];
        repeat (split; [ first [ assumption | apply positiveCount_increment; assumption ] | ]);
        left; exact Hs.
    + unfold bucketShape. repeat (split; [ assumption | ]). left; exact Hs.
  - cbn [snd this _pendingAggregates set_pendingAggregates].
    intros Hin. apply set_In in Hin.
    destruct Hin as [ (-> & ->) | Hold ]; [ | apply IH; exact Hold ].
    apply orb_false_iff in Hcond. destruct Hcond as (Hst & Hv).
    unfold bucketBefore in *.
    destruct (JsObject.get (currentKey h) (_pendingAggregates (this h))) as [ b0 | ].
    + apply Hhere. reflexivity.
    + apply emptyCounts_shape. exact Hv.
Qed.

Lemma flusherReachable_shape (h : Heap SessionFlusher) :
  flusherReachable h ->
  forall k b, In (k, b) (_pendingAggregates (this h)) -> bucketShape k b.
Proof.
  induction 1 as [ transport timeout w | h Hr IH | h Hr IH | payload h _ IH
                 | f w w' _ IH ].
  - intros k b [].
  - apply incrementSessionCount_shape. exact IH.
  - rewrite (flush_this h (flusherReachable_NoDup h Hr)).
    destruct (_pendingAggregates (this h)) eqn:E.
    + rewrite E. exact IH.
    + intros k b [].
  - rewrite sendSessions_this. exact IH.
  - exact IH.
Qed.

(** X15. On a flusher made by the constructor and the methods, every
    bucket of the table, and so every entry of the payload that [flush]
    builds, is an object whose [crashed] and [abnormal] are [undefined]
    (the flusher never counts a session as crashed or abnormal), whose
    [errored] and [exited] are [undefined] or at least 1, and whose
    [started] is the ISO form of the key it is stored under; [started] is
    missing only in a bucket without counts whose key is not a valid time
    value, which a call that threw left behind. No entry of the payload is
    [undefined]. *)
Theorem buckets_keep_their_shape (h : Heap SessionFlusher) :
  flusherReachable h ->
  (forall k b, In (k, b) (_pendingAggregates (this h)) -> bucketShape k b)
  /\ (forall a, In a (aggregates (flushPayload (this h))) ->
        exists k b, a = Some b /\ In (k, b) (_pendingAggregates (this h))
                    /\ bucketShape k b).
Proof.
  intros Hreach. pose proof (flusherReachable_shape h Hreach) as Hshape.
  split; [ exact Hshape | ].
  intros a Hin. unfold flushPayload in Hin. cbn [aggregates] in Hin.
  apply in_map_iff in Hin. destruct Hin as ([k b] & <- & Hin).
  assert (Hin' : In (k, b) (_pendingAggregates (this h))).
  { apply (Permutation_in _ (Permutation_sym (ownProperties_perm _)) Hin). }
  exists k, b. split; [ reflexivity | ]. split; [ exact Hin' | ].
  apply Hshape. exact Hin'.
Qed.

Lemma buckets_keep_their_shape_witness :
  bucketShape (-1800000)
    {| ac_started := Some "1969-12-31T23:30:00.000Z"; ac_errored := Some 1;
       ac_exited := None; ac_crashed := None; ac_abnormal := None |}.
Proof.
  assert (Hreach : flusherReachable twoBuckets).
  { unfold twoBuckets. apply freach_increment, freach_increment, freach_new. }
  destruct (buckets_keep_their_shape twoBuckets Hreach) as (Htable & _).
  apply Htable. vm_compute. left. reflexivity.
Defined.

(** ** No count is lost or doubled *)

Lemma countOf_increment (c : option Z) : countOf (increment c) = countOf c + 1.
Proof. destruct c; cbn; lia. Qed.

Lemma tableTotal_set (k : Z) (v : AggregationCounts) (o : JsObject.t AggregationCounts) :
  tableTotal (JsObject.set k v o)
  = tableTotal o
    - bucketTotal (match JsObject.get k o with Some b => b | None => emptyCounts end)
    + bucketTotal v.
Proof.
  induction o as [ | [k' v'] rest IH ]; cbn [JsObject.set JsObject.get].
  - cbn. lia.
  - unfold tableTotal in *.
    destruct (k =? k'); cbn [fold_right snd] in *; lia.
Qed.

Lemma bucketTotal_stamped (h : Heap SessionFlusher) :
  bucketTotal (stamped h) = bucketTotal (bucketBefore h).
Proof.
  unfold stamped. destruct (truthyOptString (ac_started (bucketBefore h))); reflexivity.
Qed.

Lemma bucketTotal_counted (h : Heap SessionFlusher) (rs : RequestSession) :
  bucketTotal (counted h rs) = bucketTotal (bucketBefore h) + 1.
Proof.
  rewrite <- bucketTotal_stamped. unfold counted, bucketTotal.
  destruct (match rs_status rs with Some s => String.eqb s "errored" | None => false end);
    cbn [ac_errored ac_exited set_ac_errored set_ac_exited];
    rewrite countOf_increment; lia.
Qed.

Lemma incrementSessionCount_total (f : SessionFlusher) (w : World) :
  JSDate.validTime (keyIn w) = true ->
  tableTotal
    (_pendingAggregates (this (snd (SessionFlusher.incrementSessionCount (mkHeap f w)))))
  = tableTotal (_pendingAggregates f) + (if hasRequestSession w then 1 else 0).
Proof.
  intros Hvalid. set (h := mkHeap f w).
  assert (Hv : JSDate.validTime (currentKey h) = true) by exact Hvalid.
  rewrite incrementSessionCount_run, Hv, orb_true_r.
  assert (Hrs : requestSessionOf h = match scope w with Some rs => rs | None => None end)
    by reflexivity.
  unfold hasRequestSession. rewrite Hrs.
  destruct (scope w) as [ [ rs | ] | ];
    cbn [snd this _pendingAggregates set_pendingAggregates];
    rewrite tableTotal_set; fold (bucketBefore h);
    rewrite ?bucketTotal_counted, ?bucketTotal_stamped; cbn [this h]; lia.
Qed.

Lemma payloadTotal_perm (l l' : list (Z * AggregationCounts)) :
  Permutation l l' -> tableTotal l = tableTotal l'.
Proof.
  unfold tableTotal.
  induction 1 as [ | e l l' _ IH | a b l | l l' l'' _ IH1 _ IH2 ];
    cbn [fold_right] in *; lia.
Qed.

Lemma payloadTotal_flushPayload (f : SessionFlusher) :
  payloadTotal (flushPayload f) = tableTotal (_pendingAggregates f).
Proof.
  rewrite (payloadTotal_perm _ _ (ownProperties_perm (_pendingAggregates f))).
  unfold payloadTotal, flushPayload. cbn [aggregates].
  unfold tableTotal.
  induction (JsObject.ownProperties (_pendingAggregates f)) as [ | e l IH ];
    cbn [map fold_right] in *; [ reflexivity | lia ].
Qed.

(** X16. Counting conserves the number of request sessions. After calls
    of [incrementSessionCount] in any worlds (any hours, time zones and
    scopes, the keys being valid time values), the [errored] and [exited]
    counts of all buckets sum to what they summed to before plus the number
    of calls that found a request session; and the payload that [flush]
    builds carries the same sum, whatever the order in which the buckets are
    enumerated. On a new flusher the sum is the number of those calls. *)
Theorem counts_are_conserved (ws : list World) (f : SessionFlusher) :
  Forall (fun w => JSDate.validTime (keyIn w) = true) ws ->
  tableTotal (_pendingAggregates (countIn ws f))
  = tableTotal (_pendingAggregates f)
    + Z.of_nat (List.length (filter hasRequestSession ws))
  /\ payloadTotal (flushPayload (countIn ws f))
     = tableTotal (_pendingAggregates f)
       + Z.of_nat (List.length (filter hasRequestSession ws))
  /\ (_pendingAggregates f = [] ->
      payloadTotal (flushPayload (countIn ws f))
      = Z.of_nat (List.length (filter hasRequestSession ws))).
Proof.
  intros Hvalid.
  assert (Htable :
    tableTotal (_pendingAggregates (countIn ws f))
    = tableTotal (_pendingAggregates f)
      + Z.of_nat (List.length (filter hasRequestSession ws))).
  { revert f. induction Hvalid as [ | w rest Hw _ IH ]; intros f.
    - cbn. lia.
    - cbn [countIn filter]. rewrite IH, (incrementSessionCount_total f w Hw).
      destruct (hasRequestSession w); cbn [List.length]; lia. }
  split; [ exact Htable | ].
  rewrite payloadTotal_flushPayload.
  split; [ exact Htable | ].
  intros E. rewrite Htable, E. cbn. lia.
Qed.

Lemma counts_are_conserved_witness :
  payloadTotal
    (flushPayload
       (countIn [sampleWorld; idleWorld; halfHourWorld; sampleWorld]
          (SessionFlusher.new sampleTransport 10))) = 3.
Proof.
  destruct (counts_are_conserved
              [sampleWorld; idleWorld; halfHourWorld; sampleWorld]
              (SessionFlusher.new sampleTransport 10))
    as (_ & _ & Hnew).
  - repeat constructor.
  - rewrite (Hnew eq_refl). reflexivity.
Defined.

(** ** [flush] does not retry *)

(** X17. [flush] empties the fields before it sends and never puts the
    buckets back: on a flusher made by the constructor and the methods,
    after [flush] the table is empty and [_sessionAttrs] is [undefined]
    however the call ended, and a second [flush] returns without calling
    the transport or logging. That includes the case where the
    [sendSessions] of the transport throws: [flush] then throws the same,
    and the buckets it had taken out are gone. *)
Theorem flush_does_not_retry (h : Heap SessionFlusher) :
  flusherReachable h ->
  let h1 := snd (SessionFlusher.flush h) in
  _pendingAggregates (this h1) = []
  /\ _sessionAttrs (this h1) = None
  /\ SessionFlusher.flush h1 = (Normal tt, h1)
  /\ (forall send e,
        transport_sendSessions (_transport (this h)) = Some send ->
        _pendingAggregates (this h) <> [] ->
        send (flushPayload (this h)) = Throws e ->
        fst (SessionFlusher.flush h) = Throw (Thrown e)).
Proof.
  intros Hreach. cbv zeta.
  pose proof (flusherReachable_NoDup h Hreach) as Hnd.
  assert (Hempty : _pendingAggregates (this (snd (SessionFlusher.flush h))) = []).
  { rewrite (flush_this h Hnd).
    destruct (_pendingAggregates (this h)) eqn:E; [ exact E | reflexivity ]. }
  split; [ exact Hempty | ].
  split.
  { apply (flusherReachable_attrs _ (freach_flush h Hreach)). exact Hempty. }
  split.
  { rewrite (flush_run (snd (SessionFlusher.flush h))); rewrite Hempty;
      [ reflexivity | constructor ]. }
  intros send e Hsend Hne Hthrows.
  rewrite (flush_run h Hnd).
  destruct (_pendingAggregates (this h)); [ congruence | ].
  rewrite sendSessions_run. cbn [this _transport flushed set_sessionAttrs
                                   set_pendingAggregates].
  rewrite Hsend. cbv zeta. rewrite Hthrows. reflexivity.
Qed.

Lemma flush_does_not_retry_witness :
  fst (SessionFlusher.flush undeliverable)
  = Throw (Thrown "No module available in HTTPSTransport")
  /\ SessionFlusher.flush (snd (SessionFlusher.flush undeliverable))
     = (Normal tt, snd (SessionFlusher.flush undeliverable)).
Proof.
  assert (Hreach : flusherReachable undeliverable).
  { unfold undeliverable. apply freach_increment, freach_new. }
  destruct (flush_does_not_retry undeliverable Hreach) as (_ & _ & Hagain & Hthrows).
  split; [ | exact Hagain ].
  apply (Hthrows (fun _ => Throws "No module available in HTTPSTransport")).
  - reflexivity.
  - vm_compute. discriminate.
  - reflexivity.
Defined.

(** ** The key of a bucket *)

(** X18. The key that [incrementSessionCount] computes from a reading of
    the clock is the start of the hour of local time that contains the
    reading, taken back to UTC with the offset that the zone has for that
    local time; all readings of one hour of local time get one key. The
    reading lies in the hour that starts at the key moved by the difference
    between that offset and the offset at the reading. Where the two
    offsets are the same, as in a zone of constant offset, the key is at
    most the reading and less than an hour before it, and truncating the key
    again gives it back when the zone has the same offset at the key; in a
    zone of constant offset the readings that get a key are exactly those
    from the key up to an hour later. In America/New_York at
    2021-11-07T06:30Z, half an hour after the clocks went back, the key is
    2021-11-07T05:00Z, ninety minutes before the reading. *)
Theorem key_is_the_start_of_the_hour (tz : JSDate.TimeZone) (now : Z) :
  let t := JSDate.LocalTime tz now in
  let hour := t / JSDate.msPerHour * JSDate.msPerHour in
  let key := SessionFlusher.sessionStartedTrunc tz now in
  let shift := JSDate.offsetAtUTC tz now - JSDate.offsetAtLocal tz hour in
  key = JSDate.UTC tz hour
  /\ hour <= t < hour + JSDate.msPerHour
  /\ key - shift <= now < key - shift + JSDate.msPerHour
  /\ (shift = 0 -> key <= now < key + JSDate.msPerHour)
  /\ (JSDate.offsetAtUTC tz key = JSDate.offsetAtLocal tz hour ->
      SessionFlusher.sessionStartedTrunc tz key = key)
  /\ (forall now',
        JSDate.LocalTime tz now' / JSDate.msPerHour = t / JSDate.msPerHour ->
        SessionFlusher.sessionStartedTrunc tz now' = key)
  /\ (forall tza now0,
        let key0 := SessionFlusher.sessionStartedTrunc (JSDate.fixedZone tza) now0 in
        key0 <= now0 < key0 + JSDate.msPerHour
        /\ (JSDate.msPerHour | key0 + tza)
        /\ SessionFlusher.sessionStartedTrunc (JSDate.fixedZone tza) key0 = key0
        /\ (forall now',
              SessionFlusher.sessionStartedTrunc (JSDate.fixedZone tza) now' = key0
              <-> key0 <= now' < key0 + JSDate.msPerHour))
  /\ SessionFlusher.sessionStartedTrunc newYork2021 1636266600000 = 1636261200000.
Proof.
  cbv zeta. rewrite sessionStartedTrunc_hour.
  unfold JSDate.UTC, JSDate.LocalTime, JSDate.msPerHour.
  pose proof (Z.div_mod (now + JSDate.offsetAtUTC tz now) 3600000 ltac:(lia)) as Hdiv.
  pose proof (Z.mod_pos_bound (now + JSDate.offsetAtUTC tz now) 3600000 ltac:(lia))
    as Hmod.
  set (q := (now + JSDate.offsetAtUTC tz now) / 3600000) in *.
  split; [ reflexivity | ].
  split; [ lia | ].
  split; [ lia | ].
  split; [ lia | ].
  split.
  { intros Hsame. rewrite sessionStartedTrunc_hour.
    unfold JSDate.UTC, JSDate.LocalTime, JSDate.msPerHour.
    rewrite Hsame.
    replace (q * 3600000 - JSDate.offsetAtLocal tz (q * 3600000)
             + JSDate.offsetAtLocal tz (q * 3600000)) with (q * 3600000) by lia.
    rewrite Z.div_mul by lia. reflexivity. }
  split.
  { intros now' Hsame. rewrite sessionStartedTrunc_hour.
    unfold JSDate.UTC, JSDate.LocalTime, JSDate.msPerHour in *.
    rewrite Hsame. reflexivity. }
  split; [ | vm_compute; reflexivity ].
  intros tza now0. cbv zeta. rewrite !sessionStartedTrunc_fixed.
  unfold JSDate.msPerHour.
  pose proof (Z.div_mod (now0 + tza) 3600000 ltac:(lia)) as Hdiv0.
  pose proof (Z.mod_pos_bound (now0 + tza) 3600000 ltac:(lia)) as Hmod0.
  set (q0 := (now0 + tza) / 3600000) in *.
  split; [ lia | ].
  split; [ exists q0; lia | ].
  split.
  { replace (q0 * 3600000 - tza + tza) with (q0 * 3600000) by lia.
    rewrite Z.div_mul by lia. reflexivity. }
  intros now'. rewrite sessionStartedTrunc_fixed. unfold JSDate.msPerHour.
  pose proof (Z.div_mod (now' + tza) 3600000 ltac:(lia)) as Hdiv'.
  pose proof (Z.mod_pos_bound (now' + tza) 3600000 ltac:(lia)) as Hmod'.
  set (q' := (now' + tza) / 3600000) in *.
  split; [ intros E; lia | ].
  intros Hin. assert (q' = q0) by nia. subst q'. lia.
Qed.

(* ===================================================================== *)
(** * The interval timer: constructor and [close]                         *)
(* ===================================================================== *)

Lemma call_timers (m : M (Heap SessionFlusher) unit) (s : Scheduled) :
  timers (snd (ScheduledFlusher.call m s)) = timers s
  /\ _intervalId (snd (ScheduledFlusher.call m s)) = _intervalId s
  /\ flusher (snd (ScheduledFlusher.call m s)) = snd (m (flusher s))
  /\ fst (ScheduledFlusher.call m s) = fst (m (flusher s)).
Proof.
  unfold ScheduledFlusher.call. destruct (m (flusher s)) as [r h].
  repeat split.
Qed.

Lemma runStep_handle (c : Step) (s : Scheduled) :
  _intervalId (snd (runStep c s)) = _intervalId s.
Proof.
  destruct c; cbn [runStep]; try apply call_timers; try reflexivity.
  - unfold ScheduledFlusher.intervalElapses.
    destruct (isActive (_intervalId s) (timers s)); [ apply call_timers | reflexivity ].
  - unfold ScheduledFlusher.close.
    destruct (call_timers SessionFlusher.flush
                (set_timers (clearTimeout (_intervalId s) (timers s)) s))
      as (_ & -> & _).
    reflexivity.
Qed.

Lemma runStep_timers (c : Step) (s : Scheduled) :
  timers (snd (runStep c s))
  = if isClose c then clearTimeout (_intervalId s) (timers s) else timers s.
Proof.
  destruct c; cbn [runStep isClose];
    try apply (call_timers SessionFlusher.flush
                 (set_timers (clearTimeout (_intervalId s) (timers s)) s));
    try apply call_timers; try reflexivity.
  - unfold ScheduledFlusher.intervalElapses.
    destruct (isActive (_intervalId s) (timers s)); [ apply call_timers | reflexivity ].
Qed.

Lemma runSteps_handle (cs : list Step) (s : Scheduled) :
  _intervalId (runSteps cs s) = _intervalId s.
Proof.
  revert s. induction cs as [ | c rest IH ]; intros s; [ reflexivity | ].
  cbn [runSteps]. rewrite IH. apply runStep_handle.
Qed.

Lemma runSteps_timers_kept (cs : list Step) (s : Scheduled) :
  forallb (fun c => negb (isClose c)) cs = true ->
  timers (runSteps cs s) = timers s.
Proof.
  revert s. induction cs as [ | c rest IH ]; intros s Hcs; [ reflexivity | ].
  cbn [forallb] in Hcs. apply andb_true_iff in Hcs. destruct Hcs as (Hc & Hrest).
  cbn [runSteps]. rewrite (IH _ Hrest), runStep_timers.
  destruct (isClose c); [ discriminate Hc | reflexivity ].
Qed.

Lemma isActive_clearTimeout (handle : nat) (t : Timers) :
  isActive handle (clearTimeout handle t) = false.
Proof.
  unfold isActive, clearTimeout. cbn [timer_active].
  induction (timer_active t) as [ | e l IH ]; [ reflexivity | ].
  cbn [filter]. destruct (Nat.eqb (fst e) handle) eqn:E; cbn [negb]; [ exact IH | ].
  cbn [existsb]. rewrite E, IH. reflexivity.
Qed.

Lemma clearTimeout_inactive (handle : nat) (t : Timers) :
  isActive handle t = false -> clearTimeout handle t = t.
Proof.
  unfold isActive, clearTimeout. destruct t as [n l]. cbn [timer_active timer_next].
  intros Hl. f_equal.
  induction l as [ | e l IH ]; [ reflexivity | ].
  cbn [existsb] in Hl. apply orb_false_iff in Hl. destruct Hl as (He & Hl).
  cbn [filter]. rewrite He. cbn [negb]. f_equal. apply IH. exact Hl.
Qed.

Lemma runSteps_inactive (cs : list Step) (s : Scheduled) :
  isActive (_intervalId s) (timers s) = false ->
  timers (runSteps cs s) = timers s.
Proof.
  revert s. induction cs as [ | c rest IH ]; intros s Hs; [ reflexivity | ].
  cbn [runSteps].
  assert (Ht : timers (snd (runStep c s)) = timers s).
  { rewrite runStep_timers. destruct (isClose c); [ | reflexivity ].
    apply clearTimeout_inactive. exact Hs. }
  rewrite IH; [ exact Ht | ].
  rewrite runStep_handle, Ht. exact Hs.
Qed.

(** X19. The constructor registers one repeating timer with the host, with
    the delay [flushTimeout * 1000] ms, which is 10000 when no
    [flushTimeout] is given, under a handle that no other timer has; the
    timers that were there are kept, and the fields start empty. Whatever is
    called on the flusher other than [close], the timer stays registered,
    and each time the interval elapses the host runs [flush]. *)
Theorem constructor_arms_the_timer
    (transport : Transport) (timeout : option Z) (w : World) (t : Timers) :
  timersOk t ->
  let s := ScheduledFlusher.new transport timeout w t in
  let delay := match timeout with Some n => n * 1000 | None => 10000 end in
  timer_active (timers s) = (timer_active t ++ [(_intervalId s, delay)])%list
  /\ isActive (_intervalId s) t = false
  /\ flushTimeout (this (flusher s)) = match timeout with Some n => n | None => 10 end
  /\ _pendingAggregates (this (flusher s)) = []
  /\ _sessionAttrs (this (flusher s)) = None
  /\ timersOk (timers s)
  /\ (forall cs : list Step,
        forallb (fun c => negb (isClose c)) cs = true ->
        let s' := runSteps cs s in
        isActive (_intervalId s') (timers s') = true
        /\ fst (ScheduledFlusher.intervalElapses s')
           = fst (SessionFlusher.flush (flusher s'))
        /\ flusher (snd (ScheduledFlusher.intervalElapses s'))
           = snd (SessionFlusher.flush (flusher s'))).
Proof.
  intros Hok. cbv zeta.
  unfold ScheduledFlusher.new, setInterval. cbn [flusher _intervalId timers timer_active this].
  split; [ destruct timeout; reflexivity | ].
  assert (Hfresh : isActive (timer_next t) t = false).
  { unfold isActive. unfold timersOk in Hok.
    induction Hok as [ | e l He _ IH ]; [ reflexivity | ].
    cbn [existsb]. rewrite IH.
    assert (E : Nat.eqb (fst e) (timer_next t) = false) by (apply Nat.eqb_neq; lia).
    rewrite E. reflexivity. }
  split; [ exact Hfresh | ].
  split; [ reflexivity | ]. split; [ reflexivity | ]. split; [ reflexivity | ].
  split.
  { unfold timersOk in *. cbn [timer_active timer_next].
    apply Forall_app. split.
    - eapply Forall_impl; [ | exact Hok ]. cbn. intros e He. lia.
    - constructor; [ cbn; lia | constructor ]. }
  intros cs Hcs.
  rewrite runSteps_handle, (runSteps_timers_kept cs _ Hcs).
  cbn [_intervalId timers].
  assert (Hactive :
    isActive (timer_next t)
      {| timer_next := S (timer_next t);
         timer_active :=
           (timer_active t
              ++ [(timer_next t, match timeout with Some n => n | None => 10 end * 1000)])%list |}
    = true).
  { unfold isActive. cbn [timer_active]. rewrite existsb_app. cbn [existsb fst].
    rewrite Nat.eqb_refl. rewrite orb_true_r. reflexivity. }
  split; [ exact Hactive | ].
  unfold ScheduledFlusher.intervalElapses.
  rewrite runSteps_handle, (runSteps_timers_kept cs _ Hcs).
  cbn [_intervalId timers]. rewrite Hactive.
  destruct (call_timers SessionFlusher.flush
              (runSteps cs
                 {| flusher :=
                      mkHeap
                        (SessionFlusher.new transport
                           match timeout with Some n => n | None => 10 end) w;
                    _intervalId := timer_next t;
                    timers :=
                      {| timer_next := S (timer_next t);
                         timer_active :=
                           (timer_active t
                              ++ [(timer_next t,
                                   match timeout with Some n => n | None => 10 end * 1000)])%list
                      |} |}))
    as (_ & _ & Hf & Hr).
  split; [ exact Hr | exact Hf ].
Qed.

Lemma constructor_arms_the_timer_witness :
  timer_active (timers sampleScheduled) = [(2%nat, 250); (5%nat, 60000); (7%nat, 10000)]
  /\ isActive 7
       (timers (runSteps [StepIncrement; StepInterval; StepIncrement] sampleScheduled))
     = true.
Proof.
  assert (Hok : timersOk sampleTimers).
  { unfold timersOk, sampleTimers. cbn. repeat constructor. }
  destruct (constructor_arms_the_timer sampleTransport None sampleWorld sampleTimers Hok)
    as (Hactive & _ & _ & _ & _ & _ & Hstays).
  split; [ exact Hactive | ].
  destruct (Hstays [StepIncrement; StepInterval; StepIncrement] eq_refl) as (Hstill & _).
  rewrite runSteps_handle in Hstill. exact Hstill.
Defined.

(** X20. [close] unregisters the timer of the flusher and nothing else,
    and then runs [flush] once: it completes as that [flush] does and leaves
    the fields that [flush] leaves, also when [flush] throws, the timer
    being unregistered before. After [close] the timer is never registered
    again, whatever is called: when the interval would have elapsed nothing
    runs, and the counts of a later [incrementSessionCount] wait for an
    explicit [flush] or [close]. *)
Theorem close_clears_the_timer (s : Scheduled) :
  let s1 := snd (ScheduledFlusher.close s) in
  fst (ScheduledFlusher.close s) = fst (SessionFlusher.flush (flusher s))
  /\ flusher s1 = snd (SessionFlusher.flush (flusher s))
  /\ isActive (_intervalId s) (timers s1) = false
  /\ (forall handle, handle <> _intervalId s ->
        isActive handle (timers s1) = isActive handle (timers s))
  /\ (forall cs : list Step,
        let s2 := runSteps cs s1 in
        timers s2 = timers s1
        /\ ScheduledFlusher.intervalElapses s2 = (Normal tt, s2)).
Proof.
  cbv zeta. unfold ScheduledFlusher.close.
  destruct (call_timers SessionFlusher.flush
              (set_timers (clearTimeout (_intervalId s) (timers s)) s))
    as (Ht & Hid & Hf & Hr).
  cbn [flusher set_timers timers _intervalId] in Ht, Hid, Hf, Hr.
  split; [ exact Hr | ]. split; [ exact Hf | ].
  rewrite Ht.
  split; [ apply isActive_clearTimeout | ].
  split.
  { intros handle Hne. unfold isActive, clearTimeout. cbn [timer_active].
    induction (timer_active (timers s)) as [ | e l IH ]; [ reflexivity | ].
    cbn [filter existsb].
    destruct (Nat.eqb (fst e) (_intervalId s)) eqn:E; cbn [negb].
    - apply Nat.eqb_eq in E.
      assert (E' : Nat.eqb (fst e) handle = false)
        by (apply Nat.eqb_neq; congruence).
      rewrite E'. exact IH.
    - cbn [existsb]. rewrite IH. reflexivity. }
  intros cs.
  assert (Hoff :
    isActive
      (_intervalId
         (snd (ScheduledFlusher.call SessionFlusher.flush
                 (set_timers (clearTimeout (_intervalId s) (timers s)) s))))
      (timers
         (snd (ScheduledFlusher.call SessionFlusher.flush
                 (set_timers (clearTimeout (_intervalId s) (timers s)) s))))
    = false).
  { rewrite Hid, Ht. apply isActive_clearTimeout. }
  rewrite (runSteps_inactive cs _ Hoff), Ht.
  split; [ reflexivity | ].
  unfold ScheduledFlusher.intervalElapses.
  rewrite runSteps_handle, (runSteps_inactive cs _ Hoff), Hid, Ht.
  rewrite isActive_clearTimeout. reflexivity.
Qed.

(** ** From the counts to the transport *)

Lemma sentTotal_app (es fs : list Event) :
  sentTotal (es ++ fs) = sentTotal es + sentTotal fs.
Proof.
  induction es as [ | e es IH ]; [ cbn; lia | ].
  destruct e; cbn [app sentTotal]; lia.
Qed.

Lemma incrementSessionCount_frame (h : Heap SessionFlusher) :
  output (world (snd (SessionFlusher.incrementSessionCount h))) = output (world h)
  /\ _transport (this (snd (SessionFlusher.incrementSessionCount h)))
     = _transport (this h).
Proof.
  rewrite incrementSessionCount_run.
  destruct (truthyOptString (ac_started (bucketBefore h))
            || JSDate.validTime (currentKey h));
    [ destruct (requestSessionOf h) | ]; split; reflexivity.
Qed.

Lemma flush_conserves (h : Heap SessionFlusher) send :
  flusherReachable h ->
  transport_sendSessions (_transport (this h)) = Some send ->
  sentTotal (output (world (snd (SessionFlusher.flush h))))
  = sentTotal (output (world h)) + tableTotal (_pendingAggregates (this h))
  /\ _pendingAggregates (this (snd (SessionFlusher.flush h))) = []
  /\ _transport (this (snd (SessionFlusher.flush h))) = _transport (this h).
Proof.
  intros Hreach Hsend. pose proof (flusherReachable_NoDup h Hreach) as Hnd.
  rewrite (flush_run h Hnd).
  destruct (_pendingAggregates (this h)) as [ | e rest ] eqn:E.
  - cbn [snd]. rewrite E. cbn. repeat split. lia.
  - rewrite sendSessions_run.
    cbn [this world _transport flushed set_sessionAttrs set_pendingAggregates
           _pendingAggregates].
    rewrite Hsend. cbv zeta.
    assert (Hp : payloadTotal (flushPayload (this h)) = tableTotal (e :: rest)).
    { rewrite payloadTotal_flushPayload, E. reflexivity. }
    destruct (send (flushPayload (this h)));
      cbn [snd this world output set_output set_jobs _pendingAggregates _transport];
      rewrite sentTotal_app; cbn [sentTotal]; rewrite Hp;
      repeat split; lia.
Qed.

Lemma runStep_conserves (c : Step) (s : Scheduled) send :
  flusherReachable (flusher s) ->
  transport_sendSessions (_transport (this (flusher s))) = Some send ->
  orderly [c] s ->
  let s' := snd (runStep c s) in
  flusherReachable (flusher s')
  /\ _transport (this (flusher s')) = _transport (this (flusher s))
  /\ sentTotal (output (world (flusher s')))
       + tableTotal (_pendingAggregates (this (flusher s')))
     = sentTotal (output (world (flusher s)))
       + tableTotal (_pendingAggregates (this (flusher s)))
       + countedIn [c] s.
Proof.
  intros Hreach Hsend (Hc & _). cbv zeta.
  assert (Hflush :
    forall s0 : Scheduled,
      flusher s0 = flusher s ->
      flusherReachable (flusher (snd (ScheduledFlusher.call SessionFlusher.flush s0)))
      /\ _transport (this (flusher (snd (ScheduledFlusher.call SessionFlusher.flush s0))))
         = _transport (this (flusher s))
      /\ sentTotal (output (world (flusher (snd (ScheduledFlusher.call SessionFlusher.flush s0)))))
           + tableTotal
               (_pendingAggregates
                  (this (flusher (snd (ScheduledFlusher.call SessionFlusher.flush s0)))))
         = sentTotal (output (world (flusher s)))
           + tableTotal (_pendingAggregates (this (flusher s))) + 0).
  { intros s0 E0.
    destruct (call_timers SessionFlusher.flush s0) as (_ & _ & -> & _).
    rewrite E0.
    destruct (flush_conserves (flusher s) send Hreach Hsend) as (Hsent & Hempty & Htr).
    split; [ apply freach_flush; exact Hreach | ].
    split; [ exact Htr | ].
    rewrite Hsent, Hempty. cbn. lia. }
  destruct c; cbn [runStep countedIn orderly] in *.
  - destruct (call_timers SessionFlusher.incrementSessionCount s) as (_ & _ & -> & _).
    destruct (incrementSessionCount_frame (flusher s)) as (Hout & Htr).
    split; [ apply freach_increment; exact Hreach | ].
    split; [ exact Htr | ].
    rewrite Hout.
    destruct (flusher s) as [f w] eqn:Ef.
    rewrite (incrementSessionCount_total f w Hc).
    unfold requestSessionOf, hasRequestSession. cbn [world this].
    destruct (scope w) as [ [ rs | ] | ]; lia.
  - apply (Hflush s eq_refl).
  - unfold ScheduledFlusher.intervalElapses.
    destruct (isActive (_intervalId s) (timers s)).
    + apply (Hflush s eq_refl).
    + cbn [snd]. split; [ exact Hreach | ]. split; [ reflexivity | lia ].
  - unfold ScheduledFlusher.close.
    apply (Hflush (set_timers (clearTimeout (_intervalId s) (timers s)) s) eq_refl).
  - cbn [snd flusher set_flusher this world].
    split.
    { destruct (flusher s) as [f w0] eqn:Ef. cbn [this].
      apply (freach_world f w0 w). exact Hreach. }
    split; [ reflexivity | ].
    rewrite Hc. lia.
Qed.

Lemma runSteps_conserve (cs : list Step) (s : Scheduled) send :
  flusherReachable (flusher s) ->
  transport_sendSessions (_transport (this (flusher s))) = Some send ->
  orderly cs s ->
  let s' := runSteps cs s in
  flusherReachable (flusher s')
  /\ _transport (this (flusher s')) = _transport (this (flusher s))
  /\ sentTotal (output (world (flusher s')))
       + tableTotal (_pendingAggregates (this (flusher s')))
     = sentTotal (output (world (flusher s)))
       + tableTotal (_pendingAggregates (this (flusher s)))
       + countedIn cs s.
Proof.
  revert s. induction cs as [ | c rest IH ]; intros s Hreach Hsend Hok; cbv zeta.
  - cbn. repeat split; [ exact Hreach | lia ].
  - destruct Hok as (Hc & Hrest).
    destruct (runStep_conserves c s send Hreach Hsend (conj Hc I))
      as (Hreach1 & Htr1 & Hsum1).
    assert (Hsend1 :
      transport_sendSessions (_transport (this (flusher (snd (runStep c s))))) = Some send)
      by (rewrite Htr1; exact Hsend).
    destruct (IH (snd (runStep c s)) Hreach1 Hsend1 Hrest) as (Hreach2 & Htr2 & Hsum2).
    cbn [runSteps].
    split; [ exact Hreach2 | ].
    split; [ rewrite Htr2; exact Htr1 | ].
    rewrite Hsum2, Hsum1. cbn [countedIn]. lia.
Qed.

(** X21. Every request session that is counted is handed to the transport
    once. On a flusher whose transport has [sendSessions], after any calls
    of [incrementSessionCount] and [flush], elapsed intervals, earlier
    calls of [close] and changes of the world, a call of [close] leaves the
    table empty, and the payloads that the log shows handed to the transport
    carry, summed over [errored] and [exited], what they carried at the
    start plus what the table held plus the number of calls of
    [incrementSessionCount] that found a request session: none is left
    behind and none is sent twice. *)
Theorem every_count_is_sent_once (cs : list Step) (s : Scheduled) send :
  flusherReachable (flusher s) ->
  transport_sendSessions (_transport (this (flusher s))) = Some send ->
  orderly cs s ->
  let s' := snd (ScheduledFlusher.close (runSteps cs s)) in
  _pendingAggregates (this (flusher s')) = []
  /\ sentTotal (output (world (flusher s')))
     = sentTotal (output (world (flusher s)))
       + tableTotal (_pendingAggregates (this (flusher s)))
       + countedIn cs s.
Proof.
  intros Hreach Hsend Hok. cbv zeta.
  destruct (runSteps_conserve cs s send Hreach Hsend Hok) as (Hreach1 & Htr1 & Hsum1).
  unfold ScheduledFlusher.close.
  destruct (call_timers SessionFlusher.flush
              (set_timers
                 (clearTimeout (_intervalId (runSteps cs s)) (timers (runSteps cs s)))
                 (runSteps cs s)))
    as (_ & _ & -> & _).
  cbn [flusher set_timers].
  assert (Hsend1 :
    transport_sendSessions (_transport (this (flusher (runSteps cs s)))) = Some send)
    by (rewrite Htr1; exact Hsend).
  destruct (flush_conserves (flusher (runSteps cs s)) send Hreach1 Hsend1)
    as (Hsent & Hempty & _).
  split; [ exact Hempty | ].
  rewrite Hsent. lia.
Qed.

Lemma every_count_is_sent_once_witness :
  sentTotal
    (output
       (world
          (flusher
             (snd (ScheduledFlusher.close
                     (runSteps [StepIncrement; StepIncrement; StepInterval; StepIncrement]
                        sampleScheduled))))))
  = 3.
Proof.
  destruct (every_count_is_sent_once
              [StepIncrement; StepIncrement; StepInterval; StepIncrement]
              sampleScheduled (fun _ => Returns Fulfilled))
    as (_ & Hsent).
  - apply freach_new.
  - reflexivity.
  - cbn [orderly]. repeat split; vm_compute; reflexivity.
  - rewrite Hsent. vm_compute. reflexivity.
Defined.

(* ===================================================================== *)
(** * The Node SDK                                                        *)
(* ===================================================================== *)

Section SdkFacts.
Variable Num : Type.
Variable parseFloat : string -> Num.
Variable isFinite : Num -> bool.
Variable SDK_VERSION : string.

(** X22. [init] never replaces [defaultIntegrations], [dsn],
    [tracesSampleRate], [release], [environment] or [autoSessionTracking]
    when the caller defined it, be it as an empty string or as [false],
    whatever the environment holds: it only fills in those that are
    [undefined]. [_metadata.sdk] is different: [init] always overwrites it
    with the description of this SDK, also when the caller gave one. After
    [init], [defaultIntegrations], [autoSessionTracking] and
    [_metadata.sdk] are always defined. Running [init] again on its result,
    in the same process, changes nothing. [initAndBind] is called once,
    last, with the resulting options, after [setHubOnCarrier] when a domain
    is active. *)
Theorem init_keeps_the_six_options (p : Process) (options : NodeOptions Num) :
  let options' := fst (Sdk.init parseFloat isFinite SDK_VERSION p (Some options)) in
  (forall v, o_defaultIntegrations options = Some v ->
             o_defaultIntegrations options' = Some v)
  /\ (forall v, o_dsn options = Some v -> o_dsn options' = Some v)
  /\ (forall v, o_tracesSampleRate options = Some v ->
                o_tracesSampleRate options' = Some v)
  /\ (forall v, o_release options = Some v -> o_release options' = Some v)
  /\ (forall v, o_environment options = Some v -> o_environment options' = Some v)
  /\ (forall v, o_autoSessionTracking options = Some v ->
                o_autoSessionTracking options' = Some v)
  /\ (exists d, o_defaultIntegrations options' = Some d)
  /\ (exists b, o_autoSessionTracking options' = Some b)
  /\ o_metadata options'
     = Some (Some {| sdk_name := "sentry.javascript.node";
                     sdk_packages := [("npm:@sentry/node", SDK_VERSION)];
                     sdk_version := SDK_VERSION |})
  /\ fst (Sdk.init parseFloat isFinite SDK_VERSION p (Some options')) = options'
  /\ snd (Sdk.init parseFloat isFinite SDK_VERSION p (Some options))
     = ((if domain_active p then [SetHubOnCarrier] else [])
          ++ [InitAndBind options'])%list.
Proof.
  cbv zeta. unfold Sdk.init. cbn [fst snd].
  split; [ intros v Hv; cbn; rewrite Hv; reflexivity | ].
  split; [ intros v Hv; cbn; rewrite Hv; reflexivity | ].
  split; [ intros v Hv; cbn; rewrite Hv; reflexivity | ].
  split; [ intros v Hv; cbn; rewrite Hv; reflexivity | ].
  split; [ intros v Hv; cbn; rewrite Hv; reflexivity | ].
  split; [ intros v Hv; cbn; rewrite Hv; reflexivity | ].
  split; [ cbn; destruct (o_defaultIntegrations options); eexists; reflexivity | ].
  split; [ cbn; destruct (o_autoSessionTracking options); eexists; reflexivity | ].
  split; [ reflexivity | ].
  split; [ | reflexivity ].
  unfold Sdk.initOptions.
  cbn [o_defaultIntegrations o_dsn o_tracesSampleRate o_release o_environment
         o_autoSessionTracking o_metadata].
  f_equal.
  - destruct (o_defaultIntegrations options); reflexivity.
  - destruct (o_dsn options); [ reflexivity | ].
    destruct (SENTRY_DSN p) as [ s | ]; [ | reflexivity ].
    cbn [truthyOptString].
    destruct (truthyString s) eqn:Es; cbn [truthyOptString]; rewrite ?Es; reflexivity.
  - destruct (o_tracesSampleRate options); [ reflexivity | ].
    destruct (SENTRY_TRACES_SAMPLE_RATE p) as [ s | ]; [ | reflexivity ].
    destruct (truthyString s) eqn:Es; [ | reflexivity ].
    destruct (isFinite (parseFloat s)) eqn:Ef; [ reflexivity | ].
    rewrite ?Es, ?Ef. reflexivity.
  - destruct (o_release options); [ reflexivity | ].
    destruct (SENTRY_RELEASE p) as [ s | ]; cbn [truthyOptString];
      [ destruct (truthyString s) eqn:Es; cbn [truthyOptString];
        [ rewrite ?Es; reflexivity | ] | ];
      (destruct (global_SENTRY_RELEASE p) as [ [ g | ] | ]; cbn [truthyOptString];
       [ destruct (truthyString g) eqn:Eg; cbn [truthyOptString]; rewrite ?Es, ?Eg;
         reflexivity
       | rewrite ?Es; reflexivity
       | rewrite ?Es; reflexivity ]).
  - destruct (o_environment options); [ reflexivity | ].
    destruct (SENTRY_ENVIRONMENT p) as [ s | ]; [ | reflexivity ].
    cbn [truthyOptString].
    destruct (truthyString s) eqn:Es; cbn [truthyOptString]; rewrite ?Es; reflexivity.
  - destruct (o_autoSessionTracking options); reflexivity.
Qed.

Lemma record_record (es fs : list HubEvent) (hub : Sdk.Hub Num) :
  Sdk.record fs (Sdk.record es hub) = Sdk.record (es ++ fs) hub.
Proof.
  unfold Sdk.record. cbn [Sdk.hub_client Sdk.hub_trace].
  rewrite <- app_assoc. reflexivity.
Qed.

Variable startSessionThrows : Sdk.Hub Num -> option JsError.
Variable endSessionThrows : Sdk.Hub Num -> option JsError.

(** X23. The function that [withAutosessionTracking] returns decides at
    each call, from the options of the client that the hub has then,
    whether it tracks. When [autoSessionTracking] is on, it calls
    [startSession(context)] first, runs the callback when that call
    returned, and then, however the callback completed and also when
    [startSession] threw, logs and calls [endSession()] once, last. The call
    throws what [endSession] throws; else what [startSession] threw; else it
    completes as the callback did, so that an exception of the callback
    reaches the caller after the session is ended. When the hub has no
    client, or [autoSessionTracking] is off or [undefined], the call is the
    call of the callback and the hub is not told. Making the function only
    writes a line to the log. *)
Theorem tracked_call_ends_the_session {Args : Type}
    (callback : Args -> M (Sdk.Hub Num) unit) (context : option SessionContext)
    (args : Args) (hub : Sdk.Hub Num) :
  let wrapped := Sdk.trackedCall startSessionThrows endSessionThrows callback context in
  (Sdk.isAutosessionTrackingEnabled hub = true ->
   let asked := Sdk.record [StartSession context] hub in
   let body :=
     match startSessionThrows asked with
     | Some e => (Throw e, asked)
     | None => callback args (Sdk.record [LoggerLog "Starting Session"] asked)
     end in
   let ended :=
     Sdk.record [LoggerLog "Capturing Sessoin"; EndSession] (snd body) in
   snd (wrapped args hub) = ended
   /\ fst (wrapped args hub)
      = match endSessionThrows ended with
        | Some e => Throw e
        | None => fst body
        end)
  /\ (Sdk.isAutosessionTrackingEnabled hub = false ->
      wrapped args hub = callback args hub)
  /\ (Sdk.isAutosessionTrackingEnabled hub = true <->
      exists clientOptions,
        Sdk.hub_client hub = Some clientOptions
        /\ o_autoSessionTracking clientOptions = Some true)
  /\ Sdk.withAutosessionTracking startSessionThrows endSessionThrows callback context hub
     = (Normal wrapped,
        Sdk.record [LoggerLog "Auto session tracking context manager"] hub).
Proof.
  cbv zeta. split; [ | split; [ | split ] ].
  - intros Hon. unfold Sdk.trackedCall, bind, gets. rewrite Hon.
    unfold Sdk.tryFinally, Sdk.hub_startSession, Sdk.hub_endSession,
      Sdk.logger_log, bind, gets, modify, throw, ret.
    destruct (startSessionThrows (Sdk.record [StartSession context] hub)) as [ e | ].
    + cbn [fst snd]. rewrite record_record. cbn [app].
      destruct (endSessionThrows _); split; reflexivity.
    + destruct (callback args
                  (Sdk.record [LoggerLog "Starting Session"]
                     (Sdk.record [StartSession context] hub)))
        as [r h1].
      cbn [fst snd]. rewrite record_record. cbn [app].
      destruct (endSessionThrows _); split; reflexivity.
  - intros Hoff. unfold Sdk.trackedCall, bind, gets. rewrite Hoff. reflexivity.
  - unfold Sdk.isAutosessionTrackingEnabled. split.
    + destruct (Sdk.hub_client hub) as [ o | ]; [ | discriminate ].
      destruct (o_autoSessionTracking o) as [ b | ] eqn:E; [ | discriminate ].
      intros ->. exists o. split; [ reflexivity | exact E ].
    + intros (o & -> & ->). reflexivity.
  - reflexivity.
Qed.

End SdkFacts.

(* ===================================================================== *)
(** * The https transport                                                 *)
(* ===================================================================== *)

(** X24. The constructor of [HTTPSTransport] takes as proxy the first
    non-empty of [options.httpsProxy], [options.httpProxy],
    [process.env.https_proxy] and [process.env.http_proxy], in this order,
    and makes a proxy agent for it; when all four are empty or missing the
    client is an agent with [keepAlive: false], [maxSockets: 30] and
    [timeout: 2000]. It always sets the module, so on a transport that it
    made [sendEvent] and [sendSession] never throw the [SentryError] for a
    missing module: they hand the request to [_sendWithModule], [sendSession]
    after logging. *)
Theorem constructed_transport_has_its_module
    {E S Request : Type} (eventToSentryRequest : E -> Request)
    (sessionToSentryRequest : S -> Request)
    (options : TransportOptions) (env : ProxyEnv) :
  let t := HTTPSTransport.new options env in
  transport_client t
  = Some match find truthyOptString
                 [ httpsProxy options; httpProxy options;
                   https_proxy env; http_proxy env ] with
         | Some (Some proxy) => HttpsProxyAgent proxy
         | _ => HttpsAgent false 30 2000
         end
  /\ (forall event,
        HTTPSTransport.sendEvent eventToSentryRequest t event
        = SendsWithModule [] https (eventToSentryRequest event))
  /\ (forall session,
        HTTPSTransport.sendSession sessionToSentryRequest t session
        = SendsWithModule ["Sending session!"] https (sessionToSentryRequest session)).
Proof.
  cbv zeta. split; [ | split; reflexivity ].
  unfold HTTPSTransport.new, orString. cbn [transport_client find].
  destruct (httpsProxy options) as [ [ | ? ? ] | ];
    destruct (httpProxy options) as [ [ | ? ? ] | ];
    destruct (https_proxy env) as [ [ | ? ? ] | ];
    destruct (http_proxy env) as [ [ | ? ? ] | ];
    reflexivity.
Qed.
